(* ========================================================================== *)
(*  Vulkan pipeline cache (video_core/renderer_vulkan/vk_pipeline_cache.cpp)   *)
(*                                                                            *)
(*  A shallow embedding of the program-length estimator, the shader-code       *)
(*  fetch, the descriptor layout and update-template builders, and the         *)
(*  graphics / compute pipeline caches with their invalidation path, followed  *)
(*  by the properties established about them.                                  *)
(*                                                                            *)
(*  Conventions                                                                *)
(*   - u32 / u64 / std::size_t values are integers in Z; every arithmetic      *)
(*     operation of the source that can wrap is written with wrap32/wrap64.    *)
(*   - std::vector is a list; v[i] is [word_at] / [nth].                       *)
(*   - references (u32&, std::vector&) are passed in and returned.             *)
(*   - the cache object is an explicit state record threaded through a small   *)
(*     state-and-abort monad; a failed ASSERT aborts the operation.            *)
(* ========================================================================== *)

From Stdlib Require Import ZArith List Bool Lia Arith.
Import ListNotations.

Open Scope Z_scope.

(* -------------------------------------------------------------------------- *)
(*  Machine integers                                                          *)
(* -------------------------------------------------------------------------- *)

Definition wrap32 (x : Z) : Z := x mod 2 ^ 32.
Definition wrap64 (x : Z) : Z := x mod 2 ^ 64.

(** std::size(container) as an integer. *)
Definition size {A : Type} (v : list A) : Z := Z.of_nat (length v).

(* -------------------------------------------------------------------------- *)
(*  Program-length estimator                                                  *)
(* -------------------------------------------------------------------------- *)

(** ProgramCode = std::vector<u64>. *)
Definition ProgramCode : Type := list Z.

(** program[offset] *)
Definition word_at (program : ProgramCode) (offset : Z) : Z :=
  nth (Z.to_nat offset) program 0.

(** Gets if the current instruction offset is a scheduler instruction.
    The subtraction is on std::size_t. *)
Definition IsSchedInstruction (offset main_offset : Z) : bool :=
  let SchedPeriod := 4 in
  let absolute_offset := wrap64 (offset - main_offset) in
  (absolute_offset mod SchedPeriod) =? 0.

Definition self_jumping_branch : Z := 0xE2400FFFFF07000F.
Definition mask : Z := 0xFFFFFFFFFF7FFFFF.

(** The while loop of CalculateProgramSize; the result is the value of
    [offset] when the loop is left (by [break] or by its condition).
    [fuel] bounds the number of iterations; [size program] iterations are
    always enough: the loop leaves by itself before the fuel runs out. *)
Fixpoint CalculateProgramSize_loop (fuel : nat) (program : ProgramCode)
         (start_offset offset : Z) : Z :=
  match fuel with
  | O => offset
  | S fuel' =>
      if offset <? size program then
        let instruction := word_at program offset in
        if negb (IsSchedInstruction offset start_offset) then
          if Z.land instruction mask =? self_jumping_branch then
            offset (* End on Maxwell's "nop" instruction *)
          else if instruction =? 0 then
            offset
          else CalculateProgramSize_loop fuel' program start_offset (wrap64 (offset + 1))
        else CalculateProgramSize_loop fuel' program start_offset (wrap64 (offset + 1))
      else offset
  end.

(** Calculates the size of a program stream. *)
Definition CalculateProgramSize (program : ProgramCode) (is_compute : bool) : Z :=
  let start_offset := if is_compute then 0 else 10 in
  let offset :=
    CalculateProgramSize_loop (length program) program start_offset start_offset in
  (* The last instruction is included in the program size *)
  Z.min (wrap64 (offset + 1)) (size program).

(* -------------------------------------------------------------------------- *)
(*  Shader code fetch                                                         *)
(* -------------------------------------------------------------------------- *)

(** Host pointers (pointers to u8) are addresses; nullptr is address 0. *)
Definition nullptr : Z := 0.

(** The part of Tegra::MemoryManager the cache uses.  [ReadU64 a] is the
    64-bit word stored at GPU virtual address [a]. *)
Record MemoryManager : Type := {
  GetPointer : Z -> Z;
  GpuToCpuAddress : Z -> option Z;
  ReadU64 : Z -> Z
}.

(** memory_manager.ReadBlockUnsafe(gpu_addr, dest, n * sizeof(u64)) *)
Definition ReadBlockUnsafe (memory_manager : MemoryManager) (gpu_addr : Z)
           (n : nat) : ProgramCode :=
  map (fun i => ReadU64 memory_manager (wrap64 (gpu_addr + 8 * Z.of_nat i))) (seq 0 n).

(** std::vector::resize *)
Definition resize (v : ProgramCode) (n : Z) : ProgramCode :=
  firstn (Z.to_nat n) v ++ repeat 0 (Z.to_nat n - length v)%nat.

(** Gets the shader program code from memory for the specified address.
    [MAX_PROGRAM_LENGTH] is VideoCommon::Shader::MAX_PROGRAM_LENGTH, a constant
    declared outside this file; ASSERT_OR_EXECUTE(cond, body) runs [body] when
    [cond] is false. *)
Definition GetShaderCode (MAX_PROGRAM_LENGTH : nat) (memory_manager : MemoryManager)
           (gpu_addr host_ptr : Z) (is_compute : bool) : ProgramCode :=
  let program_code := repeat 0 MAX_PROGRAM_LENGTH in
  if negb (negb (host_ptr =? nullptr)) then
    (* std::fill(program_code.begin(), program_code.end(), 0) *)
    let program_code := map (fun _ => 0) program_code in
    program_code
  else
    let program_code := ReadBlockUnsafe memory_manager gpu_addr (length program_code) in
    resize program_code (CalculateProgramSize program_code is_compute).

(* -------------------------------------------------------------------------- *)
(*  Shader programs, stages and resource manifests                            *)
(* -------------------------------------------------------------------------- *)

(** Maxwell::ShaderProgram, an enum over the six program slots of the GPU,
    kept as its integer values because the source casts to and from indices. *)
Module ShaderProgram.
Definition VertexA : Z := 0.
Definition VertexB : Z := 1.
Definition TesselationControl : Z := 2.
Definition TesselationEval : Z := 3.
Definition Geometry : Z := 4.
Definition Fragment : Z := 5.
End ShaderProgram.

(** Tegra::Engines::ShaderType, likewise. *)
Module ShaderType.
Definition Vertex : Z := 0.
Definition TesselationControl : Z := 1.
Definition TesselationEval : Z := 2.
Definition Geometry : Z := 3.
Definition Fragment : Z := 4.
Definition Compute : Z := 5.
End ShaderType.

Definition MaxShaderProgram : Z := 6.
Definition MaxShaderStage : Z := 5.

Definition GetStageFromProgram (program : Z) : Z :=
  if program =? 0 then 0 else wrap64 (program - 1).

(** The default case logs through UNIMPLEMENTED_MSG and goes on to
    [return ShaderType::Vertex], which is what it gives here. *)
Definition GetShaderType (program : Z) : Z :=
  if program =? ShaderProgram.VertexB then ShaderType.Vertex
  else if program =? ShaderProgram.TesselationControl then ShaderType.TesselationControl
  else if program =? ShaderProgram.TesselationEval then ShaderType.TesselationEval
  else if program =? ShaderProgram.Geometry then ShaderType.Geometry
  else if program =? ShaderProgram.Fragment then ShaderType.Fragment
  else (* UNIMPLEMENTED_MSG("program={}") *) ShaderType.Vertex.

(** The entry classes of the shader decompiler are declared outside this file;
    only the number of entries of each kind and a sampler's [Size()] are read
    here. *)
Record ConstBufferEntry : Type := { cbuf_index : Z }.
Record GlobalBufferEntry : Type := { gmem_cbuf_index : Z; gmem_cbuf_offset : Z }.
Record Sampler : Type := { sampler_index : Z; Size : Z }.
Record ImageEntry : Type := { image_index : Z }.

Record ShaderEntries : Type := {
  const_buffers : list ConstBufferEntry;
  global_buffers : list GlobalBufferEntry;
  texel_buffers : list Sampler;
  samplers : list Sampler;
  images : list ImageEntry
}.

(** Modelled from the spec: ShaderEntries::NumBindings is declared outside this
    file; it is the manifest's total declared-resource count, as a u32. *)
Definition NumBindings (entries : ShaderEntries) : Z :=
  wrap32 (size (const_buffers entries) + size (global_buffers entries) +
          size (texel_buffers entries) + size (samplers entries) +
          size (images entries)).

(* -------------------------------------------------------------------------- *)
(*  Descriptor set layout bindings                                            *)
(* -------------------------------------------------------------------------- *)

Inductive DescriptorType : Type :=
| eUniformBuffer
| eStorageBuffer
| eUniformTexelBuffer
| eCombinedImageSampler
| eStorageImage.

Definition DescriptorType_eqb (a b : DescriptorType) : bool :=
  match a, b with
  | eUniformBuffer, eUniformBuffer
  | eStorageBuffer, eStorageBuffer
  | eUniformTexelBuffer, eUniformTexelBuffer
  | eCombinedImageSampler, eCombinedImageSampler
  | eStorageImage, eStorageImage => true
  | _, _ => false
  end.

(** vk::DescriptorSetLayoutBinding; pImmutableSamplers is always nullptr. *)
Record DescriptorSetLayoutBinding : Type := {
  binding : Z;
  descriptorType : DescriptorType;
  descriptorCount : Z;
  stageFlags : Z
}.

(** The body of the for loop of AddBindings, run over container[0],
    container[1], ... in this order.  [SizeOf] is the element's [Size()]
    member; it is read for combined image samplers only. *)
Fixpoint AddBindings_loop {A : Type} (descriptor_type : DescriptorType)
         (SizeOf : A -> Z) (stage_flags : Z) (items : list A)
         (bindings : list DescriptorSetLayoutBinding) (binding : Z)
  : list DescriptorSetLayoutBinding * Z :=
  match items with
  | [] => (bindings, binding)
  | item :: rest =>
      let count :=
        if DescriptorType_eqb descriptor_type eCombinedImageSampler
        then (* Combined image samplers can be arrayed. *) SizeOf item
        else 1 in
      AddBindings_loop descriptor_type SizeOf stage_flags rest
        (bindings ++ [{| binding := binding; descriptorType := descriptor_type;
                         descriptorCount := count; stageFlags := stage_flags |}])
        (wrap32 (binding + 1))
  end.

Definition AddBindings {A : Type} (descriptor_type : DescriptorType)
           (SizeOf : A -> Z) (bindings : list DescriptorSetLayoutBinding)
           (binding : Z) (stage_flags : Z) (container : list A)
  : list DescriptorSetLayoutBinding * Z :=
  let num_entries := wrap32 (size container) in
  AddBindings_loop descriptor_type SizeOf stage_flags
    (firstn (Z.to_nat num_entries) container) bindings binding.

(** Placeholder for the [Size()] member of the containers whose instantiation
    of the template never reads it. *)
Definition not_arrayed {A : Type} (_ : A) : Z := 1.

(** [ShaderStage] is MaxwellToVK::ShaderStage, declared outside this file.
    Returns the extended vector and the next free binding. *)
Definition FillDescriptorLayout (ShaderStage : Z -> Z) (entries : ShaderEntries)
           (bindings : list DescriptorSetLayoutBinding)
           (program_type : Z) (base_binding : Z)
  : list DescriptorSetLayoutBinding * Z :=
  let stage := GetStageFromProgram program_type in
  let flags := ShaderStage stage in
  let binding := base_binding in
  let '(bindings, binding) :=
    AddBindings eUniformBuffer not_arrayed bindings binding flags (const_buffers entries) in
  let '(bindings, binding) :=
    AddBindings eStorageBuffer not_arrayed bindings binding flags (global_buffers entries) in
  let '(bindings, binding) :=
    AddBindings eUniformTexelBuffer not_arrayed bindings binding flags (texel_buffers entries) in
  let '(bindings, binding) :=
    AddBindings eCombinedImageSampler Size bindings binding flags (samplers entries) in
  let '(bindings, binding) :=
    AddBindings eStorageImage not_arrayed bindings binding flags (images entries) in
  (bindings, binding).

(* -------------------------------------------------------------------------- *)
(*  Descriptor update template entries                                        *)
(* -------------------------------------------------------------------------- *)

(** vk::DescriptorUpdateTemplateEntry *)
Record DescriptorUpdateTemplateEntry : Type := {
  dstBinding : Z;
  dstArrayElement : Z;
  tmplDescriptorCount : Z;
  tmplDescriptorType : DescriptorType;
  offset : Z;
  stride : Z
}.

(** The loop of AddEntry over the declared samplers. *)
Fixpoint AddEntry_samplers {A : Type} (descriptor_type : DescriptorType)
         (SizeOf : A -> Z) (entry_size : Z) (items : list A)
         (template_entries : list DescriptorUpdateTemplateEntry) (binding offset : Z)
  : list DescriptorUpdateTemplateEntry * Z * Z :=
  match items with
  | [] => (template_entries, binding, offset)
  | item :: rest =>
      let num_samplers := SizeOf item in
      AddEntry_samplers descriptor_type SizeOf entry_size rest
        (template_entries ++
           [{| dstBinding := binding; dstArrayElement := 0;
               tmplDescriptorCount := num_samplers;
               tmplDescriptorType := descriptor_type;
               offset := offset; stride := entry_size |}])
        (wrap32 (binding + 1))
        (wrap32 (offset + wrap32 (num_samplers * entry_size)))
  end.

(** The loop of AddEntry over the texel buffers: [todo] iterations remain and
    [i] is the loop counter. *)
Fixpoint AddEntry_texels (descriptor_type : DescriptorType) (entry_size : Z)
         (todo : nat) (i : Z)
         (template_entries : list DescriptorUpdateTemplateEntry) (binding offset : Z)
  : list DescriptorUpdateTemplateEntry :=
  match todo with
  | O => template_entries
  | S todo' =>
      AddEntry_texels descriptor_type entry_size todo' (wrap32 (i + 1))
        (template_entries ++
           [{| dstBinding := wrap32 (binding + i); dstArrayElement := 0;
               tmplDescriptorCount := 1;
               tmplDescriptorType := descriptor_type;
               offset := wrap32 (offset + wrap32 (i * entry_size));
               stride := entry_size |}])
        binding offset
  end.

(** AddEntry<descriptor_type>(template_entries, binding, offset, container):
    returns the extended vector and the new values of the two references, in
    the order of the parameters.  [entry_size] is
    sizeof(DescriptorUpdateEntry), a constant declared outside this file. *)
Definition AddEntry {A : Type} (descriptor_type : DescriptorType)
           (SizeOf : A -> Z) (entry_size : Z)
           (template_entries : list DescriptorUpdateTemplateEntry)
           (binding offset : Z) (container : list A)
  : list DescriptorUpdateTemplateEntry * Z * Z :=
  let count := wrap32 (size container) in
  if DescriptorType_eqb descriptor_type eCombinedImageSampler then
    AddEntry_samplers descriptor_type SizeOf entry_size
      (firstn (Z.to_nat count) container) template_entries binding offset
  else
    let template_entries :=
      if DescriptorType_eqb descriptor_type eUniformTexelBuffer then
        (* Nvidia has a bug where updating multiple uniform texels at once
           causes the driver to crash. *)
        AddEntry_texels descriptor_type entry_size (Z.to_nat count) 0
          template_entries binding offset
      else if 0 <? count then
        template_entries ++
          [{| dstBinding := binding; dstArrayElement := 0;
              tmplDescriptorCount := count;
              tmplDescriptorType := descriptor_type;
              offset := offset; stride := entry_size |}]
      else template_entries in
    let offset := wrap32 (offset + wrap32 (count * entry_size)) in
    let binding := wrap32 (binding + count) in
    (template_entries, binding, offset).

(** FillDescriptorUpdateTemplateEntries(entries, binding, offset,
    template_entries).  Each call passes [offset] for AddEntry's [binding]
    reference and [binding] for its [offset] reference, as the source does;
    the result is the new [binding], the new [offset] and the extended
    vector. *)
Definition FillDescriptorUpdateTemplateEntries (entry_size : Z)
           (entries : ShaderEntries) (binding offset : Z)
           (template_entries : list DescriptorUpdateTemplateEntry)
  : Z * Z * list DescriptorUpdateTemplateEntry :=
  let '(template_entries, offset, binding) :=
    AddEntry eUniformBuffer not_arrayed entry_size template_entries
             offset binding (const_buffers entries) in
  let '(template_entries, offset, binding) :=
    AddEntry eStorageBuffer not_arrayed entry_size template_entries
             offset binding (global_buffers entries) in
  let '(template_entries, offset, binding) :=
    AddEntry eUniformTexelBuffer not_arrayed entry_size template_entries
             offset binding (texel_buffers entries) in
  let '(template_entries, offset, binding) :=
    AddEntry eCombinedImageSampler Size entry_size template_entries
             offset binding (samplers entries) in
  let '(template_entries, offset, binding) :=
    AddEntry eStorageImage not_arrayed entry_size template_entries
             offset binding (images entries) in
  (binding, offset, template_entries).

(* -------------------------------------------------------------------------- *)
(*  Pipeline keys, shaders and pipelines                                      *)
(* -------------------------------------------------------------------------- *)

(** FixedPipelineState is declared outside this file.  The fields read by
    DecompileShaders are kept apart; the rest of the state is an opaque blob.
    [point_size] holds the bit pattern of the float. *)
Record FixedPipelineState : Type := {
  topology : Z;
  point_size : Z;
  attribute_types : list Z;
  ndc_minus_one_to_one : bool;
  other_state : list Z
}.

(** Maxwell::PrimitiveTopology::Points *)
Definition PrimitiveTopology_Points : Z := 0.

(** x != 0.0f on the bit pattern of a float: only +0 and -0 compare equal to
    zero. *)
Definition float_nonzero (bits : Z) : bool :=
  negb ((bits =? 0) || (bits =? 0x80000000)).

(** GraphicsPipelineCacheKey: one GPU address per program slot and the fixed
    state, compared by value. *)
Record GraphicsPipelineCacheKey : Type := {
  fixed_state : FixedPipelineState;
  shaders : list Z
}.

Record ComputePipelineCacheKey : Type := {
  shader : Z;
  shared_memory_size : Z;
  workgroup_size : Z * Z * Z
}.

Fixpoint list_eqb (a b : list Z) : bool :=
  match a, b with
  | [], [] => true
  | x :: a', y :: b' => (x =? y) && list_eqb a' b'
  | _, _ => false
  end.

Definition FixedPipelineState_eqb (a b : FixedPipelineState) : bool :=
  (topology a =? topology b) && (point_size a =? point_size b) &&
  list_eqb (attribute_types a) (attribute_types b) &&
  Bool.eqb (ndc_minus_one_to_one a) (ndc_minus_one_to_one b) &&
  list_eqb (other_state a) (other_state b).

(** operator== of the graphics key *)
Definition GraphicsKey_eqb (a b : GraphicsPipelineCacheKey) : bool :=
  FixedPipelineState_eqb (fixed_state a) (fixed_state b) &&
  list_eqb (shaders a) (shaders b).

(** operator== of the compute key *)
Definition ComputeKey_eqb (a b : ComputePipelineCacheKey) : bool :=
  (shader a =? shader b) && (shared_memory_size a =? shared_memory_size b) &&
  (let '(ax, ay, az) := workgroup_size a in
   let '(bx, b_y, bz) := workgroup_size b in
   (ax =? bx) && (ay =? b_y) && (az =? bz)).

Record Specialization : Type := {
  base_binding : Z;
  spec_workgroup_size : Z * Z * Z;
  spec_shared_memory_size : Z;
  spec_point_size : option Z;
  spec_attribute_types : list Z;
  spec_ndc_minus_one_to_one : bool
}.

Definition default_Specialization : Specialization :=
  {| base_binding := 0; spec_workgroup_size := (0, 0, 0);
     spec_shared_memory_size := 0; spec_point_size := None;
     spec_attribute_types := []; spec_ndc_minus_one_to_one := false |}.

(** VideoCommon::Shader::ShaderIR is built by a translator outside this file;
    the object is identified by the arguments of its constructor: the code,
    the main offset and the stage of the registry. *)
Record ShaderIR : Type := {
  ir_code : ProgramCode;
  ir_main_offset : Z;
  ir_stage : Z
}.

(** CachedShader.  [shader_id] is the identity of the heap object behind the
    shared pointer. *)
Record CachedShader : Type := {
  shader_id : nat;
  host_ptr : Z;
  gpu_addr : Z;
  cpu_addr : Z;
  shader_ir : ShaderIR;
  entries : ShaderEntries
}.

Record SPIRVShader : Type := {
  code : list Z;
  spirv_entries : ShaderEntries
}.

(** SPIRVProgram: one optional shader per stage. *)
Definition SPIRVProgram : Type := list (option SPIRVShader).

(** The pipeline objects are built outside this file from the arguments
    recorded here; [gp_id] and [cp_id] are the identities of the heap objects
    owned by the cache entries. *)
Record VKGraphicsPipeline : Type := {
  gp_id : nat;
  gp_key : GraphicsPipelineCacheKey;
  gp_bindings : list DescriptorSetLayoutBinding;
  gp_program : SPIRVProgram
}.

Record VKComputePipeline : Type := {
  cp_id : nat;
  cp_shader : SPIRVShader
}.

(* -------------------------------------------------------------------------- *)
(*  The system around the cache                                               *)
(* -------------------------------------------------------------------------- *)

(** The GPU registers, the memory manager and the collaborators the cache
    calls, all declared outside this file. *)
Record System : Type := {
  IsShaderConfigEnabled : Z -> bool;
  code_address : Z;
  shader_config_offset : Z -> Z;
  memory_manager : MemoryManager;
  MAX_PROGRAM_LENGTH : nat;
  ShaderStage : Z -> Z;
  GenerateShaderEntries : ShaderIR -> ShaderEntries;
  Decompile : ShaderIR -> Z -> Specialization -> list Z
}.

(** Gets the address for the specified shader stage program *)
Definition GetShaderAddress (system : System) (program : Z) : Z :=
  wrap64 (code_address system + shader_config_offset system program).

(* -------------------------------------------------------------------------- *)
(*  The cache object and its monad                                            *)
(* -------------------------------------------------------------------------- *)

(** What the cache does to the world around it. *)
Inductive Event : Type :=
| EvTranslate (host : Z) (id : nat)      (* a CachedShader is constructed *)
| EvRegister (host : Z) (id : nat)       (* RasterizerCache::Register *)
| EvCompileGraphics (key : GraphicsPipelineCacheKey) (id : nat)
| EvCompileCompute (key : ComputePipelineCacheKey) (id : nat)
| EvFinish                               (* scheduler.Finish() *)
| EvEraseGraphics (key : GraphicsPipelineCacheKey) (id : nat)
| EvEraseCompute (key : ComputePipelineCacheKey) (id : nat)
| EvUnregister (host : Z) (id : nat).    (* RasterizerCache::Unregister *)

(** VKPipelineCache.  The unordered maps are association lists without
    duplicate keys, iterated from the head; [last_graphics_pipeline] is a raw
    pointer, here the identity of the pipeline object it points to, [None]
    being nullptr. *)
Record VKPipelineCache : Type := {
  map_cache : list (Z * CachedShader);
  graphics_cache : list (GraphicsPipelineCacheKey * VKGraphicsPipeline);
  compute_cache : list (ComputePipelineCacheKey * VKComputePipeline);
  last_graphics_pipeline : option nat;
  last_graphics_key : GraphicsPipelineCacheKey;
  last_shaders : list (option CachedShader);
  next_object : nat;
  trace : list Event
}.

Definition empty_key : GraphicsPipelineCacheKey :=
  {| fixed_state := {| topology := 0; point_size := 0; attribute_types := [];
                       ndc_minus_one_to_one := false; other_state := [] |};
     shaders := [] |}.

(** The cache after its constructor. *)
Definition new_cache : VKPipelineCache :=
  {| map_cache := []; graphics_cache := []; compute_cache := [];
     last_graphics_pipeline := None; last_graphics_key := empty_key;
     last_shaders := repeat None 6; next_object := 0; trace := [] |}.

(** A member function: runs on the cache and either aborts (failed ASSERT)
    or returns a value and the new cache. *)
Definition M (A : Type) : Type := VKPipelineCache -> option (A * VKPipelineCache).

Definition ret {A : Type} (a : A) : M A := fun s => Some (a, s).

Definition bind {A B : Type} (m : M A) (k : A -> M B) : M B :=
  fun s => match m s with
           | Some (a, s') => k a s'
           | None => None
           end.

Notation "x <- m ;; k" := (bind m (fun x => k))
  (at level 61, m at next level, right associativity).
Notation "m ;;; k" := (bind m (fun _ => k))
  (at level 61, right associativity).
Notation "' pat <- m ;; k" := (bind m (fun x => match x with pat => k end))
  (at level 61, pat pattern, m at next level, right associativity).

Definition abort {A : Type} : M A := fun _ => None.

(** Modelled from the spec: the macros ASSERT, ASSERT_OR_EXECUTE and
    UNIMPLEMENTED_MSG are declared outside this file.  The spec makes a
    violated precondition (an unmapped address, a missing registry entry, a
    zero point size with a points topology) fatal, an immediate abort of the
    current cache operation: a failed ASSERT(cond) aborts the member function.
    The other two macros are followed in the source by the code that runs
    after a failed check, and are modelled as running that code: the body of
    ASSERT_OR_EXECUTE in GetShaderCode, which the spec describes (the buffer
    is zero-filled if the backing pointer is null), and the return after
    UNIMPLEMENTED_MSG in GetShaderType. *)
Definition ASSERT (cond : bool) : M unit := if cond then ret tt else abort.

Definition emit (e : Event) : M unit :=
  fun s => Some (tt, {| map_cache := map_cache s; graphics_cache := graphics_cache s;
                        compute_cache := compute_cache s;
                        last_graphics_pipeline := last_graphics_pipeline s;
                        last_graphics_key := last_graphics_key s;
                        last_shaders := last_shaders s;
                        next_object := next_object s;
                        trace := trace s ++ [e] |}).

(** operator new: a fresh object identity. *)
Definition allocate : M nat :=
  fun s => Some (next_object s,
                 {| map_cache := map_cache s; graphics_cache := graphics_cache s;
                    compute_cache := compute_cache s;
                    last_graphics_pipeline := last_graphics_pipeline s;
                    last_graphics_key := last_graphics_key s;
                    last_shaders := last_shaders s;
                    next_object := S (next_object s);
                    trace := trace s |}).

Definition set_map_cache (m : list (Z * CachedShader)) : M unit :=
  fun s => Some (tt, {| map_cache := m; graphics_cache := graphics_cache s;
                        compute_cache := compute_cache s;
                        last_graphics_pipeline := last_graphics_pipeline s;
                        last_graphics_key := last_graphics_key s;
                        last_shaders := last_shaders s;
                        next_object := next_object s;
                        trace := trace s |}).

Definition set_graphics_cache (m : list (GraphicsPipelineCacheKey * VKGraphicsPipeline))
  : M unit :=
  fun s => Some (tt, {| map_cache := map_cache s; graphics_cache := m;
                        compute_cache := compute_cache s;
                        last_graphics_pipeline := last_graphics_pipeline s;
                        last_graphics_key := last_graphics_key s;
                        last_shaders := last_shaders s;
                        next_object := next_object s;
                        trace := trace s |}).

Definition set_compute_cache (m : list (ComputePipelineCacheKey * VKComputePipeline))
  : M unit :=
  fun s => Some (tt, {| map_cache := map_cache s; graphics_cache := graphics_cache s;
                        compute_cache := m;
                        last_graphics_pipeline := last_graphics_pipeline s;
                        last_graphics_key := last_graphics_key s;
                        last_shaders := last_shaders s;
                        next_object := next_object s;
                        trace := trace s |}).

Definition set_last_graphics_pipeline (p : option nat) : M unit :=
  fun s => Some (tt, {| map_cache := map_cache s; graphics_cache := graphics_cache s;
                        compute_cache := compute_cache s;
                        last_graphics_pipeline := p;
                        last_graphics_key := last_graphics_key s;
                        last_shaders := last_shaders s;
                        next_object := next_object s;
                        trace := trace s |}).

Definition set_last_graphics_key (k : GraphicsPipelineCacheKey) : M unit :=
  fun s => Some (tt, {| map_cache := map_cache s; graphics_cache := graphics_cache s;
                        compute_cache := compute_cache s;
                        last_graphics_pipeline := last_graphics_pipeline s;
                        last_graphics_key := k;
                        last_shaders := last_shaders s;
                        next_object := next_object s;
                        trace := trace s |}).

Definition set_last_shaders (v : list (option CachedShader)) : M unit :=
  fun s => Some (tt, {| map_cache := map_cache s; graphics_cache := graphics_cache s;
                        compute_cache := compute_cache s;
                        last_graphics_pipeline := last_graphics_pipeline s;
                        last_graphics_key := last_graphics_key s;
                        last_shaders := v;
                        next_object := next_object s;
                        trace := trace s |}).

Definition read {A : Type} (field : VKPipelineCache -> A) : M A :=
  fun s => Some (field s, s).

(** Lookup in an unordered map. *)
Fixpoint find_key {K V : Type} (eqb : K -> K -> bool) (k : K) (m : list (K * V))
  : option V :=
  match m with
  | [] => None
  | (k', v) :: rest => if eqb k' k then Some v else find_key eqb k rest
  end.

(** Removal of a key from an unordered map. *)
Definition erase_key {K V : Type} (eqb : K -> K -> bool) (k : K) (m : list (K * V))
  : list (K * V) :=
  filter (fun kv => negb (eqb (fst kv) k)) m.

(** array[index] = value *)
Fixpoint array_set {A : Type} (a : list A) (index : nat) (value : A) : list A :=
  match a, index with
  | [], _ => []
  | _ :: rest, O => value :: rest
  | x :: rest, S i => x :: array_set rest i value
  end.

(* -------------------------------------------------------------------------- *)
(*  The shader registry (RasterizerCache)                                     *)
(* -------------------------------------------------------------------------- *)

(** Modelled from the spec: RasterizerCache::TryGet is declared outside this
    file; it looks the backing pointer up in the registry and returns the
    existing unit on a hit, a null shader otherwise. *)
Definition TryGet (host : Z) : M (option CachedShader) :=
  fun s => Some (find_key Z.eqb host (map_cache s), s).

(** Modelled from the spec: RasterizerCache::Register is declared outside this
    file; it registers the unit keyed by its backing pointer. *)
Definition Register (object : CachedShader) : M unit :=
  m <- read map_cache ;;
  set_map_cache ((host_ptr object, object) :: m) ;;;
  emit (EvRegister (host_ptr object) (shader_id object)).

(** Modelled from the spec: RasterizerCache::Unregister is declared outside
    this file; it removes the unit from the registry. *)
Definition RasterizerCache_Unregister (object : CachedShader) : M unit :=
  m <- read map_cache ;;
  set_map_cache (erase_key Z.eqb (host_ptr object) m) ;;;
  emit (EvUnregister (host_ptr object) (shader_id object)).

(** std::make_shared<CachedShader>(system, stage, gpu_addr, cpu_addr, host_ptr,
    program_code, main_offset).  The translator behind ShaderIR and
    GenerateShaderEntries are collaborators declared outside this file and are
    taken as total functions, as are Decompile and the constructors of the
    pipeline objects in GetGraphicsPipeline and GetComputePipeline: a
    translation, generation or construction that fails, which the spec makes
    fatal, has no path in this model. *)
Definition make_CachedShader (system : System) (stage gpu_addr cpu_addr host_ptr : Z)
           (program_code : ProgramCode) (main_offset : Z) : M CachedShader :=
  id <- allocate ;;
  emit (EvTranslate host_ptr id) ;;;
  let shader_ir := {| ir_code := program_code; ir_main_offset := main_offset;
                      ir_stage := stage |} in
  ret {| shader_id := id; host_ptr := host_ptr; gpu_addr := gpu_addr;
         cpu_addr := cpu_addr; shader_ir := shader_ir;
         entries := GenerateShaderEntries system shader_ir |}.

(* -------------------------------------------------------------------------- *)
(*  VKPipelineCache::GetShaders                                               *)
(* -------------------------------------------------------------------------- *)

(** One iteration of the loop of GetShaders. *)
Definition GetShaders_body (system : System) (index : Z)
           (shaders : list (option CachedShader)) : M (list (option CachedShader)) :=
  let program := index in
  (* Skip stages that are not enabled *)
  if negb (IsShaderConfigEnabled system index) then ret shaders
  else
    let memory_manager := memory_manager system in
    let program_addr := GetShaderAddress system program in
    let host_ptr := GetPointer memory_manager program_addr in
    shader <- TryGet host_ptr ;;
    shader <- match shader with
              | Some shader => ret shader
              | None =>
                  (* No shader found - create a new one *)
                  let stage_offset := 10 in
                  let stage := if index =? 0 then 0 else index - 1 in
                  let code := GetShaderCode (MAX_PROGRAM_LENGTH system) memory_manager
                                            program_addr host_ptr false in
                  let cpu_addr := GpuToCpuAddress memory_manager program_addr in
                  match cpu_addr with
                  | None => (* ASSERT(cpu_addr) *) abort
                  | Some cpu_addr =>
                      shader <- make_CachedShader system stage program_addr cpu_addr
                                                  host_ptr code stage_offset ;;
                      Register shader ;;;
                      ret shader
                  end
              end ;;
    ret (array_set shaders (Z.to_nat index) (Some shader)).

(** for (index = 0; index < MaxShaderProgram; ++index) over the indices still
    to visit. *)
Fixpoint GetShaders_loop (system : System) (indices : list Z)
         (shaders : list (option CachedShader)) : M (list (option CachedShader)) :=
  match indices with
  | [] => ret shaders
  | index :: rest =>
      shaders <- GetShaders_body system index shaders ;;
      GetShaders_loop system rest shaders
  end.

Definition program_indices : list Z := [0; 1; 2; 3; 4; 5].

Definition GetShaders (system : System) : M (list (option CachedShader)) :=
  let shaders := repeat None (Z.to_nat MaxShaderProgram) in
  shaders <- GetShaders_loop system program_indices shaders ;;
  set_last_shaders shaders ;;;
  ret shaders.

(* -------------------------------------------------------------------------- *)
(*  VKPipelineCache::DecompileShaders                                         *)
(* -------------------------------------------------------------------------- *)

Definition with_base_binding (specialization : Specialization) (b : Z) : Specialization :=
  {| base_binding := b;
     spec_workgroup_size := spec_workgroup_size specialization;
     spec_shared_memory_size := spec_shared_memory_size specialization;
     spec_point_size := spec_point_size specialization;
     spec_attribute_types := spec_attribute_types specialization;
     spec_ndc_minus_one_to_one := spec_ndc_minus_one_to_one specialization |}.

(** The state of the loop of DecompileShaders. *)
Record DecompileState : Type := {
  ds_program : SPIRVProgram;
  ds_bindings : list DescriptorSetLayoutBinding;
  ds_specialization : Specialization
}.

(** The loop of DecompileShaders from [index] on.  The body advances [index]
    itself after a VertexA program, so the loop is driven by [fuel]; six
    iterations always suffice. *)
Fixpoint DecompileShaders_loop (fuel : nat) (system : System) (index : Z)
         (st : DecompileState) : M DecompileState :=
  match fuel with
  | O => ret st
  | S fuel' =>
      if index <? MaxShaderProgram then
        let program_enum := index in
        (* Skip stages that are not enabled *)
        if negb (IsShaderConfigEnabled system index) then
          DecompileShaders_loop fuel' system (index + 1) st
        else
          let gpu_addr := GetShaderAddress system program_enum in
          let host_ptr := GetPointer (memory_manager system) gpu_addr in
          shader <- TryGet host_ptr ;;
          match shader with
          | None => (* ASSERT(shader) *) abort
          | Some shader =>
              let stage := if index =? 0 then 0 else index - 1 in
              let program_type := GetShaderType program_enum in
              let entries := entries shader in
              let specialization := ds_specialization st in
              let program :=
                array_set (ds_program st) (Z.to_nat stage)
                  (Some {| code := Decompile system (shader_ir shader) program_type
                                             specialization;
                           spirv_entries := entries |}) in
              let index :=
                if program_enum =? ShaderProgram.VertexA then
                  (* VertexB was combined with VertexA, so we skip the VertexB
                     iteration *)
                  index + 1
                else index in
              let old_binding := base_binding specialization in
              let '(bindings, new_binding) :=
                FillDescriptorLayout (ShaderStage system) entries (ds_bindings st)
                                     program_enum (base_binding specialization) in
              let specialization := with_base_binding specialization new_binding in
              ASSERT (wrap32 (old_binding + NumBindings entries)
                      =? base_binding specialization) ;;;
              DecompileShaders_loop fuel' system (index + 1)
                {| ds_program := program; ds_bindings := bindings;
                   ds_specialization := specialization |}
          end
      else ret st
  end.

Definition NumVertexAttributes : nat := 32.

Definition DecompileShaders (system : System) (key : GraphicsPipelineCacheKey)
  : M (SPIRVProgram * list DescriptorSetLayoutBinding) :=
  let fixed_state := fixed_state key in
  let specialization := default_Specialization in
  specialization <-
    (if topology fixed_state =? PrimitiveTopology_Points then
       ASSERT (float_nonzero (point_size fixed_state)) ;;;
       ret {| base_binding := base_binding specialization;
              spec_workgroup_size := spec_workgroup_size specialization;
              spec_shared_memory_size := spec_shared_memory_size specialization;
              spec_point_size := Some (point_size fixed_state);
              spec_attribute_types := spec_attribute_types specialization;
              spec_ndc_minus_one_to_one := spec_ndc_minus_one_to_one specialization |}
     else ret specialization) ;;
  let specialization :=
    {| base_binding := base_binding specialization;
       spec_workgroup_size := spec_workgroup_size specialization;
       spec_shared_memory_size := spec_shared_memory_size specialization;
       spec_point_size := spec_point_size specialization;
       spec_attribute_types := firstn NumVertexAttributes (attribute_types fixed_state);
       spec_ndc_minus_one_to_one := ndc_minus_one_to_one fixed_state |} in
  st <- DecompileShaders_loop (Z.to_nat MaxShaderProgram) system 0
          {| ds_program := repeat None (Z.to_nat MaxShaderStage);
             ds_bindings := [];
             ds_specialization := specialization |} ;;
  ret (ds_program st, ds_bindings st).

(* -------------------------------------------------------------------------- *)
(*  VKPipelineCache::GetGraphicsPipeline / GetComputePipeline                 *)
(* -------------------------------------------------------------------------- *)

(** The function returns a reference to a pipeline object: here the identity
    of that object.  try_emplace followed by the assignment of the entry is
    one insertion: between the two the function only reads the registry, and
    a failed ASSERT aborts it. *)
Definition GetGraphicsPipeline (system : System) (key : GraphicsPipelineCacheKey)
  : M nat :=
  last_pipeline <- read last_graphics_pipeline ;;
  last_key <- read last_graphics_key ;;
  match last_pipeline, GraphicsKey_eqb last_key key with
  | Some pipeline, true => ret pipeline
  | _, _ =>
      set_last_graphics_key key ;;;
      cache <- read graphics_cache ;;
      match find_key GraphicsKey_eqb key cache with
      | Some entry =>
          set_last_graphics_pipeline (Some (gp_id entry)) ;;;
          ret (gp_id entry)
      | None =>
          (* is_cache_miss *)
          ' (program, bindings) <- DecompileShaders system key ;;
          id <- allocate ;;
          emit (EvCompileGraphics key id) ;;;
          let entry := {| gp_id := id; gp_key := key; gp_bindings := bindings;
                          gp_program := program |} in
          set_graphics_cache ((key, entry) :: cache) ;;;
          set_last_graphics_pipeline (Some (gp_id entry)) ;;;
          ret (gp_id entry)
      end
  end.

Definition GetComputePipeline (system : System) (key : ComputePipelineCacheKey)
  : M nat :=
  cache <- read compute_cache ;;
  match find_key ComputeKey_eqb key cache with
  | Some entry => ret (cp_id entry)
  | None =>
      (* is_cache_miss *)
      let memory_manager := memory_manager system in
      let program_addr := shader key in
      let host_ptr := GetPointer memory_manager program_addr in
      shader <- TryGet host_ptr ;;
      shader <- match shader with
                | Some shader => ret shader
                | None =>
                    (* No shader found - create a new one *)
                    let cpu_addr := GpuToCpuAddress memory_manager program_addr in
                    match cpu_addr with
                    | None => (* ASSERT(cpu_addr) *) abort
                    | Some cpu_addr =>
                        let code := GetShaderCode (MAX_PROGRAM_LENGTH system) memory_manager
                                                  program_addr host_ptr true in
                        let kernel_main_offset := 0 in
                        shader <- make_CachedShader system ShaderType.Compute program_addr
                                                    cpu_addr host_ptr code
                                                    kernel_main_offset ;;
                        Register shader ;;;
                        ret shader
                    end
                end ;;
      let specialization :=
        {| base_binding := base_binding default_Specialization;
           spec_workgroup_size := workgroup_size key;
           spec_shared_memory_size := shared_memory_size key;
           spec_point_size := spec_point_size default_Specialization;
           spec_attribute_types := spec_attribute_types default_Specialization;
           spec_ndc_minus_one_to_one :=
             spec_ndc_minus_one_to_one default_Specialization |} in
      let spirv_shader :=
        {| code := Decompile system (shader_ir shader) ShaderType.Compute specialization;
           spirv_entries := entries shader |} in
      id <- allocate ;;
      emit (EvCompileCompute key id) ;;;
      let entry := {| cp_id := id; cp_shader := spirv_shader |} in
      set_compute_cache ((key, entry) :: cache) ;;;
      ret (cp_id entry)
  end.

(* -------------------------------------------------------------------------- *)
(*  VKPipelineCache::Unregister                                               *)
(* -------------------------------------------------------------------------- *)

(** The lambda Finish of Unregister; [finished] is the captured flag, passed in
    and returned. *)
Definition Finish (finished : bool) : M bool :=
  if finished then ret finished
  else
    let finished := true in
    emit EvFinish ;;;
    ret finished.

(** The loop over graphics_cache: [todo] are the entries from the iterator to
    the end; the result is what is left of them, and the flag. *)
Fixpoint Unregister_graphics (invalidated_addr : Z)
         (todo : list (GraphicsPipelineCacheKey * VKGraphicsPipeline))
         (finished : bool)
  : M (list (GraphicsPipelineCacheKey * VKGraphicsPipeline) * bool) :=
  match todo with
  | [] => ret ([], finished)
  | (entry, pipeline) :: rest =>
      if negb (existsb (Z.eqb invalidated_addr) (shaders entry)) then
        (* std::find(...) == entry.shaders.end(): ++it; continue *)
        ' (kept, finished) <- Unregister_graphics invalidated_addr rest finished ;;
        ret ((entry, pipeline) :: kept, finished)
      else
        finished <- Finish finished ;;
        emit (EvEraseGraphics entry (gp_id pipeline)) ;;;
        Unregister_graphics invalidated_addr rest finished
  end.

Fixpoint Unregister_compute (invalidated_addr : Z)
         (todo : list (ComputePipelineCacheKey * VKComputePipeline))
         (finished : bool)
  : M (list (ComputePipelineCacheKey * VKComputePipeline) * bool) :=
  match todo with
  | [] => ret ([], finished)
  | (entry, pipeline) :: rest =>
      if negb (shader entry =? invalidated_addr) then
        ' (kept, finished) <- Unregister_compute invalidated_addr rest finished ;;
        ret ((entry, pipeline) :: kept, finished)
      else
        finished <- Finish finished ;;
        emit (EvEraseCompute entry (cp_id pipeline)) ;;;
        Unregister_compute invalidated_addr rest finished
  end.

(** Each loop runs over the entries of its map and the map is assigned what
    the loop kept; nothing reads the map while the loop runs. *)
Definition Unregister (shader : CachedShader) : M unit :=
  let finished := false in
  let invalidated_addr := gpu_addr shader in
  cache <- read graphics_cache ;;
  ' (kept, finished) <- Unregister_graphics invalidated_addr cache finished ;;
  set_graphics_cache kept ;;;
  cache <- read compute_cache ;;
  ' (kept, finished) <- Unregister_compute invalidated_addr cache finished ;;
  set_compute_cache kept ;;;
  RasterizerCache_Unregister shader.

(* ========================================================================== *)
(*  Specification vocabulary                                                   *)
(*                                                                            *)
(*  The predicates and reference functions the properties below are stated     *)
(*  with.  None of them is used by the embedding above.                        *)
(* ========================================================================== *)

(** A word ends the program when, with bit 23 masked out, it is the
    self-jumping branch, or when it is zero. *)
Definition is_terminator (w : Z) : bool :=
  (Z.land w mask =? self_jumping_branch) || (w =? 0).

(** Index [i] is not one of the scheduler slots start, start+4, start+8, ... *)
Definition checked (start_offset i : Z) : Prop := (i - start_offset) mod 4 <> 0.

(** [p] is the first checked index at or after [start_offset] holding a
    terminator. *)
Definition first_terminator (program : ProgramCode) (start_offset p : Z) : Prop :=
  start_offset <= p < size program /\
  checked start_offset p /\
  is_terminator (word_at program p) = true /\
  forall i, start_offset <= i < p -> checked start_offset i ->
            is_terminator (word_at program i) = false.

Definition start_of (is_compute : bool) : Z := if is_compute then 0 else 10.

(** The declared resources of a manifest in the order of the layout, each with
    the element count of its binding slot: a combined image sampler carries
    its array size, every other resource one element. *)
Definition declared_resources (entries : ShaderEntries) : list (DescriptorType * Z) :=
  map (fun _ => (eUniformBuffer, 1)) (const_buffers entries) ++
  map (fun _ => (eStorageBuffer, 1)) (global_buffers entries) ++
  map (fun _ => (eUniformTexelBuffer, 1)) (texel_buffers entries) ++
  map (fun s => (eCombinedImageSampler, Size s)) (samplers entries) ++
  map (fun _ => (eStorageImage, 1)) (images entries).

(** One binding slot per resource, numbered upwards from [base]. *)
Fixpoint number_bindings (flags : Z) (base : Z) (resources : list (DescriptorType * Z))
  : list DescriptorSetLayoutBinding :=
  match resources with
  | [] => []
  | (type, count) :: rest =>
      {| binding := base; descriptorType := type; descriptorCount := count;
         stageFlags := flags |} :: number_bindings flags (base + 1) rest
  end.

Definition total_resources (entries : ShaderEntries) : Z :=
  size (const_buffers entries) + size (global_buffers entries) +
  size (texel_buffers entries) + size (samplers entries) + size (images entries).

Definition slot_count {A : Type} (descriptor_type : DescriptorType)
           (SizeOf : A -> Z) (item : A) : Z :=
  if DescriptorType_eqb descriptor_type eCombinedImageSampler then SizeOf item else 1.

(** The entries AddEntry is meant to produce for one container, with
    [first_binding] the binding index of the container's first resource and
    [byte_offset] the byte offset of its first element. *)
Definition template_group (descriptor_type : DescriptorType) (entry_size count : Z)
           (first_binding byte_offset : Z) : list DescriptorUpdateTemplateEntry :=
  if 0 <? count then
    [{| dstBinding := first_binding; dstArrayElement := 0;
        tmplDescriptorCount := count; tmplDescriptorType := descriptor_type;
        offset := byte_offset; stride := entry_size |}]
  else [].

Definition template_texels (entry_size : Z) (count : nat)
           (first_binding byte_offset : Z) : list DescriptorUpdateTemplateEntry :=
  map (fun i =>
         {| dstBinding := first_binding + Z.of_nat i; dstArrayElement := 0;
            tmplDescriptorCount := 1; tmplDescriptorType := eUniformTexelBuffer;
            offset := byte_offset + Z.of_nat i * entry_size; stride := entry_size |})
      (seq 0 count).

Fixpoint template_samplers (entry_size : Z) (items : list Sampler)
         (first_binding byte_offset : Z) : list DescriptorUpdateTemplateEntry :=
  match items with
  | [] => []
  | s :: rest =>
      {| dstBinding := first_binding; dstArrayElement := 0;
         tmplDescriptorCount := Size s; tmplDescriptorType := eCombinedImageSampler;
         offset := byte_offset; stride := entry_size |}
      :: template_samplers entry_size rest (first_binding + 1)
                           (byte_offset + Size s * entry_size)
  end.

(** Number of array elements of a list of samplers. *)
Definition sampler_elements (items : list Sampler) : Z :=
  fold_right (fun s acc => Size s + acc) 0 items.

(** Number of elements a manifest binds: one per resource, and the array size
    for each combined image sampler. *)
Definition total_elements (entries : ShaderEntries) : Z :=
  size (const_buffers entries) + size (global_buffers entries) +
  size (texel_buffers entries) + sampler_elements (samplers entries) +
  size (images entries).

(** The template of a manifest whose first resource has binding index
    [first_binding] and whose first element lies at [byte_offset]. *)
Definition template_of (entry_size : Z) (entries : ShaderEntries)
           (first_binding byte_offset : Z) : list DescriptorUpdateTemplateEntry :=
  let n1 := size (const_buffers entries) in
  let n2 := size (global_buffers entries) in
  let n3 := size (texel_buffers entries) in
  let n4 := size (samplers entries) in
  let e4 := sampler_elements (samplers entries) in
  let n5 := size (images entries) in
  template_group eUniformBuffer entry_size n1 first_binding byte_offset ++
  template_group eStorageBuffer entry_size n2
    (first_binding + n1) (byte_offset + n1 * entry_size) ++
  template_texels entry_size (length (texel_buffers entries))
    (first_binding + n1 + n2) (byte_offset + n1 * entry_size + n2 * entry_size) ++
  template_samplers entry_size (samplers entries)
    (first_binding + n1 + n2 + n3)
    (byte_offset + n1 * entry_size + n2 * entry_size + n3 * entry_size) ++
  template_group eStorageImage entry_size n5
    (first_binding + n1 + n2 + n3 + n4)
    (byte_offset + n1 * entry_size + n2 * entry_size + n3 * entry_size
     + e4 * entry_size).

Definition sizes_nonneg (items : list Sampler) : Prop :=
  Forall (fun s => 0 <= Size s) items.

(** The cache with [evs] appended to its trace. *)
Definition add_trace (s : VKPipelineCache) (evs : list Event) : VKPipelineCache :=
  {| map_cache := map_cache s; graphics_cache := graphics_cache s;
     compute_cache := compute_cache s;
     last_graphics_pipeline := last_graphics_pipeline s;
     last_graphics_key := last_graphics_key s;
     last_shaders := last_shaders s;
     next_object := next_object s;
     trace := trace s ++ evs |}.

(** The key references the invalidated address in some stage slot. *)
Definition references (addr : Z) (key : GraphicsPipelineCacheKey) : bool :=
  existsb (Z.eqb addr) (shaders key).

Definition removed_graphics (addr : Z)
           (cache : list (GraphicsPipelineCacheKey * VKGraphicsPipeline)) :=
  filter (fun kv => references addr (fst kv)) cache.

Definition kept_graphics (addr : Z)
           (cache : list (GraphicsPipelineCacheKey * VKGraphicsPipeline)) :=
  filter (fun kv => negb (references addr (fst kv))) cache.

Definition removed_compute (addr : Z)
           (cache : list (ComputePipelineCacheKey * VKComputePipeline)) :=
  filter (fun kv => shader (fst kv) =? addr) cache.

Definition kept_compute (addr : Z)
           (cache : list (ComputePipelineCacheKey * VKComputePipeline)) :=
  filter (fun kv => negb (shader (fst kv) =? addr)) cache.

Definition erase_graphics_events
           (removed : list (GraphicsPipelineCacheKey * VKGraphicsPipeline)) : list Event :=
  map (fun kv => EvEraseGraphics (fst kv) (gp_id (snd kv))) removed.

Definition erase_compute_events
           (removed : list (ComputePipelineCacheKey * VKComputePipeline)) : list Event :=
  map (fun kv => EvEraseCompute (fst kv) (cp_id (snd kv))) removed.

Definition is_nil {A : Type} (l : list A) : bool :=
  match l with [] => true | _ => false end.

(** The Finish the loop issues: one, when the flag was not yet set and the
    loop removes something. *)
Definition finish_events {A : Type} (finished : bool) (removed : list A) : list Event :=
  if negb finished && negb (is_nil removed) then [EvFinish] else [].

Definition is_finish (e : Event) : bool :=
  match e with EvFinish => true | _ => false end.

Definition is_erase (e : Event) : bool :=
  match e with EvEraseGraphics _ _ | EvEraseCompute _ _ => true | _ => false end.

Definition count_finish (evs : list Event) : nat := length (filter is_finish evs).

(** Every removal in [evs] has a Finish somewhere before it. *)
Definition erases_after_finish (evs : list Event) : Prop :=
  forall before e after,
    evs = before ++ e :: after -> is_erase e = true -> In EvFinish before.

(** The events of one call of Unregister. *)
Definition Unregister_events (object : CachedShader) (s : VKPipelineCache) : list Event :=
  let addr := gpu_addr object in
  let rg := removed_graphics addr (graphics_cache s) in
  let rc := removed_compute addr (compute_cache s) in
  (if is_nil rg && is_nil rc then [] else [EvFinish]) ++
  erase_graphics_events rg ++ erase_compute_events rc ++
  [EvUnregister (host_ptr object) (shader_id object)].

(** The cache after one call of Unregister. *)
Definition Unregister_result (object : CachedShader) (s : VKPipelineCache)
  : VKPipelineCache :=
  {| map_cache := erase_key Z.eqb (host_ptr object) (map_cache s);
     graphics_cache := kept_graphics (gpu_addr object) (graphics_cache s);
     compute_cache := kept_compute (gpu_addr object) (compute_cache s);
     last_graphics_pipeline := last_graphics_pipeline s;
     last_graphics_key := last_graphics_key s;
     last_shaders := last_shaders s;
     next_object := next_object s;
     trace := trace s ++ Unregister_events object s |}.

(** The backing pointer [h] is registered with the unit [u]. *)
Definition registered (h : Z) (u : CachedShader) (s : VKPipelineCache) : Prop :=
  find_key Z.eqb h (map_cache s) = Some u.

(** The memoized pipeline is the pipeline the map holds for the memoized
    key. *)
Definition memo_valid (s : VKPipelineCache) : Prop :=
  forall p, last_graphics_pipeline s = Some p ->
            exists e, find_key GraphicsKey_eqb (last_graphics_key s) (graphics_cache s)
                      = Some e /\ gp_id e = p.

(** An event that builds something the cache [s] does not hold yet. *)
Definition fresh_event (s : VKPipelineCache) (e : Event) : Prop :=
  match e with
  | EvTranslate h _ | EvRegister h _ => find_key Z.eqb h (map_cache s) = None
  | EvCompileGraphics k _ => find_key GraphicsKey_eqb k (graphics_cache s) = None
  | EvCompileCompute k _ => find_key ComputeKey_eqb k (compute_cache s) = None
  | _ => False
  end.

(** [s'] is [s] after requests that only add to the registry and to the
    pipeline maps. *)
Record extends (s s' : VKPipelineCache) : Prop := {
  ext_registry : forall h u, registered h u s -> registered h u s';
  ext_graphics : forall k e,
      find_key GraphicsKey_eqb k (graphics_cache s) = Some e ->
      find_key GraphicsKey_eqb k (graphics_cache s') = Some e;
  ext_compute : forall k e,
      find_key ComputeKey_eqb k (compute_cache s) = Some e ->
      find_key ComputeKey_eqb k (compute_cache s') = Some e;
  ext_trace : exists evs, trace s' = trace s ++ evs /\ Forall (fresh_event s) evs;
  ext_memo : memo_valid s -> memo_valid s';
  ext_memo_set : last_graphics_pipeline s <> None -> last_graphics_pipeline s' <> None
}.

(** The cache with the memo set to [key] and [p]. *)
Definition memo_state (s : VKPipelineCache) (key : GraphicsPipelineCacheKey) (p : nat)
  : VKPipelineCache :=
  {| map_cache := map_cache s; graphics_cache := graphics_cache s;
     compute_cache := compute_cache s;
     last_graphics_pipeline := Some p;
     last_graphics_key := key;
     last_shaders := last_shaders s;
     next_object := next_object s;
     trace := trace s |}.

(** The cache after a miss on [key] that built [entry]. *)
Definition compiled_state (s : VKPipelineCache) (key : GraphicsPipelineCacheKey)
           (entry : VKGraphicsPipeline) : VKPipelineCache :=
  {| map_cache := map_cache s;
     graphics_cache := (key, entry) :: graphics_cache s;
     compute_cache := compute_cache s;
     last_graphics_pipeline := Some (gp_id entry);
     last_graphics_key := key;
     last_shaders := last_shaders s;
     next_object := S (next_object s);
     trace := trace s ++ [EvCompileGraphics key (gp_id entry)] |}.

(** The three ways GetGraphicsPipeline returns. *)
Inductive graphics_outcome (key : GraphicsPipelineCacheKey) (s : VKPipelineCache)
          (p : nat) (s1 : VKPipelineCache) : Prop :=
| memo_hit :
    last_graphics_pipeline s = Some p -> last_graphics_key s = key -> s1 = s ->
    graphics_outcome key s p s1
| map_hit (e : VKGraphicsPipeline) :
    find_key GraphicsKey_eqb key (graphics_cache s) = Some e ->
    p = gp_id e -> s1 = memo_state s key p ->
    graphics_outcome key s p s1
| map_miss (program : SPIRVProgram) (bindings : list DescriptorSetLayoutBinding) :
    find_key GraphicsKey_eqb key (graphics_cache s) = None ->
    p = next_object s ->
    s1 = compiled_state s key {| gp_id := next_object s; gp_key := key;
                                 gp_bindings := bindings; gp_program := program |} ->
    graphics_outcome key s p s1.

(** The compilations of [key] among [evs]. *)
Definition compiles_of (key : GraphicsPipelineCacheKey) (evs : list Event) : nat :=
  length (filter (fun e => match e with
                           | EvCompileGraphics k _ => GraphicsKey_eqb k key
                           | _ => false
                           end) evs).

(** The backing pointer of the program bound to slot [index]. *)
Definition host_of (system : System) (index : Z) : Z :=
  GetPointer (memory_manager system) (GetShaderAddress system index).

(** The cache after the unit [u] was built and registered. *)
Definition registered_state (s : VKPipelineCache) (u : CachedShader) : VKPipelineCache :=
  {| map_cache := (host_ptr u, u) :: map_cache s;
     graphics_cache := graphics_cache s;
     compute_cache := compute_cache s;
     last_graphics_pipeline := last_graphics_pipeline s;
     last_graphics_key := last_graphics_key s;
     last_shaders := last_shaders s;
     next_object := S (next_object s);
     trace := trace s ++ [EvTranslate (host_ptr u) (shader_id u);
                          EvRegister (host_ptr u) (shader_id u)] |}.

(** The three ways one iteration of GetShaders ends. *)
Inductive shader_outcome (system : System) (index : Z)
          (arr : list (option CachedShader)) (s : VKPipelineCache)
          (arr' : list (option CachedShader)) (s' : VKPipelineCache) : Prop :=
| slot_disabled :
    IsShaderConfigEnabled system index = false -> arr' = arr -> s' = s ->
    shader_outcome system index arr s arr' s'
| registry_hit (u : CachedShader) :
    IsShaderConfigEnabled system index = true ->
    registered (host_of system index) u s ->
    arr' = array_set arr (Z.to_nat index) (Some u) -> s' = s ->
    shader_outcome system index arr s arr' s'
| registry_miss (u : CachedShader) :
    IsShaderConfigEnabled system index = true ->
    find_key Z.eqb (host_of system index) (map_cache s) = None ->
    host_ptr u = host_of system index ->
    arr' = array_set arr (Z.to_nat index) (Some u) -> s' = registered_state s u ->
    shader_outcome system index arr s arr' s'.

(** The cache with [last_shaders] replaced. *)
Definition shaders_state (s : VKPipelineCache) (v : list (option CachedShader))
  : VKPipelineCache :=
  {| map_cache := map_cache s; graphics_cache := graphics_cache s;
     compute_cache := compute_cache s;
     last_graphics_pipeline := last_graphics_pipeline s;
     last_graphics_key := last_graphics_key s;
     last_shaders := v;
     next_object := next_object s;
     trace := trace s |}.

(** The cache after a miss on the compute key [key] that built [entry]. *)
Definition compute_state (s : VKPipelineCache) (key : ComputePipelineCacheKey)
           (entry : VKComputePipeline) : VKPipelineCache :=
  {| map_cache := map_cache s;
     graphics_cache := graphics_cache s;
     compute_cache := (key, entry) :: compute_cache s;
     last_graphics_pipeline := last_graphics_pipeline s;
     last_graphics_key := last_graphics_key s;
     last_shaders := last_shaders s;
     next_object := S (next_object s);
     trace := trace s ++ [EvCompileCompute key (cp_id entry)] |}.

(** The compute pipeline built from the unit [u] for [key]. *)
Definition compute_entry (system : System) (key : ComputePipelineCacheKey)
           (u : CachedShader) (id : nat) : VKComputePipeline :=
  {| cp_id := id;
     cp_shader :=
       {| code := Decompile system (shader_ir u) ShaderType.Compute
                    {| base_binding := 0;
                       spec_workgroup_size := workgroup_size key;
                       spec_shared_memory_size := shared_memory_size key;
                       spec_point_size := None;
                       spec_attribute_types := [];
                       spec_ndc_minus_one_to_one := false |};
          spirv_entries := entries u |} |}.

Definition compute_host (system : System) (key : ComputePipelineCacheKey) : Z :=
  GetPointer (memory_manager system) (shader key).

(** The three ways GetComputePipeline returns. *)
Inductive compute_outcome (system : System) (key : ComputePipelineCacheKey)
          (s : VKPipelineCache) (p : nat) (s1 : VKPipelineCache) : Prop :=
| compute_hit (e : VKComputePipeline) :
    find_key ComputeKey_eqb key (compute_cache s) = Some e ->
    p = cp_id e -> s1 = s ->
    compute_outcome system key s p s1
| compute_miss_registered (u : CachedShader) :
    find_key ComputeKey_eqb key (compute_cache s) = None ->
    registered (compute_host system key) u s ->
    p = next_object s ->
    s1 = compute_state s key (compute_entry system key u (next_object s)) ->
    compute_outcome system key s p s1
| compute_miss_new (u : CachedShader) :
    find_key ComputeKey_eqb key (compute_cache s) = None ->
    find_key Z.eqb (compute_host system key) (map_cache s) = None ->
    host_ptr u = compute_host system key ->
    p = S (next_object s) ->
    s1 = compute_state (registered_state s u) key
                       (compute_entry system key u (S (next_object s))) ->
    compute_outcome system key s p s1.

(** Events other than the construction and registration of a unit. *)
Definition no_translation (e : Event) : Prop :=
  match e with
  | EvTranslate _ _ | EvRegister _ _ => False
  | _ => True
  end.

(** The requests a draw or dispatch makes; none of them invalidates. *)
Inductive Request : Type :=
| ReqGetShaders (system : System)
| ReqGetGraphicsPipeline (system : System) (key : GraphicsPipelineCacheKey)
| ReqGetComputePipeline (system : System) (key : ComputePipelineCacheKey).

Definition perform (r : Request) : M unit :=
  match r with
  | ReqGetShaders system => GetShaders system ;;; ret tt
  | ReqGetGraphicsPipeline system key => GetGraphicsPipeline system key ;;; ret tt
  | ReqGetComputePipeline system key => GetComputePipeline system key ;;; ret tt
  end.

Fixpoint perform_all (rs : list Request) : M unit :=
  match rs with
  | [] => ret tt
  | r :: rest => perform r ;;; perform_all rest
  end.

(** A request obtained the unit [u] for the backing pointer [h] and left the
    cache [s1]: GetShaders with the program of an enabled slot backed by [h],
    or a miss of the compute path for a shader backed by [h]. *)
Inductive requested (h : Z) (u : CachedShader) (s1 : VKPipelineCache) : Prop :=
| via_GetShaders (system : System) (s : VKPipelineCache)
                 (arr : list (option CachedShader)) (index : Z) :
    GetShaders system s = Some (arr, s1) ->
    0 <= index < MaxShaderProgram ->
    IsShaderConfigEnabled system index = true ->
    host_of system index = h ->
    nth (Z.to_nat index) arr None = Some u ->
    requested h u s1
| via_GetComputePipeline (system : System) (key : ComputePipelineCacheKey)
                         (s : VKPipelineCache) (p : nat) :
    GetComputePipeline system key s = Some (p, s1) ->
    find_key ComputeKey_eqb key (compute_cache s) = None ->
    compute_host system key = h ->
    registered h u s1 ->
    requested h u s1.

(** Events that neither build nor register a unit for [h]. *)
Definition no_translation_of (h : Z) (e : Event) : Prop :=
  match e with
  | EvTranslate h' _ | EvRegister h' _ => h' <> h
  | _ => True
  end.

(** Modelled from the spec: the derivation of the update template of a
    pipeline, the caller of FillDescriptorUpdateTemplateEntries, is outside
    this file.  It runs over the manifests of the stages in their order with
    two counters that start at 0 and are handed, by reference, from one stage
    to the next. *)
Fixpoint derive_template (entry_size : Z) (stages : list ShaderEntries)
         (binding offset : Z) (template_entries : list DescriptorUpdateTemplateEntry)
  : Z * Z * list DescriptorUpdateTemplateEntry :=
  match stages with
  | [] => (binding, offset, template_entries)
  | entries :: rest =>
      let '(binding, offset, template_entries) :=
        FillDescriptorUpdateTemplateEntries entry_size entries binding offset
                                            template_entries in
      derive_template entry_size rest binding offset template_entries
  end.

(** Modelled from the spec: BuildLayout over the stages of a pipeline, each a
    program with its manifest; the base binding carries over from stage to
    stage, as in the loop of DecompileShaders. *)
Fixpoint derive_layout (ShaderStage : Z -> Z) (stages : list (Z * ShaderEntries))
         (bindings : list DescriptorSetLayoutBinding) (base_binding : Z)
  : list DescriptorSetLayoutBinding * Z :=
  match stages with
  | [] => (bindings, base_binding)
  | (program_type, entries) :: rest =>
      let '(bindings, base_binding) :=
        FillDescriptorLayout ShaderStage entries bindings program_type base_binding in
      derive_layout ShaderStage rest bindings base_binding
  end.

(** The resources and the elements of the manifests of several stages. *)
Definition resources_of (stages : list ShaderEntries) : Z :=
  fold_right (fun entries acc => total_resources entries + acc) 0 stages.

Definition elements_of (stages : list ShaderEntries) : Z :=
  fold_right (fun entries acc => total_elements entries + acc) 0 stages.

(** The template of several stages: the template of each manifest in turn,
    the binding index and the byte offset running on from stage to stage. *)
Fixpoint template_of_stages (entry_size : Z) (stages : list ShaderEntries)
         (first_binding byte_offset : Z) : list DescriptorUpdateTemplateEntry :=
  match stages with
  | [] => []
  | entries :: rest =>
      template_of entry_size entries first_binding byte_offset ++
      template_of_stages entry_size rest
        (first_binding + total_resources entries)
        (byte_offset + total_elements entries * entry_size)
  end.

(** The binding slots an entry of the template writes, each with its binding
    index, its kind and its number of elements: the array of one slot for a
    combined image sampler, one element in each of [tmplDescriptorCount]
    consecutive slots for any other kind. *)
Definition slots_written (e : DescriptorUpdateTemplateEntry)
  : list (Z * DescriptorType * Z) :=
  if DescriptorType_eqb (tmplDescriptorType e) eCombinedImageSampler then
    [(dstBinding e, tmplDescriptorType e, tmplDescriptorCount e)]
  else
    map (fun i => (dstBinding e + Z.of_nat i, tmplDescriptorType e, 1))
        (seq 0 (Z.to_nat (tmplDescriptorCount e))).

(** A slot of the binding layout, without its stage flags. *)
Definition slot_of (b : DescriptorSetLayoutBinding) : Z * DescriptorType * Z :=
  (binding b, descriptorType b, descriptorCount b).

(** One element in each of [n] consecutive slots of kind [dt], from slot
    [b]. *)
Definition slots_from (b : Z) (dt : DescriptorType) (n : nat)
  : list (Z * DescriptorType * Z) :=
  map (fun i => (b + Z.of_nat i, dt, 1)) (seq 0 n).

(* ========================================================================== *)
(*  Further specification vocabulary                                           *)
(* ========================================================================== *)

(** The self-jumping branch with bit 23 set: the other word the mask maps to
    the self-jumping branch. *)
Definition self_jumping_branch_bit23 : Z := self_jumping_branch + 2 ^ 23.

(** The number of descriptors a layout declares. *)
Definition layout_descriptors (bindings : list DescriptorSetLayoutBinding) : Z :=
  fold_right (fun b acc => descriptorCount b + acc) 0 bindings.

(** The number of descriptors a template writes. *)
Definition template_descriptors (l : list DescriptorUpdateTemplateEntry) : Z :=
  fold_right (fun e acc => tmplDescriptorCount e + acc) 0 l.

(** The entries of [l] lie back to back in the update buffer: the first
    starts at byte [from], each next one where the one before ends, the last
    ends at byte [to]; all have the stride [entry_size]. *)
Fixpoint byte_tiled (entry_size from : Z) (l : list DescriptorUpdateTemplateEntry)
         (to : Z) : Prop :=
  match l with
  | [] => from = to
  | e :: rest =>
      offset e = from /\ stride e = entry_size /\
      byte_tiled entry_size (from + tmplDescriptorCount e * entry_size) rest to
  end.

(** The descriptors of a container: the array sizes of its elements for
    combined image samplers, one per element otherwise. *)
Definition container_descriptors {A : Type} (descriptor_type : DescriptorType)
           (SizeOf : A -> Z) (container : list A) : Z :=
  fold_right (fun item acc => slot_count descriptor_type SizeOf item + acc) 0 container.

(** The bindings an entry spans: a combined image sampler entry writes the
    array of one binding, any other entry one descriptor into each of
    [tmplDescriptorCount] consecutive bindings. *)
Definition bindings_spanned (e : DescriptorUpdateTemplateEntry) : Z :=
  if DescriptorType_eqb (tmplDescriptorType e) eCombinedImageSampler
  then 1 else tmplDescriptorCount e.

(** The entries of [l] span consecutive bindings, from binding [from] up to,
    not including, binding [to]. *)
Fixpoint binding_tiled (from : Z) (l : list DescriptorUpdateTemplateEntry) (to : Z)
  : Prop :=
  match l with
  | [] => from = to
  | e :: rest =>
      dstBinding e = from /\ binding_tiled (from + bindings_spanned e) rest to
  end.

(** The program slots the loop of DecompileShaders looks up: the enabled
    ones, except VertexB when VertexA is enabled too. *)
Definition visited (system : System) (index : Z) : bool :=
  IsShaderConfigEnabled system index &&
  negb ((index =? ShaderProgram.VertexB) &&
        IsShaderConfigEnabled system ShaderProgram.VertexA).

(** The point-size assertion of DecompileShaders fails for this key. *)
Definition point_size_missing (key : GraphicsPipelineCacheKey) : bool :=
  (topology (fixed_state key) =? PrimitiveTopology_Points) &&
  negb (float_nonzero (point_size (fixed_state key))).

(** The bindings of a vector are numbered by their position: element [i] has
    the binding index [i]. *)
Definition numbered (bindings : list DescriptorSetLayoutBinding) : Prop :=
  forall i d, (i < length bindings)%nat -> binding (nth i bindings d) = Z.of_nat i.

(** No registered unit declares 2^28 resources or more. *)
Definition manifests_small (s : VKPipelineCache) : Prop :=
  forall h u, registered h u s -> total_resources (entries u) < 2 ^ 28.

(** Some pipeline of the cache was built from the shader at [addr]. *)
Definition stale (addr : Z) (s : VKPipelineCache) : bool :=
  existsb (fun kv => references addr (fst kv)) (graphics_cache s) ||
  existsb (fun kv => shader (fst kv) =? addr) (compute_cache s).

(** The events of [evs] that build the object of key [k]; [sel] gives the key
    an event builds an object for, if it builds one. *)
Definition builds {K : Type} (sel : Event -> option K) (eqb : K -> K -> bool)
           (k : K) (evs : list Event) : nat :=
  length (filter (fun e => match sel e with
                           | Some k' => eqb k' k
                           | None => false
                           end) evs).

Definition graphics_built (e : Event) : option GraphicsPipelineCacheKey :=
  match e with EvCompileGraphics k _ => Some k | _ => None end.

Definition compute_built (e : Event) : option ComputePipelineCacheKey :=
  match e with EvCompileCompute k _ => Some k | _ => None end.

Definition unit_built (e : Event) : option Z :=
  match e with EvTranslate h _ => Some h | _ => None end.

(** The trace built one object at most for a key the map holds, and none for
    a key it does not hold. *)
Definition built_once {K V : Type} (sel : Event -> option K) (eqb : K -> K -> bool)
           (m : list (K * V)) (evs : list Event) : Prop :=
  forall k, (builds sel eqb k evs <=
             match find_key eqb k m with Some _ => 1 | None => 0 end)%nat.

Definition builds_once (s : VKPipelineCache) : Prop :=
  built_once graphics_built GraphicsKey_eqb (graphics_cache s) (trace s) /\
  built_once compute_built ComputeKey_eqb (compute_cache s) (trace s) /\
  built_once unit_built Z.eqb (map_cache s) (trace s).

(* -------------------------------------------------------------------------- *)
(*  A small concrete system, used to run the operations                       *)
(* -------------------------------------------------------------------------- *)

Module Sample.

(** Every mapped address has a backing pointer; each program is fourteen
    words long: its word 13 is the self-jumping branch, and its other words
    hold the number of the 256-byte block the program lies in. *)
Definition memory : MemoryManager :=
  {| GetPointer := fun a => a + 0x100000;
     GpuToCpuAddress := fun a => Some (a + 0x200000);
     ReadU64 := fun a => if a mod 0x100 =? 8 * 13 then self_jumping_branch
                         else a / 0x100 |}.

Definition manifest (ir : ShaderIR) : ShaderEntries :=
  {| const_buffers := [{| cbuf_index := word_at (ir_code ir) 0 |}];
     global_buffers := [];
     texel_buffers := [];
     samplers := if ir_stage ir =? ShaderType.Fragment
                 then [{| sampler_index := 0; Size := 2 |}] else [];
     images := [] |}.

Definition decompile (ir : ShaderIR) (stage : Z) (specialization : Specialization)
  : list Z :=
  [word_at (ir_code ir) 0; ir_main_offset ir; stage; base_binding specialization;
   size (ir_code ir)].

(** Programs [enabled] are bound, program [i] at 0x10000 + 0x100 * i. *)
Definition system (enabled : list Z) : System :=
  {| IsShaderConfigEnabled := fun i => existsb (Z.eqb i) enabled;
     code_address := 0x10000;
     shader_config_offset := fun i => 0x100 * i;
     memory_manager := memory;
     MAX_PROGRAM_LENGTH := 16;
     ShaderStage := fun stage => 2 ^ stage;
     GenerateShaderEntries := manifest;
     Decompile := decompile |}.

Definition state : FixedPipelineState :=
  {| topology := 4; point_size := 0; attribute_types := [1; 2];
     ndc_minus_one_to_one := false; other_state := [7] |}.

(** The key of a draw with the programs [enabled]. *)
Definition key (enabled : list Z) : GraphicsPipelineCacheKey :=
  {| fixed_state := state;
     shaders := map (fun i => if existsb (Z.eqb i) enabled
                              then GetShaderAddress (system enabled) i else 0)
                    program_indices |}.

Definition compute_key (local_size : Z) : ComputePipelineCacheKey :=
  {| shader := 0x10500; shared_memory_size := 0;
     workgroup_size := (local_size, 1, 1) |}.

(** A manifest with 2 constant buffers, no storage buffer, 1 texel buffer,
    3 combined image samplers of array sizes 1, 1 and 2, and 1 storage
    image. *)
Definition stage_manifest : ShaderEntries :=
  {| const_buffers := [{| cbuf_index := 0 |}; {| cbuf_index := 1 |}];
     global_buffers := [];
     texel_buffers := [{| sampler_index := 0; Size := 1 |}];
     samplers := [{| sampler_index := 1; Size := 1 |};
                  {| sampler_index := 2; Size := 1 |};
                  {| sampler_index := 3; Size := 2 |}];
     images := [{| image_index := 0 |}] |}.

(** One draw: fetch the shaders, then the pipeline. *)
Definition draw (enabled : list Z) : M nat :=
GetShaders (system enabled) ;;;
GetGraphicsPipeline (system enabled) (key enabled).

(** The cache a member function leaves (the cache itself if it aborts). *)
Definition after {A : Type} (m : M A) (s : VKPipelineCache) : VKPipelineCache :=
match m s with
| Some (_, s') => s'
| None => s
end.

(** The cache after the shaders of a vertex and a fragment program were
  fetched. *)
Definition ready : VKPipelineCache := after (GetShaders (system [1; 5])) new_cache.

(** The pipeline of the first draw with these programs, and the cache after
  it. *)
Definition drawn : nat * VKPipelineCache :=
match GetGraphicsPipeline (system [1; 5]) (key [1; 5]) ready with
| Some r => r
| None => (0%nat, ready)
end.

Definition no_shader : CachedShader :=
{| shader_id := 0; host_ptr := 0; gpu_addr := 0; cpu_addr := 0;
   shader_ir := {| ir_code := []; ir_main_offset := 0; ir_stage := 0 |};
   entries := {| const_buffers := []; global_buffers := []; texel_buffers := [];
                 samplers := []; images := [] |} |}.

(** The unit [ready] holds for program slot [index]. *)
Definition unit_of (index : nat) : CachedShader :=
match nth index (last_shaders ready) None with
| Some u => u
| None => no_shader
end.

(** Requests that follow: a draw and two dispatches. *)
Definition later_requests : list Request :=
[ReqGetGraphicsPipeline (system [1; 5]) (key [1; 5]);
 ReqGetComputePipeline (system [1; 5]) (compute_key 8);
 ReqGetComputePipeline (system [1; 5]) (compute_key 16)].

(** Two compute programs: the self-jumping branch in the scheduler slot 4 and
  nowhere else, and in slot 4 and at the checked index 5. *)
Definition sentinel_in_sched_slot : ProgramCode :=
[1; 1; 1; 1; self_jumping_branch; 1; 1; 1].

Definition sentinel_at_5 : ProgramCode :=
[1; 1; 1; 1; self_jumping_branch; self_jumping_branch; 1; 1].

(** A cache with four graphics pipelines, three of them using the shader at
    0x10100, and two compute pipelines, one of them using it. *)
Definition key_with (addresses : list Z) : GraphicsPipelineCacheKey :=
  {| fixed_state := state; shaders := addresses |}.

Definition graphics_entry (addresses : list Z) (id : nat)
  : GraphicsPipelineCacheKey * VKGraphicsPipeline :=
  (key_with addresses,
   {| gp_id := id; gp_key := key_with addresses; gp_bindings := []; gp_program := [] |}).

Definition compute_entry_at (address : Z) (id : nat)
  : ComputePipelineCacheKey * VKComputePipeline :=
  ({| shader := address; shared_memory_size := 0; workgroup_size := (1, 1, 1) |},
   {| cp_id := id; cp_shader := {| code := []; spirv_entries := entries no_shader |} |}).

Definition crowded : VKPipelineCache :=
  {| map_cache := map_cache ready;
     graphics_cache := [graphics_entry [0; 0x10100; 0; 0; 0; 0x10500] 10;
                        graphics_entry [0; 0x10200; 0; 0; 0; 0x10500] 11;
                        graphics_entry [0; 0x10100; 0; 0; 0; 0x10600] 12;
                        graphics_entry [0x10100; 0x10300; 0; 0; 0; 0x10500] 13];
     compute_cache := [compute_entry_at 0x10700 20; compute_entry_at 0x10100 21];
     last_graphics_pipeline := None;
     last_graphics_key := empty_key;
     last_shaders := last_shaders ready;
     next_object := 30;
     trace := [] |}.

End Sample.

(* -------------------------------------------------------------------------- *)
(*  Further runs on the concrete system                                       *)
(* -------------------------------------------------------------------------- *)

Module Scenario.

(** The compute program of [Sample.sentinel_in_sched_slot] with another word
    in its scheduler slot 4. *)
Definition other_sched_word : ProgramCode := [1; 1; 1; 1; 7; 1; 1; 1].

(** What DecompileShaders returns for the vertex and fragment programs. *)
Definition decompiled : SPIRVProgram * list DescriptorSetLayoutBinding :=
match DecompileShaders (Sample.system [1; 5]) (Sample.key [1; 5]) Sample.ready with
| Some (r, _) => r
| None => ([], [])
end.

Definition no_binding : DescriptorSetLayoutBinding :=
{| binding := 0; descriptorType := eUniformBuffer; descriptorCount := 0;
   stageFlags := 0 |}.

(** The crowded cache after the vertex shader was unregistered. *)
Definition purged : VKPipelineCache :=
Sample.after (Unregister (Sample.unit_of 1)) Sample.crowded.

(** The cache after the first draw, and after the vertex shader was
    unregistered then. *)
Definition invalidated : VKPipelineCache :=
Sample.after (Unregister (Sample.unit_of 1)) (snd Sample.drawn).

(** A dispatch: the pipeline it returns and the cache it leaves. *)
Definition dispatched : nat * VKPipelineCache :=
match GetComputePipeline (Sample.system [1; 5]) (Sample.compute_key 8) Sample.ready with
| Some r => r
| None => (0%nat, Sample.ready)
end.

(** A frame from the empty cache: the shaders, a draw and two dispatches. *)
Definition frame : list Request :=
ReqGetShaders (Sample.system [1; 5]) :: Sample.later_requests.

(** A vertex stage with two constant buffers and a texel buffer, and the
    fragment stage of [Sample.stage_manifest]. *)
Definition vertex_manifest : ShaderEntries :=
{| const_buffers := [{| cbuf_index := 0 |}; {| cbuf_index := 3 |}];
   global_buffers := [];
   texel_buffers := [{| sampler_index := 0; Size := 1 |}];
   samplers := [];
   images := [] |}.

Definition two_stages : list (Z * ShaderEntries) :=
[(ShaderProgram.VertexB, vertex_manifest);
 (ShaderProgram.Fragment, Sample.stage_manifest)].

(** A key with the shaders of [Sample.key] and another topology. *)
Definition other_key : GraphicsPipelineCacheKey :=
{| fixed_state := {| topology := 3; point_size := 0; attribute_types := [1; 2];
                     ndc_minus_one_to_one := false; other_state := [7] |};
   shaders := shaders (Sample.key [1; 5]) |}.

(** The cache of [Sample.ready] after the later requests. *)
Definition settled : VKPipelineCache :=
Sample.after (perform_all Sample.later_requests) Sample.ready.

End Scenario.

(* ========================================================================== *)
(*  Properties                                                                 *)
(* ========================================================================== *)

(* ========================================================================== *)
(*  Properties of the program-length estimator                                 *)
(* ========================================================================== *)

Lemma wrap64_small (x : Z) : 0 <= x < 2 ^ 64 -> wrap64 x = x.
Proof. intro H. unfold wrap64. apply Z.mod_small. exact H. Qed.

Lemma wrap32_small (x : Z) : 0 <= x < 2 ^ 32 -> wrap32 x = x.
Proof. intro H. unfold wrap32. apply Z.mod_small. exact H. Qed.

Lemma IsSchedInstruction_mod4 (offset main_offset : Z) :
  IsSchedInstruction offset main_offset = ((offset - main_offset) mod 4 =? 0).
Proof.
  unfold IsSchedInstruction, wrap64.
  rewrite Z.mod_mod_divide; [reflexivity|].
  exists (2 ^ 62). reflexivity.
Qed.

Lemma IsSchedInstruction_checked (offset main_offset : Z) :
  IsSchedInstruction offset main_offset = false <-> checked main_offset offset.
Proof.
  rewrite IsSchedInstruction_mod4. unfold checked.
  rewrite Z.eqb_neq. tauto.
Qed.

(** One unfolding of the loop body, in terms of [is_terminator]. *)
Lemma loop_step (fuel : nat) (program : ProgramCode) (start_offset offset : Z) :
  CalculateProgramSize_loop (S fuel) program start_offset offset =
  if offset <? size program then
    if negb (IsSchedInstruction offset start_offset)
       && is_terminator (word_at program offset)
    then offset
    else CalculateProgramSize_loop fuel program start_offset (wrap64 (offset + 1))
  else offset.
Proof.
  simpl. unfold is_terminator.
  destruct (offset <? size program); [|reflexivity].
  destruct (IsSchedInstruction offset start_offset); simpl; [reflexivity|].
  destruct (Z.land (word_at program offset) mask =? self_jumping_branch); simpl;
    [reflexivity|].
  destruct (word_at program offset =? 0); reflexivity.
Qed.

(** What the loop leaves in [offset]: every checked index it walked over is
    not a terminator, and it stops either on a checked terminator inside the
    buffer or at the end of the buffer. *)
Lemma loop_result (fuel : nat) (program : ProgramCode) (start_offset : Z) :
  forall offset,
    0 <= offset -> size program < 2 ^ 64 ->
    (size program - offset <= Z.of_nat fuel) ->
    let r := CalculateProgramSize_loop fuel program start_offset offset in
    offset <= r /\
    (forall i, offset <= i < r -> checked start_offset i ->
               is_terminator (word_at program i) = false) /\
    ((r < size program /\ checked start_offset r /\
      is_terminator (word_at program r) = true)
     \/ r = Z.max offset (size program)).
Proof.
  induction fuel as [|fuel IH]; intros offset Hpos Hsz Hfuel.
  - simpl. split; [lia|]. split; [intros; lia|]. right. simpl in Hfuel. lia.
  - cbv zeta. rewrite loop_step.
    destruct (offset <? size program) eqn:Hlt.
    + apply Z.ltb_lt in Hlt.
      destruct (negb (IsSchedInstruction offset start_offset)
                && is_terminator (word_at program offset)) eqn:Hbrk.
      * apply andb_prop in Hbrk. destruct Hbrk as [Hs Ht].
        apply negb_true_iff in Hs. apply IsSchedInstruction_checked in Hs.
        split; [lia|]. split; [intros; lia|]. left. auto.
      * rewrite wrap64_small by lia.
        destruct (IH (offset + 1)) as (Hle & Hbefore & Hstop); try lia.
        split; [lia|]. split.
        -- intros i Hi Hc.
           destruct (Z.eq_dec i offset) as [->|Hne].
           ++ apply andb_false_iff in Hbrk. destruct Hbrk as [Hs|Ht]; [|exact Ht].
              apply negb_false_iff in Hs. rewrite IsSchedInstruction_mod4 in Hs.
              apply Z.eqb_eq in Hs. unfold checked in Hc. contradiction.
           ++ apply Hbefore; [lia|exact Hc].
        -- destruct Hstop as [Hstop|Hstop]; [left; exact Hstop|right; lia].
    + apply Z.ltb_ge in Hlt.
      split; [lia|]. split; [intros; lia|]. right. lia.
Qed.

(** Once the fuel covers the rest of the buffer, more fuel changes nothing:
    the loop has left by itself, not by running out of fuel. *)
Lemma loop_fuel_enough (program : ProgramCode) (start_offset : Z) :
  forall fuel fuel' offset,
    0 <= offset -> size program < 2 ^ 64 ->
    size program - offset <= Z.of_nat fuel ->
    size program - offset <= Z.of_nat fuel' ->
    CalculateProgramSize_loop fuel program start_offset offset =
    CalculateProgramSize_loop fuel' program start_offset offset.
Proof.
  induction fuel as [|fuel IH]; intros fuel' offset Hpos Hsz Hf Hf'.
  - destruct fuel' as [|fuel']; [reflexivity|].
    rewrite loop_step. simpl.
    destruct (offset <? size program) eqn:Hlt; [|reflexivity].
    apply Z.ltb_lt in Hlt. simpl in Hf. lia.
  - destruct fuel' as [|fuel'].
    + rewrite loop_step. simpl.
      destruct (offset <? size program) eqn:Hlt; [|reflexivity].
      apply Z.ltb_lt in Hlt. simpl in Hf'. lia.
    + rewrite !loop_step.
      destruct (offset <? size program) eqn:Hlt; [|reflexivity].
      apply Z.ltb_lt in Hlt.
      destruct (negb (IsSchedInstruction offset start_offset)
                && is_terminator (word_at program offset)); [reflexivity|].
      rewrite wrap64_small by lia.
      apply IH; lia.
Qed.

(** The loop stops exactly on the first checked terminator. *)
Lemma loop_first_terminator (program : ProgramCode) (start_offset p : Z) :
  0 <= start_offset -> size program < 2 ^ 64 ->
  first_terminator program start_offset p ->
  CalculateProgramSize_loop (length program) program start_offset start_offset = p.
Proof.
  intros Hs Hsz (Hrange & Hc & Ht & Hmin).
  destruct (loop_result (length program) program start_offset start_offset)
    as (Hle & Hbefore & Hstop); try (unfold size in *; lia).
  set (r := CalculateProgramSize_loop (length program) program start_offset start_offset) in *.
  destruct (Z.lt_trichotomy r p) as [Hlt|[Heq|Hgt]]; [|exact Heq|].
  - destruct Hstop as [(Hr & Hcr & Htr)|Hr]; [|lia].
    rewrite (Hmin r) in Htr; [discriminate|lia|exact Hcr].
  - rewrite (Hbefore p) in Ht; [discriminate|lia|exact Hc].
Qed.

Lemma CalculateProgramSize_first_terminator (program : ProgramCode)
      (is_compute : bool) (p : Z) :
  size program < 2 ^ 64 - 1 ->
  first_terminator program (start_of is_compute) p ->
  CalculateProgramSize program is_compute = p + 1.
Proof.
  intros Hsz Hft. unfold CalculateProgramSize. fold (start_of is_compute).
  cbv zeta. rewrite (loop_first_terminator program (start_of is_compute) p).
  - destruct Hft as (Hrange & _).
    assert (0 <= start_of is_compute) by (destruct is_compute; simpl; lia).
    rewrite wrap64_small by lia. lia.
  - destruct is_compute; simpl; lia.
  - lia.
  - exact Hft.
Qed.

Lemma CalculateProgramSize_no_terminator (program : ProgramCode) (is_compute : bool) :
  size program < 2 ^ 64 - 1 ->
  (forall p, start_of is_compute <= p < size program ->
             checked (start_of is_compute) p ->
             is_terminator (word_at program p) = false) ->
  CalculateProgramSize program is_compute = size program.
Proof.
  intros Hsz Hnone. unfold CalculateProgramSize. fold (start_of is_compute).
  cbv zeta.
  assert (Hs : 0 <= start_of is_compute <= 10) by (destruct is_compute; simpl; lia).
  destruct (loop_result (length program) program (start_of is_compute) (start_of is_compute))
    as (Hle & Hbefore & Hstop); try (unfold size in *; lia).
  set (r := CalculateProgramSize_loop (length program) program
              (start_of is_compute) (start_of is_compute)) in *.
  destruct Hstop as [(Hr & Hcr & Htr)|Hr].
  - rewrite Hnone in Htr; [discriminate|lia|exact Hcr].
  - assert (0 <= size program) by (unfold size; lia).
    rewrite wrap64_small by lia. lia.
Qed.

(** C5.  CalculateProgramSize scans from word 10 (graphics) or word 0
    (compute), ignores the words whose distance to the scan origin is a
    multiple of 4, takes as terminator a word that is the self-jumping branch
    under the mask or is zero, and returns the index of the first terminator
    plus one; without a terminator it returns the size of the buffer.
    (A std::vector never holds 2^64 - 1 words, the only size at which the
    final [offset + 1] could wrap.) *)
Theorem C5_program_size_scan (program : ProgramCode) (is_compute : bool) :
  size program < 2 ^ 64 - 1 ->
  let start_offset := if is_compute then 0 else 10 in
  (forall w, is_terminator w = true <->
             (Z.land w 0xFFFFFFFFFF7FFFFF = 0xE2400FFFFF07000F \/ w = 0)) /\
  (forall p, first_terminator program start_offset p ->
             CalculateProgramSize program is_compute = p + 1) /\
  ((forall p, start_offset <= p < size program -> (p - start_offset) mod 4 <> 0 ->
              is_terminator (word_at program p) = false) ->
   CalculateProgramSize program is_compute = size program).
Proof.
  intros Hsz start_offset. split; [|split].
  - intro w. unfold is_terminator. rewrite orb_true_iff, !Z.eqb_eq. reflexivity.
  - intros p Hp. apply CalculateProgramSize_first_terminator; assumption.
  - intro Hnone. apply CalculateProgramSize_no_terminator; assumption.
Qed.

(** C4 (as amended).  When a word at a checked index start + j (j not a
    multiple of 4) inside the buffer is the self-jumping branch and no checked
    word before it is a terminator, the size is start + j + 1: the sentinel is
    included.  A sentinel in a scheduler slot such as start + 4 is skipped. *)
Theorem C4_sentinel_at_checked_index (program : ProgramCode) (is_compute : bool) (j : Z) :
  size program < 2 ^ 64 - 1 ->
  let main_offset := if is_compute then 0 else 10 in
  0 <= j -> j mod 4 <> 0 -> main_offset + j < size program ->
  Z.land (word_at program (main_offset + j)) mask = self_jumping_branch ->
  (forall i, main_offset <= i < main_offset + j -> (i - main_offset) mod 4 <> 0 ->
             is_terminator (word_at program i) = false) ->
  CalculateProgramSize program is_compute = main_offset + j + 1.
Proof.
  intros Hsz main_offset Hj Hmod Hin Hsent Hbefore.
  apply CalculateProgramSize_first_terminator; [exact Hsz|].
  unfold first_terminator. fold main_offset. change (start_of is_compute) with main_offset.
  split; [lia|]. split.
  - unfold checked. replace (main_offset + j - main_offset) with j by lia. exact Hmod.
  - split.
    + unfold is_terminator. rewrite Hsent, Z.eqb_refl. reflexivity.
    + exact Hbefore.
Qed.

(* ========================================================================== *)
(*  Properties of the descriptor layout builder                                *)
(* ========================================================================== *)

Lemma wrap32_range (x : Z) : 0 <= wrap32 x < 2 ^ 32.
Proof. unfold wrap32. apply Z.mod_pos_bound. lia. Qed.

Lemma wrap32_le (x : Z) : 0 <= x -> wrap32 x <= x.
Proof. intro H. unfold wrap32. apply Z.mod_le; lia. Qed.

Lemma wrap32_add_l (a b : Z) : wrap32 (wrap32 a + b) = wrap32 (a + b).
Proof. unfold wrap32. apply Zplus_mod_idemp_l. Qed.

Lemma wrap32_add_r (a b : Z) : wrap32 (a + wrap32 b) = wrap32 (a + b).
Proof. unfold wrap32. apply Zplus_mod_idemp_r. Qed.

Lemma size_nonneg {A : Type} (v : list A) : 0 <= size v.
Proof. unfold size. lia. Qed.

Lemma size_app {A : Type} (u v : list A) : size (u ++ v) = size u + size v.
Proof. unfold size. rewrite length_app. lia. Qed.

Lemma size_cons {A : Type} (x : A) (v : list A) : size (x :: v) = size v + 1.
Proof. unfold size. simpl length. lia. Qed.

Lemma size_map {A B : Type} (f : A -> B) (v : list A) : size (map f v) = size v.
Proof. unfold size. rewrite length_map. reflexivity. Qed.

(** The loop over [num_entries] visits a prefix of the container that has
    exactly [num_entries] elements. *)
Lemma size_firstn_wrap32 {A : Type} (v : list A) :
  size (firstn (Z.to_nat (wrap32 (size v))) v) = wrap32 (size v).
Proof.
  unfold size at 1. rewrite length_firstn.
  pose proof (wrap32_le (size v) (size_nonneg v)).
  pose proof (wrap32_range (size v)). unfold size in *. lia.
Qed.

Lemma firstn_wrap32_all {A : Type} (v : list A) :
  size v < 2 ^ 32 -> firstn (Z.to_nat (wrap32 (size v))) v = v.
Proof.
  intro H. rewrite wrap32_small by (pose proof (size_nonneg v); lia).
  unfold size. rewrite Nat2Z.id. apply firstn_all.
Qed.

(** The binding counter after the loop, with the wrap-around of u32. *)
Lemma AddBindings_loop_next {A : Type} (dt : DescriptorType) (SizeOf : A -> Z)
      (flags : Z) (items : list A) :
  forall bindings b,
    0 <= b < 2 ^ 32 ->
    snd (AddBindings_loop dt SizeOf flags items bindings b) = wrap32 (b + size items).
Proof.
  induction items as [|item rest IH]; intros bindings b Hb.
  - simpl. unfold size. simpl. rewrite Z.add_0_r. symmetry. apply wrap32_small. exact Hb.
  - simpl. rewrite IH by apply wrap32_range.
    rewrite wrap32_add_l, size_cons. apply (f_equal wrap32). lia.
Qed.

Lemma AddBindings_next {A : Type} (dt : DescriptorType) (SizeOf : A -> Z)
      (flags : Z) (container : list A) (bindings : list DescriptorSetLayoutBinding) (b : Z) :
  0 <= b < 2 ^ 32 ->
  snd (AddBindings dt SizeOf bindings b flags container) = wrap32 (b + size container).
Proof.
  intro Hb. unfold AddBindings. rewrite AddBindings_loop_next by exact Hb.
  rewrite size_firstn_wrap32. apply wrap32_add_r.
Qed.

(** Without wrap-around the loop appends one slot per item, numbered upwards. *)
Lemma AddBindings_loop_layout {A : Type} (dt : DescriptorType) (SizeOf : A -> Z)
      (flags : Z) (items : list A) :
  forall bindings b,
    0 <= b -> b + size items < 2 ^ 32 ->
    AddBindings_loop dt SizeOf flags items bindings b =
    (bindings ++ number_bindings flags b (map (fun it => (dt, slot_count dt SizeOf it)) items),
     b + size items).
Proof.
  induction items as [|item rest IH]; intros bindings b Hb Hfit.
  - simpl. rewrite app_nil_r. unfold size. simpl. rewrite Z.add_0_r. reflexivity.
  - rewrite size_cons in Hfit. pose proof (size_nonneg rest).
    simpl. rewrite wrap32_small by lia. rewrite IH by lia.
    rewrite <- app_assoc. simpl. rewrite size_cons. unfold slot_count.
    f_equal. lia.
Qed.

Lemma AddBindings_layout {A : Type} (dt : DescriptorType) (SizeOf : A -> Z)
      (flags : Z) (container : list A) (bindings : list DescriptorSetLayoutBinding) (b : Z) :
  0 <= b -> b + size container < 2 ^ 32 ->
  AddBindings dt SizeOf bindings b flags container =
  (bindings ++ number_bindings flags b
                 (map (fun it => (dt, slot_count dt SizeOf it)) container),
   b + size container).
Proof.
  intros Hb Hfit. unfold AddBindings. pose proof (size_nonneg container).
  rewrite firstn_wrap32_all by lia.
  apply AddBindings_loop_layout; assumption.
Qed.

Lemma number_bindings_app (flags : Z) (r1 r2 : list (DescriptorType * Z)) :
  forall base,
    number_bindings flags base (r1 ++ r2) =
    number_bindings flags base r1 ++ number_bindings flags (base + size r1) r2.
Proof.
  induction r1 as [|[t c] r1 IH]; intro base.
  - simpl. unfold size. simpl. rewrite Z.add_0_r. reflexivity.
  - simpl. rewrite IH, size_cons. do 3 f_equal. lia.
Qed.

Lemma number_bindings_length (flags : Z) (rs : list (DescriptorType * Z)) :
  forall base, length (number_bindings flags base rs) = length rs.
Proof.
  induction rs as [|[t c] rs IH]; intro base; simpl; [reflexivity|].
  rewrite IH. reflexivity.
Qed.

Lemma number_bindings_nth (flags : Z) (rs : list (DescriptorType * Z))
      (d : DescriptorSetLayoutBinding) :
  forall base i, (i < length rs)%nat ->
    binding (nth i (number_bindings flags base rs) d) = base + Z.of_nat i.
Proof.
  induction rs as [|[t c] rs IH]; intros base i Hi; simpl in Hi; [lia|].
  destruct i as [|i]; simpl.
  - lia.
  - rewrite IH by lia. lia.
Qed.

Lemma size_declared_resources (entries : ShaderEntries) :
  size (declared_resources entries) = total_resources entries.
Proof.
  unfold declared_resources, total_resources.
  rewrite !size_app, !size_map. lia.
Qed.

Lemma AddBindings_next_pair {A : Type} (dt : DescriptorType) (SizeOf : A -> Z)
      (flags : Z) (container : list A) (bindings : list DescriptorSetLayoutBinding) (b : Z) :
  0 <= b < 2 ^ 32 ->
  exists bindings',
    AddBindings dt SizeOf bindings b flags container =
    (bindings', wrap32 (b + size container)).
Proof.
  intro Hb. exists (fst (AddBindings dt SizeOf bindings b flags container)).
  rewrite <- (AddBindings_next dt SizeOf flags container bindings b Hb).
  apply surjective_pairing.
Qed.

Lemma FillDescriptorLayout_next (ShaderStage : Z -> Z) (entries : ShaderEntries)
      (bindings : list DescriptorSetLayoutBinding) (program_type base_binding : Z) :
  0 <= base_binding < 2 ^ 32 ->
  snd (FillDescriptorLayout ShaderStage entries bindings program_type base_binding) =
  wrap32 (base_binding + total_resources entries).
Proof.
  intro Hb. unfold FillDescriptorLayout.
  set (flags := ShaderStage (GetStageFromProgram program_type)).
  destruct (AddBindings_next_pair eUniformBuffer not_arrayed flags
              (const_buffers entries) bindings base_binding Hb) as [b1 ->].
  repeat match goal with
  | |- context [AddBindings ?dt ?sz ?bs (wrap32 ?x) ?fl ?c] =>
      destruct (AddBindings_next_pair dt sz fl c bs (wrap32 x) (wrap32_range x))
        as [? ->]
  end.
  cbn [snd]. unfold total_resources.
  repeat (rewrite <- !Z.add_assoc; rewrite wrap32_add_l).
  apply (f_equal wrap32). lia.
Qed.

Lemma FillDescriptorLayout_layout (ShaderStage : Z -> Z) (entries : ShaderEntries)
      (bindings : list DescriptorSetLayoutBinding) (program_type base_binding : Z) :
  0 <= base_binding ->
  base_binding + total_resources entries < 2 ^ 32 ->
  FillDescriptorLayout ShaderStage entries bindings program_type base_binding =
  (bindings ++ number_bindings (ShaderStage (GetStageFromProgram program_type))
                 base_binding (declared_resources entries),
   base_binding + total_resources entries).
Proof.
  intros Hb Hfit. unfold FillDescriptorLayout, total_resources in *.
  set (flags := ShaderStage (GetStageFromProgram program_type)).
  pose proof (size_nonneg (const_buffers entries)).
  pose proof (size_nonneg (global_buffers entries)).
  pose proof (size_nonneg (texel_buffers entries)).
  pose proof (size_nonneg (samplers entries)).
  pose proof (size_nonneg (images entries)).
  rewrite AddBindings_layout by lia.
  rewrite AddBindings_layout by lia.
  rewrite AddBindings_layout by lia.
  rewrite AddBindings_layout by lia.
  rewrite AddBindings_layout by lia.
  unfold declared_resources, slot_count. cbn [DescriptorType_eqb].
  rewrite !number_bindings_app, !size_map, <- !app_assoc.
  apply f_equal2; [reflexivity|lia].
Qed.

(** C6.  FillDescriptorLayout appends the bindings of a stage in the order
    constant buffers, storage buffers, texel buffers, combined image samplers,
    storage images; every declared resource takes one binding slot, a combined
    image sampler with its array size as element count and every other
    resource with one element; the binding indices count up from the base
    binding; the returned next binding is the base binding plus the number of
    declared resources.  The assertion of DecompileShaders,
    old_binding + NumBindings() == base_binding in u32 arithmetic, holds for
    every manifest. *)
Theorem C6_descriptor_layout (ShaderStage : Z -> Z) (entries : ShaderEntries)
        (bindings : list DescriptorSetLayoutBinding) (program_type base_binding : Z) :
  0 <= base_binding < 2 ^ 32 ->
  let result := FillDescriptorLayout ShaderStage entries bindings program_type base_binding in
  wrap32 (base_binding + NumBindings entries) = snd result /\
  (base_binding + total_resources entries < 2 ^ 32 ->
   let slots := number_bindings (ShaderStage (GetStageFromProgram program_type))
                                base_binding (declared_resources entries) in
   fst result = bindings ++ slots /\
   size slots = total_resources entries /\
   snd result - base_binding = total_resources entries /\
   forall i d, (i < length slots)%nat ->
               binding (nth i slots d) = base_binding + Z.of_nat i).
Proof.
  intros Hb result. split.
  - unfold result. rewrite FillDescriptorLayout_next by exact Hb.
    unfold NumBindings. rewrite wrap32_add_r. reflexivity.
  - intros Hfit slots. unfold result.
    rewrite FillDescriptorLayout_layout by lia. cbn [fst snd].
    split; [reflexivity|]. split; [|split].
    + unfold slots, size. rewrite number_bindings_length.
      apply size_declared_resources.
    + lia.
    + intros i d Hi. unfold slots in *.
      rewrite number_bindings_length in Hi.
      apply number_bindings_nth. exact Hi.
Qed.

(* ========================================================================== *)
(*  Properties of the update-template derivation                              *)
(* ========================================================================== *)

Lemma sampler_elements_nonneg (items : list Sampler) :
  sizes_nonneg items -> 0 <= sampler_elements items.
Proof.
  induction 1 as [|s rest Hs _ IH]; simpl; lia.
Qed.

(** AddEntry on a container that is neither texel buffers nor samplers. *)
Lemma AddEntry_group {A : Type} (dt : DescriptorType) (SizeOf : A -> Z)
      (entry_size : Z) (te : list DescriptorUpdateTemplateEntry)
      (b o : Z) (container : list A) :
  dt <> eCombinedImageSampler -> dt <> eUniformTexelBuffer ->
  0 <= entry_size -> 0 <= b -> 0 <= o ->
  b + size container < 2 ^ 32 ->
  o + size container * entry_size < 2 ^ 32 ->
  AddEntry dt SizeOf entry_size te b o container =
  (te ++ template_group dt entry_size (size container) b o,
   b + size container, o + size container * entry_size).
Proof.
  intros Hns Hnt Hes Hb Ho Hfb Hfo. unfold AddEntry, template_group.
  pose proof (size_nonneg container) as Hn.
  assert (0 <= size container * entry_size) by (apply Z.mul_nonneg_nonneg; lia).
  rewrite (wrap32_small (size container)) by lia.
  rewrite (wrap32_small (size container * entry_size)) by lia.
  rewrite (wrap32_small (o + _)) by lia.
  rewrite (wrap32_small (b + _)) by lia.
  destruct dt; try congruence; cbn [DescriptorType_eqb];
    destruct (0 <? size container); rewrite ?app_nil_r; reflexivity.
Qed.

Lemma AddEntry_texels_spec (entry_size : Z) (b o : Z) :
  forall todo i te,
    0 <= entry_size -> 0 <= b -> 0 <= o -> 0 <= i ->
    b + i + Z.of_nat todo < 2 ^ 32 ->
    o + (i + Z.of_nat todo) * entry_size < 2 ^ 32 ->
    AddEntry_texels eUniformTexelBuffer entry_size todo i te b o =
    te ++ template_texels entry_size todo (b + i) (o + i * entry_size).
Proof.
  induction todo as [|todo IH]; intros i te Hes Hb Ho Hi Hfb Hfo.
  - simpl. rewrite app_nil_r. reflexivity.
  - assert (0 <= i * entry_size) by (apply Z.mul_nonneg_nonneg; lia).
    assert (i * entry_size <= (i + Z.of_nat (S todo)) * entry_size)
      by (apply Z.mul_le_mono_nonneg_r; lia).
    assert ((i + 1 + Z.of_nat todo) * entry_size = (i + Z.of_nat (S todo)) * entry_size)
      by (f_equal; lia).
    cbn [AddEntry_texels].
    rewrite (wrap32_small (i + 1)) by lia.
    rewrite (wrap32_small (b + i)) by lia.
    rewrite (wrap32_small (i * entry_size)) by lia.
    rewrite (wrap32_small (o + _)) by lia.
    rewrite IH by lia.
    rewrite <- app_assoc. f_equal.
    unfold template_texels. cbn [seq map app].
    rewrite <- seq_shift, map_map.
    f_equal.
    + f_equal; simpl; lia.
    + apply map_ext. intro k. f_equal; lia.
Qed.

Lemma AddEntry_texel_buffers {A : Type} (SizeOf : A -> Z)
      (entry_size : Z) (te : list DescriptorUpdateTemplateEntry)
      (b o : Z) (container : list A) :
  0 <= entry_size -> 0 <= b -> 0 <= o ->
  b + size container < 2 ^ 32 ->
  o + size container * entry_size < 2 ^ 32 ->
  AddEntry eUniformTexelBuffer SizeOf entry_size te b o container =
  (te ++ template_texels entry_size (length container) b o,
   b + size container, o + size container * entry_size).
Proof.
  intros Hes Hb Ho Hfb Hfo. unfold AddEntry. cbn [DescriptorType_eqb].
  pose proof (size_nonneg container) as Hn.
  assert (0 <= size container * entry_size) by (apply Z.mul_nonneg_nonneg; lia).
  rewrite (wrap32_small (size container)) by lia.
  rewrite (wrap32_small (size container * entry_size)) by lia.
  rewrite (wrap32_small (o + _)) by lia.
  rewrite (wrap32_small (b + _)) by lia.
  unfold size at 1. rewrite Nat2Z.id.
  rewrite AddEntry_texels_spec; try (unfold size in *; lia).
  rewrite Z.add_0_r, Z.mul_0_l, Z.add_0_r. reflexivity.
Qed.

Lemma AddEntry_samplers_spec (entry_size : Z) (items : list Sampler) :
  forall te b o,
    0 <= entry_size -> sizes_nonneg items -> 0 <= b -> 0 <= o ->
    b + size items < 2 ^ 32 ->
    o + sampler_elements items * entry_size < 2 ^ 32 ->
    AddEntry_samplers eCombinedImageSampler Size entry_size items te b o =
    (te ++ template_samplers entry_size items b o,
     b + size items, o + sampler_elements items * entry_size).
Proof.
  induction items as [|s rest IH]; intros te b o Hes Hsz Hb Ho Hfb Hfo.
  - simpl. rewrite app_nil_r. unfold size. simpl.
    apply f_equal2; [apply f_equal2; [reflexivity|lia]|lia].
  - inversion Hsz as [|? ? Hs Hrest]; subst.
    pose proof (sampler_elements_nonneg rest Hrest) as He.
    pose proof (size_nonneg rest) as Hn.
    rewrite size_cons in *. cbn [sampler_elements fold_right] in *.
    fold (sampler_elements rest) in *.
    rewrite Z.mul_add_distr_r in *.
    assert (0 <= Size s * entry_size) by (apply Z.mul_nonneg_nonneg; lia).
    assert (0 <= sampler_elements rest * entry_size) by (apply Z.mul_nonneg_nonneg; lia).
    cbn [AddEntry_samplers].
    rewrite (wrap32_small (b + 1)) by lia.
    rewrite (wrap32_small (Size s * entry_size)) by lia.
    rewrite (wrap32_small (o + _)) by lia.
    rewrite IH by (try assumption; lia).
    rewrite <- app_assoc. cbn [template_samplers app].
    apply f_equal2; [apply f_equal2; [reflexivity|lia]|lia].
Qed.

Lemma AddEntry_combined_image_samplers (entry_size : Z)
      (te : list DescriptorUpdateTemplateEntry) (b o : Z) (container : list Sampler) :
  0 <= entry_size -> sizes_nonneg container -> 0 <= b -> 0 <= o ->
  b + size container < 2 ^ 32 ->
  o + sampler_elements container * entry_size < 2 ^ 32 ->
  AddEntry eCombinedImageSampler Size entry_size te b o container =
  (te ++ template_samplers entry_size container b o,
   b + size container, o + sampler_elements container * entry_size).
Proof.
  intros Hes Hsz Hb Ho Hfb Hfo. unfold AddEntry. cbn [DescriptorType_eqb].
  pose proof (size_nonneg container).
  rewrite firstn_wrap32_all by lia.
  apply AddEntry_samplers_spec; assumption.
Qed.

(** What FillDescriptorUpdateTemplateEntries computes, for any initial values
    of its two counters and without u32 wrap-around: the entries are the
    template of the manifest whose binding indices run from the value passed
    as [offset] and whose byte offsets run from the value passed as [binding];
    the [binding] reference ends advanced by the bytes and the [offset]
    reference by the number of resources. *)
Lemma FillDescriptorUpdateTemplateEntries_spec (entry_size : Z) (entries : ShaderEntries)
      (binding offset : Z) (te : list DescriptorUpdateTemplateEntry) :
  0 <= entry_size -> sizes_nonneg (samplers entries) ->
  0 <= binding -> 0 <= offset ->
  offset + total_resources entries < 2 ^ 32 ->
  binding + total_elements entries * entry_size < 2 ^ 32 ->
  FillDescriptorUpdateTemplateEntries entry_size entries binding offset te =
  (binding + total_elements entries * entry_size,
   offset + total_resources entries,
   te ++ template_of entry_size entries offset binding).
Proof.
  intros Hes Hsz Hb Ho Hfo Hfb.
  unfold FillDescriptorUpdateTemplateEntries, total_resources, total_elements, template_of in *.
  pose proof (size_nonneg (const_buffers entries)).
  pose proof (size_nonneg (global_buffers entries)).
  pose proof (size_nonneg (texel_buffers entries)).
  pose proof (size_nonneg (samplers entries)).
  pose proof (size_nonneg (images entries)).
  pose proof (sampler_elements_nonneg _ Hsz).
  rewrite !Z.mul_add_distr_r in *.
  assert (0 <= size (const_buffers entries) * entry_size)
    by (apply Z.mul_nonneg_nonneg; lia).
  assert (0 <= size (global_buffers entries) * entry_size)
    by (apply Z.mul_nonneg_nonneg; lia).
  assert (0 <= size (texel_buffers entries) * entry_size)
    by (apply Z.mul_nonneg_nonneg; lia).
  assert (0 <= sampler_elements (samplers entries) * entry_size)
    by (apply Z.mul_nonneg_nonneg; lia).
  assert (0 <= size (images entries) * entry_size)
    by (apply Z.mul_nonneg_nonneg; lia).
  rewrite AddEntry_group by (try discriminate; lia).
  rewrite AddEntry_group by (try discriminate; lia).
  rewrite AddEntry_texel_buffers by lia.
  rewrite AddEntry_combined_image_samplers by (try assumption; lia).
  rewrite AddEntry_group by (try discriminate; lia).
  cbv zeta. rewrite <- !app_assoc.
  apply f_equal2; [apply f_equal2; lia|reflexivity].
Qed.

(* ========================================================================== *)
(*  Properties of the pipeline cache                                           *)
(* ========================================================================== *)

Lemma add_trace_nil (s : VKPipelineCache) : add_trace s [] = s.
Proof. destruct s. unfold add_trace. simpl. rewrite app_nil_r. reflexivity. Qed.

Lemma add_trace_app (s : VKPipelineCache) (a b : list Event) :
  add_trace (add_trace s a) b = add_trace s (a ++ b).
Proof. unfold add_trace. simpl. rewrite app_assoc. reflexivity. Qed.

Lemma emit_add_trace (e : Event) (s : VKPipelineCache) :
  emit e s = Some (tt, add_trace s [e]).
Proof. reflexivity. Qed.

(* ---------------- Unregister ---------------- *)

Lemma Unregister_graphics_spec (addr : Z) :
  forall todo finished s,
    Unregister_graphics addr todo finished s =
    Some ((kept_graphics addr todo,
           finished || negb (is_nil (removed_graphics addr todo))),
          add_trace s (finish_events finished (removed_graphics addr todo) ++
                       erase_graphics_events (removed_graphics addr todo))).
Proof.
  induction todo as [|[entry pipeline] rest IH]; intros finished s.
  - simpl. unfold ret, finish_events. simpl.
    rewrite andb_false_r, orb_false_r. simpl. rewrite add_trace_nil. reflexivity.
  - cbn [Unregister_graphics]. unfold kept_graphics, removed_graphics in *.
    cbn [filter fst]. fold (references addr entry).
    destruct (references addr entry) eqn:Href; cbn [negb].
    + unfold bind, Finish. destruct finished; cbn [negb andb orb is_nil].
      * unfold ret. rewrite emit_add_trace, IH. cbn [orb].
        rewrite add_trace_app. unfold finish_events. cbn [negb andb app].
        reflexivity.
      * unfold bind, ret. rewrite !emit_add_trace, IH. cbn [orb].
        rewrite !add_trace_app. unfold finish_events. cbn [negb andb app].
        reflexivity.
    + unfold bind. rewrite IH. unfold ret. reflexivity.
Qed.

Lemma Unregister_compute_spec (addr : Z) :
  forall todo finished s,
    Unregister_compute addr todo finished s =
    Some ((kept_compute addr todo,
           finished || negb (is_nil (removed_compute addr todo))),
          add_trace s (finish_events finished (removed_compute addr todo) ++
                       erase_compute_events (removed_compute addr todo))).
Proof.
  induction todo as [|[entry pipeline] rest IH]; intros finished s.
  - simpl. unfold ret, finish_events. simpl.
    rewrite andb_false_r, orb_false_r. simpl. rewrite add_trace_nil. reflexivity.
  - cbn [Unregister_compute]. unfold kept_compute, removed_compute in *.
    cbn [filter fst].
    destruct (shader entry =? addr) eqn:Href; cbn [negb].
    + unfold bind, Finish. destruct finished; cbn [negb andb orb is_nil].
      * unfold ret. rewrite emit_add_trace, IH. cbn [orb].
        rewrite add_trace_app. unfold finish_events. cbn [negb andb app].
        reflexivity.
      * unfold bind, ret. rewrite !emit_add_trace, IH. cbn [orb].
        rewrite !add_trace_app. unfold finish_events. cbn [negb andb app].
        reflexivity.
    + unfold bind. rewrite IH. unfold ret. reflexivity.
Qed.

Lemma Unregister_spec (object : CachedShader) (s : VKPipelineCache) :
  Unregister object s = Some (tt, Unregister_result object s).
Proof.
  unfold Unregister, bind, read. rewrite Unregister_graphics_spec.
  unfold set_graphics_cache. cbn [compute_cache add_trace].
  rewrite Unregister_compute_spec.
  unfold set_compute_cache, RasterizerCache_Unregister, bind, read, set_map_cache.
  rewrite emit_add_trace.
  unfold Unregister_result, Unregister_events, add_trace. cbn.
  do 2 f_equal. f_equal.
  unfold finish_events.
  destruct (removed_graphics (gpu_addr object) (graphics_cache s)) eqn:Hg;
    destruct (removed_compute (gpu_addr object) (compute_cache s)) eqn:Hc;
    cbn; rewrite <- ?app_assoc; cbn; rewrite ?app_nil_r; reflexivity.
Qed.

Lemma filter_is_erase_graphics (l : list (GraphicsPipelineCacheKey * VKGraphicsPipeline)) :
  filter is_erase (erase_graphics_events l) = erase_graphics_events l.
Proof. induction l as [|kv l IH]; simpl; [reflexivity|]. rewrite IH. reflexivity. Qed.

Lemma filter_is_erase_compute (l : list (ComputePipelineCacheKey * VKComputePipeline)) :
  filter is_erase (erase_compute_events l) = erase_compute_events l.
Proof. induction l as [|kv l IH]; simpl; [reflexivity|]. rewrite IH. reflexivity. Qed.

Lemma filter_is_finish_graphics (l : list (GraphicsPipelineCacheKey * VKGraphicsPipeline)) :
  filter is_finish (erase_graphics_events l) = [].
Proof. induction l as [|kv l IH]; simpl; [reflexivity|exact IH]. Qed.

Lemma filter_is_finish_compute (l : list (ComputePipelineCacheKey * VKComputePipeline)) :
  filter is_finish (erase_compute_events l) = [].
Proof. induction l as [|kv l IH]; simpl; [reflexivity|exact IH]. Qed.

Lemma Unregister_events_erases (object : CachedShader) (s : VKPipelineCache) :
  filter is_erase (Unregister_events object s) =
  erase_graphics_events (removed_graphics (gpu_addr object) (graphics_cache s)) ++
  erase_compute_events (removed_compute (gpu_addr object) (compute_cache s)).
Proof.
  unfold Unregister_events. cbv zeta.
  rewrite !filter_app, filter_is_erase_graphics, filter_is_erase_compute.
  destruct (is_nil _ && is_nil _); simpl; rewrite app_nil_r; reflexivity.
Qed.

Lemma Unregister_events_one_finish (object : CachedShader) (s : VKPipelineCache) :
  (count_finish (Unregister_events object s) <= 1)%nat.
Proof.
  unfold count_finish, Unregister_events. cbv zeta.
  rewrite !filter_app, filter_is_finish_graphics, filter_is_finish_compute.
  destruct (is_nil _ && is_nil _); simpl; lia.
Qed.

Lemma Unregister_events_finish_first (object : CachedShader) (s : VKPipelineCache) :
  erases_after_finish (Unregister_events object s).
Proof.
  unfold erases_after_finish, Unregister_events. cbv zeta.
  intros before e after Heq He.
  destruct (removed_graphics (gpu_addr object) (graphics_cache s)) as [|g rg];
    destruct (removed_compute (gpu_addr object) (compute_cache s)) as [|c rc];
    cbn in Heq.
  - destruct before as [|b before]; cbn in Heq.
    + inversion Heq; subst. discriminate He.
    + inversion Heq as [[Hb Hrest]]. destruct before; discriminate Hrest.
  - destruct before as [|b before]; cbn in Heq; inversion Heq; subst.
    + discriminate He.
    + left. reflexivity.
  - destruct before as [|b before]; cbn in Heq; inversion Heq; subst.
    + discriminate He.
    + left. reflexivity.
  - destruct before as [|b before]; cbn in Heq; inversion Heq; subst.
    + discriminate He.
    + left. reflexivity.
Qed.

(** C3.  One call of Unregister for a shader with GPU address A removes from
    the graphics cache exactly the entries whose key holds A in some stage
    slot and from the compute cache exactly the entries whose key has the
    shader address A, and leaves every other entry as it was; it calls
    scheduler.Finish() at most once, and every removal comes after that
    call. *)
Theorem C3_unregister_purges (object : CachedShader) (s : VKPipelineCache) :
  let A := gpu_addr object in
  exists s' evs,
    Unregister object s = Some (tt, s') /\
    graphics_cache s' =
      filter (fun kv => negb (existsb (Z.eqb A) (shaders (fst kv)))) (graphics_cache s) /\
    compute_cache s' =
      filter (fun kv => negb (shader (fst kv) =? A)) (compute_cache s) /\
    trace s' = trace s ++ evs /\
    filter is_erase evs =
      map (fun kv => EvEraseGraphics (fst kv) (gp_id (snd kv)))
          (filter (fun kv => existsb (Z.eqb A) (shaders (fst kv))) (graphics_cache s)) ++
      map (fun kv => EvEraseCompute (fst kv) (cp_id (snd kv)))
          (filter (fun kv => shader (fst kv) =? A) (compute_cache s)) /\
    (count_finish evs <= 1)%nat /\
    erases_after_finish evs.
Proof.
  intro A. exists (Unregister_result object s), (Unregister_events object s).
  split; [apply Unregister_spec|].
  split; [reflexivity|]. split; [reflexivity|]. split; [reflexivity|].
  split; [apply Unregister_events_erases|].
  split; [apply Unregister_events_one_finish|apply Unregister_events_finish_first].
Qed.

(* ---------------- Keys ---------------- *)

Lemma list_eqb_eq (a b : list Z) : list_eqb a b = true <-> a = b.
Proof.
  revert b. induction a as [|x a IH]; intros [|y b]; simpl; split; intro H;
    try reflexivity; try discriminate.
  - apply andb_prop in H. destruct H as [Hx Hr].
    apply Z.eqb_eq in Hx. apply IH in Hr. subst. reflexivity.
  - inversion H; subst. rewrite Z.eqb_refl. simpl. apply IH. reflexivity.
Qed.

Lemma FixedPipelineState_eqb_eq (a b : FixedPipelineState) :
  FixedPipelineState_eqb a b = true <-> a = b.
Proof.
  unfold FixedPipelineState_eqb. split.
  - intro H. repeat (apply andb_prop in H; destruct H as [H ?]).
    destruct a, b; simpl in *.
    apply Z.eqb_eq in H.
    repeat match goal with
           | H : (_ =? _) = true |- _ => apply Z.eqb_eq in H
           | H : list_eqb _ _ = true |- _ => apply list_eqb_eq in H
           | H : Bool.eqb _ _ = true |- _ => apply Bool.eqb_prop in H
           end.
    subst. reflexivity.
  - intros ->. rewrite !Z.eqb_refl, Bool.eqb_reflx. simpl.
    rewrite !(proj2 (list_eqb_eq _ _) eq_refl). reflexivity.
Qed.

Lemma GraphicsKey_eqb_eq (a b : GraphicsPipelineCacheKey) :
  GraphicsKey_eqb a b = true <-> a = b.
Proof.
  unfold GraphicsKey_eqb. split.
  - intro H. apply andb_prop in H. destruct H as [Hf Hs].
    apply FixedPipelineState_eqb_eq in Hf. apply list_eqb_eq in Hs.
    destruct a, b; simpl in *. subst. reflexivity.
  - intros ->. rewrite (proj2 (FixedPipelineState_eqb_eq _ _) eq_refl).
    rewrite (proj2 (list_eqb_eq _ _) eq_refl). reflexivity.
Qed.

Lemma ComputeKey_eqb_eq (a b : ComputePipelineCacheKey) :
  ComputeKey_eqb a b = true <-> a = b.
Proof.
  unfold ComputeKey_eqb.
  destruct a as [sa ma [[ax ay] az]], b as [sb mb [[bx b_y] bz]]; simpl. split.
  - intro H. rewrite !andb_true_iff, !Z.eqb_eq in H.
    destruct H as [[-> ->] [[-> ->] ->]]. reflexivity.
  - intro H. inversion H; subst. rewrite !Z.eqb_refl. reflexivity.
Qed.

Lemma Z_eqb_true (a b : Z) : (a =? b) = true -> a = b.
Proof. apply Z.eqb_eq. Qed.

Lemma GraphicsKey_eqb_true (a b : GraphicsPipelineCacheKey) :
  GraphicsKey_eqb a b = true -> a = b.
Proof. apply GraphicsKey_eqb_eq. Qed.

Lemma ComputeKey_eqb_true (a b : ComputePipelineCacheKey) :
  ComputeKey_eqb a b = true -> a = b.
Proof. apply ComputeKey_eqb_eq. Qed.

(** Inserting a key that was absent leaves every other lookup as it was. *)
Lemma find_key_insert_absent {K V : Type} (eqb : K -> K -> bool)
      (eqb_true : forall a b, eqb a b = true -> a = b)
      (k k' : K) (v v' : V) (m : list (K * V)) :
  find_key eqb k' m = None -> find_key eqb k m = Some v ->
  find_key eqb k ((k', v') :: m) = Some v.
Proof.
  intros Habsent Hfound. simpl.
  destruct (eqb k' k) eqn:E; [|exact Hfound].
  apply eqb_true in E. subst. congruence.
Qed.

(* ---------------- Requests that do not invalidate ---------------- *)

Lemma extends_refl (s : VKPipelineCache) : extends s s.
Proof.
  constructor; auto.
  exists []. rewrite app_nil_r. split; [reflexivity|constructor].
Qed.

Lemma fresh_event_earlier (s s' : VKPipelineCache) (e : Event) :
  extends s s' -> fresh_event s' e -> fresh_event s e.
Proof.
  intros [Hr Hg Hc _ _ _] Hf. destruct e; simpl in *; try exact Hf.
  - destruct (find_key Z.eqb host (map_cache s)) eqn:E; [|reflexivity].
    apply Hr in E. unfold registered in E. congruence.
  - destruct (find_key Z.eqb host (map_cache s)) eqn:E; [|reflexivity].
    apply Hr in E. unfold registered in E. congruence.
  - destruct (find_key GraphicsKey_eqb key (graphics_cache s)) eqn:E; [|reflexivity].
    apply Hg in E. congruence.
  - destruct (find_key ComputeKey_eqb key (compute_cache s)) eqn:E; [|reflexivity].
    apply Hc in E. congruence.
Qed.

Lemma extends_trans (s1 s2 s3 : VKPipelineCache) :
  extends s1 s2 -> extends s2 s3 -> extends s1 s3.
Proof.
  intros H12 H23.
  pose proof H12 as [Hr1 Hg1 Hc1 (evs1 & Ht1 & Hf1) Hm1 Hs1].
  pose proof H23 as [Hr2 Hg2 Hc2 (evs2 & Ht2 & Hf2) Hm2 Hs2].
  constructor; auto.
  exists (evs1 ++ evs2). split.
  - rewrite Ht2, Ht1, app_assoc. reflexivity.
  - apply Forall_app. split; [exact Hf1|].
    eapply Forall_impl; [|exact Hf2].
    intros e He. eapply fresh_event_earlier; eassumption.
Qed.

(* ---------------- DecompileShaders reads only ---------------- *)

Lemma DecompileShaders_loop_pure (system : System) :
  forall fuel index st s r s',
    DecompileShaders_loop fuel system index st s = Some (r, s') -> s' = s.
Proof.
  induction fuel as [|fuel IH]; intros index st s r s' H.
  - inversion H. reflexivity.
  - cbn [DecompileShaders_loop] in H.
    destruct (index <? MaxShaderProgram); [|inversion H; reflexivity].
    destruct (negb (IsShaderConfigEnabled system index)); [eapply IH; exact H|].
    unfold bind at 1, TryGet in H.
    destruct (find_key Z.eqb _ (map_cache s)) as [u|]; [|discriminate H].
    destruct (FillDescriptorLayout _ _ _ _ _) as [bindings new_binding].
    unfold bind, ASSERT in H.
    destruct (_ =? _); [|discriminate H].
    eapply IH. exact H.
Qed.

Lemma DecompileShaders_pure (system : System) (key : GraphicsPipelineCacheKey)
      (s s' : VKPipelineCache) (r : SPIRVProgram * list DescriptorSetLayoutBinding) :
  DecompileShaders system key s = Some (r, s') -> s' = s.
Proof.
  unfold DecompileShaders. intro H.
  unfold bind at 1 in H.
  destruct (topology (fixed_state key) =? PrimitiveTopology_Points).
  - unfold bind at 1, ASSERT in H.
    destruct (float_nonzero _); [|discriminate H].
    unfold ret at 1 2 in H. unfold bind in H.
    destruct (DecompileShaders_loop _ _ _ _ s) as [[st s1]|] eqn:E; [|discriminate H].
    apply DecompileShaders_loop_pure in E. inversion H. subst. reflexivity.
  - unfold ret at 1 in H. unfold bind in H.
    destruct (DecompileShaders_loop _ _ _ _ s) as [[st s1]|] eqn:E; [|discriminate H].
    apply DecompileShaders_loop_pure in E. inversion H. subst. reflexivity.
Qed.

(* ---------------- GetGraphicsPipeline ---------------- *)

Lemma GetGraphicsPipeline_outcome (system : System) (key : GraphicsPipelineCacheKey)
      (s s1 : VKPipelineCache) (p : nat) :
  GetGraphicsPipeline system key s = Some (p, s1) -> graphics_outcome key s p s1.
Proof.
  unfold GetGraphicsPipeline. unfold bind at 1 2, read. intro H.
  assert (Hslow :
    (set_last_graphics_key key ;;;
     cache <- (fun s0 => Some (graphics_cache s0, s0)) ;;
     match find_key GraphicsKey_eqb key cache with
     | Some entry => set_last_graphics_pipeline (Some (gp_id entry)) ;;; ret (gp_id entry)
     | None =>
         ' (program, bindings) <- DecompileShaders system key ;;
         id <- allocate ;;
         emit (EvCompileGraphics key id) ;;;
         set_graphics_cache
           ((key, {| gp_id := id; gp_key := key; gp_bindings := bindings;
                     gp_program := program |}) :: cache) ;;;
         set_last_graphics_pipeline (Some id) ;;; ret id
     end) s = Some (p, s1) -> graphics_outcome key s p s1).
  { clear H. intro H.
    unfold bind at 1 2, set_last_graphics_key in H. cbn [graphics_cache] in H.
    destruct (find_key GraphicsKey_eqb key (graphics_cache s)) as [e|] eqn:Hfind.
    - inversion H; subst. eapply map_hit; [exact Hfind|reflexivity|reflexivity].
    - unfold bind at 1 in H.
      destruct (DecompileShaders system key _) as [[[program bindings] s2]|] eqn:Hd;
        [|discriminate H].
      apply DecompileShaders_pure in Hd. subst s2.
      inversion H; subst.
      eapply map_miss; [exact Hfind|reflexivity|reflexivity]. }
  destruct (last_graphics_pipeline s) as [q|] eqn:Hlast.
  - destruct (GraphicsKey_eqb (last_graphics_key s) key) eqn:Hkey.
    + inversion H; subst. apply GraphicsKey_eqb_true in Hkey.
      apply memo_hit; [exact Hlast|exact Hkey|reflexivity].
    + apply Hslow. exact H.
  - apply Hslow. exact H.
Qed.

Lemma GraphicsKey_eqb_refl (k : GraphicsPipelineCacheKey) : GraphicsKey_eqb k k = true.
Proof. apply GraphicsKey_eqb_eq. reflexivity. Qed.

Lemma ComputeKey_eqb_refl (k : ComputePipelineCacheKey) : ComputeKey_eqb k k = true.
Proof. apply ComputeKey_eqb_eq. reflexivity. Qed.

(** After GetGraphicsPipeline the memo holds the key and the pipeline it
    returned. *)
Lemma GetGraphicsPipeline_memo (system : System) (key : GraphicsPipelineCacheKey)
      (s s1 : VKPipelineCache) (p : nat) :
  GetGraphicsPipeline system key s = Some (p, s1) ->
  last_graphics_pipeline s1 = Some p /\ last_graphics_key s1 = key.
Proof.
  intro H. apply GetGraphicsPipeline_outcome in H.
  destruct H as [Hl Hk ->| e _ -> ->| program bindings _ -> ->]; simpl; auto.
Qed.

(** The fast path: with the memo on [key], the call returns the memoized
    pipeline and changes nothing. *)
Lemma GetGraphicsPipeline_fast (system : System) (key : GraphicsPipelineCacheKey)
      (s : VKPipelineCache) (p : nat) :
  last_graphics_pipeline s = Some p -> last_graphics_key s = key ->
  GetGraphicsPipeline system key s = Some (p, s).
Proof.
  intros Hl Hk. unfold GetGraphicsPipeline, bind, read.
  rewrite Hl, Hk, GraphicsKey_eqb_refl. reflexivity.
Qed.

Lemma GetGraphicsPipeline_extends (system : System) (key : GraphicsPipelineCacheKey)
      (s s1 : VKPipelineCache) (p : nat) :
  GetGraphicsPipeline system key s = Some (p, s1) -> extends s s1.
Proof.
  intro H. apply GetGraphicsPipeline_outcome in H.
  destruct H as [Hl Hk ->| e Hfind -> ->| program bindings Hfind -> ->].
  - apply extends_refl.
  - constructor; simpl; auto; try discriminate.
    + exists []. rewrite app_nil_r. split; [reflexivity|constructor].
    + intros _ p Hp. simpl in *. inversion Hp; subst. exists e. auto.
  - constructor; simpl; auto; try discriminate.
    + intros k e He. apply find_key_insert_absent; auto using GraphicsKey_eqb_true.
    + exists [EvCompileGraphics key (next_object s)]. split; [reflexivity|].
      constructor; [exact Hfind|constructor].
    + intros _ p Hp. simpl in *. inversion Hp; subst.
      rewrite GraphicsKey_eqb_refl. eexists. split; reflexivity.
Qed.

(** With a valid memo, the pipeline returned for [key] is the one the map
    holds for [key] afterwards. *)
Lemma GetGraphicsPipeline_cached (system : System) (key : GraphicsPipelineCacheKey)
      (s s1 : VKPipelineCache) (p : nat) :
  memo_valid s ->
  GetGraphicsPipeline system key s = Some (p, s1) ->
  exists e, find_key GraphicsKey_eqb key (graphics_cache s1) = Some e /\ gp_id e = p.
Proof.
  intros Hm H. apply GetGraphicsPipeline_outcome in H.
  destruct H as [Hl Hk ->| e Hfind -> ->| program bindings Hfind -> ->].
  - subst key. apply Hm. exact Hl.
  - exists e. simpl. auto.
  - simpl. rewrite GraphicsKey_eqb_refl. eexists. split; reflexivity.
Qed.

Lemma GetGraphicsPipeline_compiles (system : System) (key : GraphicsPipelineCacheKey)
      (s s1 : VKPipelineCache) (p : nat) :
  GetGraphicsPipeline system key s = Some (p, s1) ->
  exists evs, trace s1 = trace s ++ evs /\ (compiles_of key evs <= 1)%nat.
Proof.
  intro H. apply GetGraphicsPipeline_outcome in H.
  destruct H as [Hl Hk ->| e Hfind -> ->| program bindings Hfind -> ->].
  - exists []. rewrite app_nil_r. split; [reflexivity|unfold compiles_of; simpl; lia].
  - exists []. simpl. rewrite app_nil_r. split; [reflexivity|unfold compiles_of; simpl; lia].
  - eexists. split; [reflexivity|]. unfold compiles_of. simpl.
    destruct (GraphicsKey_eqb key key); simpl; lia.
Qed.

(** Events that are fresh for a cache holding [key] do not compile [key]. *)
Lemma fresh_no_compile (key : GraphicsPipelineCacheKey) (s : VKPipelineCache)
      (e : VKGraphicsPipeline) (evs : list Event) :
  find_key GraphicsKey_eqb key (graphics_cache s) = Some e ->
  Forall (fresh_event s) evs -> compiles_of key evs = 0%nat.
Proof.
  intros Hfind Hf. unfold compiles_of.
  induction Hf as [|ev evs Hev _ IH]; [reflexivity|].
  simpl. destruct ev; try exact IH.
  destruct (GraphicsKey_eqb key0 key) eqn:E; [|exact IH].
  apply GraphicsKey_eqb_true in E. subst. simpl in Hev. congruence.
Qed.

(* ---------------- GetShaders ---------------- *)

Lemma GetShaders_body_outcome (system : System) (index : Z)
      (arr arr' : list (option CachedShader)) (s s' : VKPipelineCache) :
  GetShaders_body system index arr s = Some (arr', s') ->
  shader_outcome system index arr s arr' s'.
Proof.
  unfold GetShaders_body. intro H.
  destruct (IsShaderConfigEnabled system index) eqn:Hen; cbn [negb] in H.
  - unfold bind at 1, TryGet in H. fold (host_of system index) in H.
    destruct (find_key Z.eqb (host_of system index) (map_cache s)) as [u|] eqn:Hfind.
    + inversion H; subst. eapply registry_hit; eauto.
    + destruct (GpuToCpuAddress (memory_manager system) (GetShaderAddress system index))
        as [cpu|]; [|discriminate H].
      inversion H; subst.
      eapply registry_miss; [exact Hen|exact Hfind|..].
      2: reflexivity.
      * reflexivity.
      * unfold registered_state. simpl. rewrite <- app_assoc. reflexivity.
  - inversion H; subst. apply slot_disabled; auto.
Qed.

Lemma registered_state_extends (s : VKPipelineCache) (u : CachedShader) :
  find_key Z.eqb (host_ptr u) (map_cache s) = None ->
  extends s (registered_state s u).
Proof.
  intro Hfind. constructor; simpl; auto.
  - intros h v Hv. unfold registered in *. simpl map_cache.
    apply find_key_insert_absent; auto using Z_eqb_true.
  - eexists. split; [reflexivity|].
    repeat constructor; exact Hfind.
Qed.

Lemma GetShaders_body_extends (system : System) (index : Z)
      (arr arr' : list (option CachedShader)) (s s' : VKPipelineCache) :
  GetShaders_body system index arr s = Some (arr', s') -> extends s s'.
Proof.
  intro H. apply GetShaders_body_outcome in H.
  destruct H as [_ _ ->|u _ _ _ ->|u _ Hfind Hu _ ->]; try apply extends_refl.
  apply registered_state_extends. rewrite Hu. exact Hfind.
Qed.

(** A registered backing pointer is a hit: the iteration stores the
    registered unit and changes nothing in the cache. *)
Lemma GetShaders_body_hit (system : System) (index : Z)
      (arr : list (option CachedShader)) (s : VKPipelineCache) (u : CachedShader) :
  IsShaderConfigEnabled system index = true ->
  registered (host_of system index) u s ->
  GetShaders_body system index arr s = Some (array_set arr (Z.to_nat index) (Some u), s).
Proof.
  intros Hen Hreg. unfold GetShaders_body. rewrite Hen. cbn [negb].
  unfold bind, TryGet. fold (host_of system index).
  unfold registered in Hreg. rewrite Hreg. reflexivity.
Qed.

Lemma GetShaders_body_disabled (system : System) (index : Z)
      (arr : list (option CachedShader)) (s : VKPipelineCache) :
  IsShaderConfigEnabled system index = false ->
  GetShaders_body system index arr s = Some (arr, s).
Proof. intro Hen. unfold GetShaders_body. rewrite Hen. reflexivity. Qed.

Lemma array_set_length {A : Type} (a : list A) (i : nat) (v : A) :
  length (array_set a i v) = length a.
Proof.
  revert i. induction a as [|x a IH]; intros [|i]; simpl; auto.
Qed.

Lemma array_set_same {A : Type} (a : list A) (i : nat) (v d : A) :
  (i < length a)%nat -> nth i (array_set a i v) d = v.
Proof.
  revert i. induction a as [|x a IH]; intros [|i] Hi; simpl in *; try lia; auto.
  apply IH. lia.
Qed.

Lemma array_set_other {A : Type} (a : list A) (i j : nat) (v d : A) :
  i <> j -> nth j (array_set a i v) d = nth j a d.
Proof.
  revert i j. induction a as [|x a IH]; intros [|i] [|j] Hne; simpl; auto; try lia.
Qed.

(** What a run of the loop of GetShaders over [indices] leaves: the cache is
    extended, every enabled slot holds the unit registered for its backing
    pointer, and the other slots are untouched. *)
Lemma GetShaders_loop_spec (system : System) :
  forall indices arr s arr' s',
    NoDup indices ->
    (forall i, In i indices -> 0 <= i < size arr) ->
    GetShaders_loop system indices arr s = Some (arr', s') ->
    extends s s' /\ length arr' = length arr /\
    (forall i, In i indices -> IsShaderConfigEnabled system i = true ->
               exists u, nth (Z.to_nat i) arr' None = Some u /\
                         registered (host_of system i) u s') /\
    (forall n, (forall i, In i indices -> IsShaderConfigEnabled system i = true ->
                          Z.to_nat i <> n) ->
               nth n arr' None = nth n arr None).
Proof.
  induction indices as [|index rest IH]; intros arr s arr' s' Hnd Hrange H.
  - inversion H; subst. split; [apply extends_refl|]. split; [reflexivity|].
    split; [intros i []|reflexivity].
  - cbn [GetShaders_loop] in H. unfold bind in H.
    destruct (GetShaders_body system index arr s) as [[arr1 s1]|] eqn:Hbody;
      [|discriminate H].
    inversion Hnd as [|? ? Hnotin Hnd']; subst.
    pose proof (GetShaders_body_extends _ _ _ _ _ _ Hbody) as Hext1.
    pose proof (GetShaders_body_outcome _ _ _ _ _ _ Hbody) as Hout.
    assert (Hlen1 : length arr1 = length arr).
    { destruct Hout as [_ -> _|u _ _ -> _|u _ _ _ -> _];
        rewrite ?array_set_length; reflexivity. }
    destruct (IH arr1 s1 arr' s' Hnd') as (Hext & Hlen & Hset & Hframe).
    { intros i Hi. unfold size. rewrite Hlen1. apply Hrange. right. exact Hi. }
    { exact H. }
    split; [eapply extends_trans; eassumption|].
    split; [congruence|]. split.
    + intros i [->|Hi] Hen.
      * assert (Hi : 0 <= i < size arr) by (apply Hrange; left; reflexivity).
        rewrite Hframe.
        -- destruct Hout as [Hdis _ _|u _ Hreg -> ->|u _ Hfind Hu -> ->];
             [congruence| |].
           ++ exists u. split.
              ** apply array_set_same. unfold size in Hi. lia.
              ** apply Hext. exact Hreg.
           ++ exists u. split.
              ** apply array_set_same. unfold size in Hi. lia.
              ** apply Hext. unfold registered. simpl. rewrite <- Hu, Z.eqb_refl.
                 reflexivity.
        -- intros j Hj _ Heq.
           assert (0 <= j < size arr1).
           { unfold size. rewrite Hlen1. apply Hrange. right. exact Hj. }
           assert (j = i) by lia. subst. contradiction.
      * apply Hset; assumption.
    + intros n Hn. rewrite Hframe.
      * destruct Hout as [_ -> _|u Hen _ -> _|u Hen _ _ -> _]; [reflexivity| |];
          apply array_set_other; apply Hn; auto; left; reflexivity.
      * intros i Hi Hen. apply Hn; [right; exact Hi|exact Hen].
Qed.

(** When every enabled slot is registered, the loop succeeds and leaves the
    cache as it was. *)
Lemma GetShaders_loop_hits (system : System) (s : VKPipelineCache) :
  forall indices arr,
    (forall i, In i indices -> IsShaderConfigEnabled system i = true ->
               exists u, registered (host_of system i) u s) ->
    exists arr', GetShaders_loop system indices arr s = Some (arr', s).
Proof.
  induction indices as [|index rest IH]; intros arr Hreg.
  - exists arr. reflexivity.
  - cbn [GetShaders_loop]. unfold bind.
    destruct (IsShaderConfigEnabled system index) eqn:Hen.
    + destruct (Hreg index (or_introl eq_refl) Hen) as [u Hu].
      rewrite (GetShaders_body_hit system index arr s u Hen Hu).
      apply IH. intros i Hi. apply Hreg. right. exact Hi.
    + rewrite (GetShaders_body_disabled system index arr s Hen).
      apply IH. intros i Hi. apply Hreg. right. exact Hi.
Qed.

Lemma program_indices_NoDup : NoDup program_indices.
Proof.
  unfold program_indices.
  repeat (constructor; [simpl; intuition discriminate|]). constructor.
Qed.

Lemma program_indices_range (i : Z) :
  In i program_indices <-> 0 <= i < MaxShaderProgram.
Proof.
  unfold program_indices, MaxShaderProgram. simpl. lia.
Qed.

Lemma shaders_state_extends (s : VKPipelineCache) (v : list (option CachedShader)) :
  extends s (shaders_state s v).
Proof.
  constructor; simpl; auto.
  exists []. rewrite app_nil_r. split; [reflexivity|constructor].
Qed.

Lemma GetShaders_inv (system : System) (s s' : VKPipelineCache)
      (arr : list (option CachedShader)) :
  GetShaders system s = Some (arr, s') ->
  exists s1,
    GetShaders_loop system program_indices (repeat None (Z.to_nat MaxShaderProgram)) s
    = Some (arr, s1) /\ s' = shaders_state s1 arr.
Proof.
  unfold GetShaders, bind. intro H.
  destruct (GetShaders_loop system program_indices _ s) as [[arr1 s1]|]; [|discriminate H].
  inversion H; subst. exists s1. split; reflexivity.
Qed.

Lemma GetShaders_spec (system : System) (s s' : VKPipelineCache)
      (arr : list (option CachedShader)) :
  GetShaders system s = Some (arr, s') ->
  extends s s' /\ length arr = 6%nat /\
  (forall i, 0 <= i < MaxShaderProgram ->
     if IsShaderConfigEnabled system i
     then exists u, nth (Z.to_nat i) arr None = Some u /\ registered (host_of system i) u s'
     else nth (Z.to_nat i) arr None = None).
Proof.
  intro H. apply GetShaders_inv in H. destruct H as (s1 & Hloop & ->).
  apply GetShaders_loop_spec in Hloop.
  - destruct Hloop as (Hext & Hlen & Hset & Hframe).
    split; [eapply extends_trans; [exact Hext|apply shaders_state_extends]|].
    split; [rewrite Hlen; reflexivity|].
    intros i Hi. destruct (IsShaderConfigEnabled system i) eqn:Hen.
    + apply Hset; [apply program_indices_range; exact Hi|exact Hen].
    + rewrite Hframe.
      * unfold MaxShaderProgram in *.
        assert (Hn : (Z.to_nat i < 6)%nat) by lia.
        destruct (Z.to_nat i) as [|[|[|[|[|[|n]]]]]]; try reflexivity. lia.
      * intros j Hj Hjen Heq. apply program_indices_range in Hj.
        assert (j = i) by (unfold MaxShaderProgram in *; lia). congruence.
  - apply program_indices_NoDup.
  - intros i Hi. apply program_indices_range in Hi. unfold size. simpl. exact Hi.
Qed.

(** Repeating GetShaders on a cache that was only extended since returns the
    same array of units and leaves the registry and the trace as they are. *)
Lemma GetShaders_again (system : System) (s s1 s2 : VKPipelineCache)
      (arr : list (option CachedShader)) :
  GetShaders system s = Some (arr, s1) -> extends s1 s2 ->
  GetShaders system s2 = Some (arr, shaders_state s2 arr).
Proof.
  intros H Hext. apply GetShaders_spec in H. destruct H as (_ & Hlen & Hslots).
  assert (Hreg : forall i, In i program_indices -> IsShaderConfigEnabled system i = true ->
                           exists u, registered (host_of system i) u s2).
  { intros i Hi Hen. apply program_indices_range in Hi.
    specialize (Hslots i Hi). rewrite Hen in Hslots.
    destruct Hslots as (u & _ & Hu). exists u. apply Hext. exact Hu. }
  destruct (GetShaders_loop_hits system s2 program_indices
              (repeat None (Z.to_nat MaxShaderProgram)) Hreg) as [arr2 Hloop].
  pose proof Hloop as Hspec. apply GetShaders_loop_spec in Hspec.
  2: apply program_indices_NoDup.
  2: { intros i Hi. apply program_indices_range in Hi. unfold size. simpl. exact Hi. }
  destruct Hspec as (_ & Hlen2 & Hset2 & Hframe2).
  assert (Heq : arr2 = arr).
  { apply (nth_ext _ _ None None).
    - rewrite Hlen2, Hlen. reflexivity.
    - intros n Hn. rewrite Hlen2 in Hn. simpl in Hn.
      assert (Hi : 0 <= Z.of_nat n < MaxShaderProgram) by (unfold MaxShaderProgram; lia).
      specialize (Hslots (Z.of_nat n) Hi). rewrite Nat2Z.id in Hslots.
      destruct (IsShaderConfigEnabled system (Z.of_nat n)) eqn:Hen.
      + destruct Hslots as (u & Hu & Hru).
        destruct (Hset2 (Z.of_nat n)) as (u2 & Hu2 & Hru2);
          [apply program_indices_range; exact Hi|exact Hen|].
        rewrite Nat2Z.id in Hu2. apply Hext in Hru.
        unfold registered in *. congruence.
      + rewrite Hslots, Hframe2.
        * destruct n as [|[|[|[|[|[|n]]]]]]; try reflexivity. lia.
        * intros j Hj Hjen Hjn. apply program_indices_range in Hj.
          assert (j = Z.of_nat n) by lia. congruence. }
  subst arr2. unfold GetShaders, bind. rewrite Hloop. reflexivity.
Qed.

(* ---------------- GetComputePipeline ---------------- *)

Lemma GetComputePipeline_outcome (system : System) (key : ComputePipelineCacheKey)
      (s s1 : VKPipelineCache) (p : nat) :
  GetComputePipeline system key s = Some (p, s1) -> compute_outcome system key s p s1.
Proof.
  unfold GetComputePipeline. unfold bind at 1, read. intro H.
  destruct (find_key ComputeKey_eqb key (compute_cache s)) as [e|] eqn:Hfind.
  - inversion H; subst. eapply compute_hit; eauto.
  - unfold bind at 1, TryGet in H. fold (compute_host system key) in H.
    destruct (find_key Z.eqb (compute_host system key) (map_cache s)) as [u|] eqn:Hreg.
    + inversion H; subst.
      eapply compute_miss_registered; [exact Hfind|exact Hreg|reflexivity|reflexivity].
    + destruct (GpuToCpuAddress (memory_manager system) (shader key)) as [cpu|];
        [|discriminate H].
      inversion H; subst.
      match goal with
      | |- compute_outcome _ _ _ _ (Build_VKPipelineCache ((_, ?u0) :: _) _ _ _ _ _ _ _) =>
          apply (compute_miss_new system key s _ _ u0)
      end; try reflexivity; try assumption.
      unfold compute_state, registered_state, compute_entry. simpl.
      rewrite <- !app_assoc. reflexivity.
Qed.

Lemma compute_state_extends (s : VKPipelineCache) (key : ComputePipelineCacheKey)
      (entry : VKComputePipeline) :
  find_key ComputeKey_eqb key (compute_cache s) = None ->
  extends s (compute_state s key entry).
Proof.
  intro Hfind. constructor; simpl; auto.
  - intros k e He. apply find_key_insert_absent; auto using ComputeKey_eqb_true.
  - eexists. split; [reflexivity|]. repeat constructor. exact Hfind.
Qed.

Lemma GetComputePipeline_extends (system : System) (key : ComputePipelineCacheKey)
      (s s1 : VKPipelineCache) (p : nat) :
  GetComputePipeline system key s = Some (p, s1) -> extends s s1.
Proof.
  intro H. apply GetComputePipeline_outcome in H.
  destruct H as [e _ _ ->|u Hfind _ _ ->|u Hfind Hreg Hu _ ->].
  - apply extends_refl.
  - apply compute_state_extends. exact Hfind.
  - eapply extends_trans.
    + apply registered_state_extends. rewrite Hu. exact Hreg.
    + apply compute_state_extends. exact Hfind.
Qed.

(** With the backing pointer of the key's shader registered, the compute path
    succeeds, builds no unit and registers nothing. *)
Lemma GetComputePipeline_registered (system : System) (key : ComputePipelineCacheKey)
      (s : VKPipelineCache) (u : CachedShader) :
  registered (compute_host system key) u s ->
  exists p s1 evs,
    GetComputePipeline system key s = Some (p, s1) /\
    trace s1 = trace s ++ evs /\ Forall no_translation evs /\
    map_cache s1 = map_cache s.
Proof.
  intro Hreg. unfold GetComputePipeline. unfold bind at 1, read.
  destruct (find_key ComputeKey_eqb key (compute_cache s)) as [e|] eqn:Hfind.
  - exists (cp_id e), s, []. rewrite app_nil_r. repeat split. constructor.
  - unfold bind at 1, TryGet. fold (compute_host system key).
    unfold registered in Hreg. rewrite Hreg.
    eexists _, _, [_]. split; [reflexivity|]. simpl.
    split; [reflexivity|]. split; [|reflexivity].
    repeat constructor.
Qed.

(** A miss of the compute path leaves the backing pointer registered. *)
Lemma GetComputePipeline_registers (system : System) (key : ComputePipelineCacheKey)
      (s s1 : VKPipelineCache) (p : nat) :
  GetComputePipeline system key s = Some (p, s1) ->
  find_key ComputeKey_eqb key (compute_cache s) = None ->
  exists u, registered (compute_host system key) u s1.
Proof.
  intros H Hmiss. apply GetComputePipeline_outcome in H.
  destruct H as [e He _ _|u _ Hreg _ ->|u _ _ Hu _ ->].
  - congruence.
  - exists u. exact Hreg.
  - exists u. unfold registered. simpl. rewrite Hu, Z.eqb_refl. reflexivity.
Qed.

(* ---------------- Sequences of requests ---------------- *)

Lemma perform_extends (r : Request) (s s' : VKPipelineCache) :
  perform r s = Some (tt, s') -> extends s s'.
Proof.
  destruct r as [system|system key|system key]; unfold perform, bind; intro H.
  - destruct (GetShaders system s) as [[arr s1]|] eqn:E; [|discriminate H].
    inversion H; subst. apply GetShaders_spec in E. apply E.
  - destruct (GetGraphicsPipeline system key s) as [[p s1]|] eqn:E; [|discriminate H].
    inversion H; subst. eapply GetGraphicsPipeline_extends. exact E.
  - destruct (GetComputePipeline system key s) as [[p s1]|] eqn:E; [|discriminate H].
    inversion H; subst. eapply GetComputePipeline_extends. exact E.
Qed.

Lemma perform_all_extends (rs : list Request) :
  forall s s', perform_all rs s = Some (tt, s') -> extends s s'.
Proof.
  induction rs as [|r rest IH]; intros s s' H.
  - inversion H; subst. apply extends_refl.
  - cbn [perform_all] in H. unfold bind in H.
    destruct (perform r s) as [[[] s1]|] eqn:E; [|discriminate H].
    eapply extends_trans; [eapply perform_extends; exact E|apply IH; exact H].
Qed.

(** Two calls of GetGraphicsPipeline with keys that are equal by value: when
    the second call follows the first directly, its key is the most recently
    returned key, the memoized pipeline is returned and the cache, its map
    included, is left as it is; the key is compiled at most once over the two
    calls.  With other requests between the two calls (none of them an
    invalidation) and a memo that was valid before the first call, the second
    call returns the object the map holds for the key, without compiling. *)
Lemma GetGraphicsPipeline_equal_keys
        (system system' : System) (k1 k2 : GraphicsPipelineCacheKey)
        (s s1 : VKPipelineCache) (p1 : nat) :
  k1 = k2 ->
  GetGraphicsPipeline system k1 s = Some (p1, s1) ->
  (GetGraphicsPipeline system' k2 s1 = Some (p1, s1) /\
   exists evs, trace s1 = trace s ++ evs /\ (compiles_of k1 evs <= 1)%nat) /\
  (memo_valid s ->
   forall rs s2,
     perform_all rs s1 = Some (tt, s2) ->
     exists s3 evs e,
       GetGraphicsPipeline system' k2 s2 = Some (p1, s3) /\
       find_key GraphicsKey_eqb k2 (graphics_cache s3) = Some e /\ gp_id e = p1 /\
       trace s3 = trace s ++ evs /\ (compiles_of k1 evs <= 1)%nat /\
       trace s3 = trace s2 /\ graphics_cache s3 = graphics_cache s2 /\
       (last_graphics_key s2 = k2 -> s3 = s2)).
Proof.
  intros <- H1.
  destruct (GetGraphicsPipeline_memo _ _ _ _ _ H1) as [Hl1 Hk1].
  destruct (GetGraphicsPipeline_compiles _ _ _ _ _ H1) as (evs1 & Ht1 & Hc1).
  split.
  - split; [apply GetGraphicsPipeline_fast; assumption|].
    exists evs1. auto.
  - intros Hm rs s2 Hrs.
    destruct (GetGraphicsPipeline_cached _ _ _ _ _ Hm H1) as (e & He & Hid).
    pose proof (GetGraphicsPipeline_extends _ _ _ _ _ H1) as Hext1.
    pose proof (perform_all_extends _ _ _ Hrs) as Hext2.
    pose proof (ext_graphics _ _ Hext2 _ _ He) as He2.
    pose proof (ext_memo _ _ Hext2 (ext_memo _ _ Hext1 Hm)) as Hm2.
    destruct (ext_trace _ _ Hext2) as (evs2 & Ht2 & Hf2).
    pose proof (fresh_no_compile k1 s1 e evs2 He Hf2) as Hc2.
    assert (Hcount : (compiles_of k1 (evs1 ++ evs2) <= 1)%nat).
    { unfold compiles_of in *. rewrite filter_app, length_app. lia. }
    assert (Htrace : trace s2 = trace s ++ evs1 ++ evs2).
    { rewrite Ht2, Ht1, app_assoc. reflexivity. }
    destruct (last_graphics_pipeline s2) as [q|] eqn:Hl2.
    + destruct (GraphicsKey_eqb (last_graphics_key s2) k1) eqn:Hk2.
      * apply GraphicsKey_eqb_true in Hk2.
        destruct (Hm2 q Hl2) as (e' & He' & Hq).
        rewrite Hk2, He2 in He'. inversion He'; subst e'.
        exists s2, (evs1 ++ evs2), e.
        split; [apply GetGraphicsPipeline_fast; congruence|].
        repeat split; auto.
      * exists (memo_state s2 k1 p1), (evs1 ++ evs2), e.
        split.
        -- unfold GetGraphicsPipeline, bind, read. rewrite Hl2, Hk2.
           unfold set_last_graphics_key. cbn [graphics_cache].
           rewrite He2. unfold set_last_graphics_pipeline, ret. simpl.
           rewrite Hid. reflexivity.
        -- simpl. repeat split; auto.
           intro Hkey. rewrite Hkey, GraphicsKey_eqb_refl in Hk2. discriminate.
    + exfalso. apply (ext_memo_set _ _ Hext2); congruence.
Qed.

(** C7.  A draw with a vertex and a fragment program compiles and memoizes a
    pipeline; the vertex shader is unregistered, which removes the pipeline's
    entry from the map and leaves the memo; the shaders are fetched again.
    From there, with no invalidation any more: GetGraphicsPipeline with the
    key of the draw returns the memoized pointer, to the removed pipeline; a
    call with another key follows; GetGraphicsPipeline with the key of the
    draw, equal by value to the one two calls before, misses the map,
    compiles and returns another object. *)
Theorem C7_equal_keys_different_pipelines :
  exists p s1 unit s2 arr s3 p1 s4 q s5 p2 s6,
    Sample.draw [1; 5] new_cache = Some (p, s1) /\
    nth 1 (last_shaders s1) None = Some unit /\
    Unregister unit s1 = Some (tt, s2) /\
    GetShaders (Sample.system [1; 5]) s2 = Some (arr, s3) /\
    GetGraphicsPipeline (Sample.system [1; 5]) (Sample.key [1; 5]) s3 = Some (p1, s4) /\
    GetGraphicsPipeline (Sample.system [1; 5]) Scenario.other_key s4 = Some (q, s5) /\
    GetGraphicsPipeline (Sample.system [1; 5]) (Sample.key [1; 5]) s5 = Some (p2, s6) /\
    p1 = p /\
    find_key GraphicsKey_eqb (Sample.key [1; 5]) (graphics_cache s3) = None /\
    p2 <> p1 /\
    compiles_of (Sample.key [1; 5]) (skipn (length (trace s3)) (trace s6)) = 1%nat.
Proof.
  do 12 eexists.
  split; [vm_compute; reflexivity|].
  split; [vm_compute; reflexivity|].
  split; [vm_compute; reflexivity|].
  split; [vm_compute; reflexivity|].
  split; [vm_compute; reflexivity|].
  split; [vm_compute; reflexivity|].
  split; [vm_compute; reflexivity|].
  split; [reflexivity|].
  split; [vm_compute; reflexivity|].
  split; [vm_compute; discriminate|].
  vm_compute. reflexivity.
Qed.

(* ---------------- Shader units are built once ---------------- *)

Lemma requested_registered (h : Z) (u : CachedShader) (s1 : VKPipelineCache) :
  requested h u s1 -> registered h u s1.
Proof.
  intros [system s arr index Hget Hrange Hen Hh Hnth|system key s p _ _ _ Hreg];
    [|exact Hreg].
  apply GetShaders_spec in Hget. destruct Hget as (_ & _ & Hslots).
  specialize (Hslots index Hrange). rewrite Hen in Hslots.
  destruct Hslots as (u' & Hu' & Hreg). rewrite Hh in Hreg. congruence.
Qed.

(** C9.  Once a request has obtained the unit of a backing pointer, any later
    request for that pointer, with no invalidation in between, finds the same
    unit in the registry: the iteration of GetShaders stores that unit and
    leaves the cache as it is, a repeated GetShaders returns the same array,
    and the compute path builds and registers nothing: on a miss of its
    pipeline map the pipeline it builds is built from that unit, from its
    intermediate form and its manifest.  No unit is built or registered for
    the pointer in between either. *)
Theorem C9_shader_unit_reused (h : Z) (u : CachedShader) (s1 s2 : VKPipelineCache)
        (rs : list Request) :
  requested h u s1 ->
  perform_all rs s1 = Some (tt, s2) ->
  registered h u s2 /\
  (exists evs, trace s2 = trace s1 ++ evs /\ Forall (no_translation_of h) evs) /\
  (forall system index arr,
      IsShaderConfigEnabled system index = true -> host_of system index = h ->
      GetShaders_body system index arr s2 =
      Some (array_set arr (Z.to_nat index) (Some u), s2)) /\
  (forall system s0 arr,
      GetShaders system s0 = Some (arr, s1) ->
      exists s3, GetShaders system s2 = Some (arr, s3) /\
                 map_cache s3 = map_cache s2 /\ trace s3 = trace s2 /\
                 next_object s3 = next_object s2) /\
  (forall system key,
      compute_host system key = h ->
      exists p s3 evs,
        GetComputePipeline system key s2 = Some (p, s3) /\
        trace s3 = trace s2 ++ evs /\ Forall no_translation evs /\
        map_cache s3 = map_cache s2 /\ registered h u s3) /\
  (forall system key p s3,
      compute_host system key = h ->
      find_key ComputeKey_eqb key (compute_cache s2) = None ->
      GetComputePipeline system key s2 = Some (p, s3) ->
      p = next_object s2 /\
      s3 = compute_state s2 key (compute_entry system key u (next_object s2))).
Proof.
  intros Hreq Hrs.
  pose proof (requested_registered _ _ _ Hreq) as Hreg1.
  pose proof (perform_all_extends _ _ _ Hrs) as Hext.
  pose proof (ext_registry _ _ Hext _ _ Hreg1) as Hreg2.
  split; [exact Hreg2|]. split; [|split; [|split; [|split]]].
  - destruct (ext_trace _ _ Hext) as (evs & Ht & Hf).
    exists evs. split; [exact Ht|].
    eapply Forall_impl; [|exact Hf].
    intros e He. destruct e; simpl in *; auto;
      intros ->; unfold registered in Hreg1; congruence.
  - intros system index arr Hen Hh. apply GetShaders_body_hit; [exact Hen|].
    rewrite Hh. exact Hreg2.
  - intros system s0 arr Hget. exists (shaders_state s2 arr).
    split; [eapply GetShaders_again; eassumption|]. simpl. auto.
  - intros system key Hh.
    destruct (GetComputePipeline_registered system key s2 u) as (p & s3 & evs & Hc & Ht & Hf & Hm).
    + rewrite Hh. exact Hreg2.
    + exists p, s3, evs. repeat split; auto.
      unfold registered. rewrite Hm. exact Hreg2.
  - intros system key p s3 Hh Hmiss Hcall.
    apply GetComputePipeline_outcome in Hcall.
    destruct Hcall as [e He _ _|u' _ Hreg' -> ->|u' _ Hnone _ _ _].
    + congruence.
    + rewrite Hh in Hreg'. unfold registered in Hreg', Hreg2.
      assert (u' = u) as -> by congruence. split; reflexivity.
    + rewrite Hh in Hnone. unfold registered in Hreg2. congruence.
Qed.

(* ---------------- The memo across an invalidation ---------------- *)

(** The memo of a new cache is valid, and requests keep it valid
    ([ext_memo]); Unregister is what can break it. *)
Lemma new_cache_memo_valid : memo_valid new_cache.
Proof. intros p Hp. discriminate Hp. Qed.

(** Unregister leaves the memoized key and pipeline pointer as they are,
    whatever it removes from the map. *)
Lemma Unregister_keeps_memo (object : CachedShader) (s : VKPipelineCache) :
  exists s', Unregister object s = Some (tt, s') /\
             last_graphics_pipeline s' = last_graphics_pipeline s /\
             last_graphics_key s' = last_graphics_key s.
Proof.
  exists (Unregister_result object s). split; [apply Unregister_spec|].
  split; reflexivity.
Qed.

(** So the call that follows with the memoized key returns the memoized
    pointer, also when its entry is gone. *)
Lemma memo_returned_after_Unregister (system : System) (object : CachedShader)
      (s : VKPipelineCache) (p : nat) :
  last_graphics_pipeline s = Some p ->
  exists s', Unregister object s = Some (tt, s') /\
             GetGraphicsPipeline system (last_graphics_key s) s' = Some (p, s').
Proof.
  intro Hl. destruct (Unregister_keeps_memo object s) as (s' & Hu & Hp & Hk).
  exists s'. split; [exact Hu|].
  apply GetGraphicsPipeline_fast; congruence.
Qed.

(** C1.  A draw with a vertex and a fragment program compiles a pipeline and
    memoizes it; Unregister of the vertex shader removes the entry of that
    pipeline from the map; the next draw with the same key takes the memo
    path: it returns the pointer to the removed pipeline, looks nothing up
    and compiles nothing. *)
Theorem C1_memo_survives_unregister :
  exists p e s1 unit s2 s3,
    Sample.draw [1; 5] new_cache = Some (p, s1) /\
    last_graphics_pipeline s1 = Some p /\
    find_key GraphicsKey_eqb (Sample.key [1; 5]) (graphics_cache s1) = Some e /\
    gp_id e = p /\
    nth 1 (last_shaders s1) None = Some unit /\
    Unregister unit s1 = Some (tt, s2) /\
    find_key GraphicsKey_eqb (Sample.key [1; 5]) (graphics_cache s2) = None /\
    Sample.draw [1; 5] s2 = Some (p, s3) /\
    graphics_cache s3 = [] /\
    compiles_of (Sample.key [1; 5]) (skipn (length (trace s2)) (trace s3)) = 0%nat.
Proof.
  do 6 eexists.
  split; [vm_compute; reflexivity|].
  split; [vm_compute; reflexivity|].
  split; [vm_compute; reflexivity|].
  split; [vm_compute; reflexivity|].
  split; [vm_compute; reflexivity|].
  split; [vm_compute; reflexivity|].
  split; [vm_compute; reflexivity|].
  split; [vm_compute; reflexivity|].
  split; vm_compute; reflexivity.
Qed.

(* ---------------- The update template ---------------- *)

Lemma derive_template_spec (entry_size : Z) :
  0 <= entry_size ->
  forall stages binding offset te,
    Forall (fun entries => sizes_nonneg (samplers entries)) stages ->
    0 <= binding -> 0 <= offset ->
    offset + resources_of stages < 2 ^ 32 ->
    binding + elements_of stages * entry_size < 2 ^ 32 ->
    derive_template entry_size stages binding offset te =
    (binding + elements_of stages * entry_size,
     offset + resources_of stages,
     te ++ template_of_stages entry_size stages offset binding).
Proof.
  intro Hes. induction stages as [|entries rest IH];
    intros binding offset te Hsz Hb Ho Hfo Hfb.
  - cbn. rewrite app_nil_r, !Z.add_0_r. reflexivity.
  - inversion Hsz as [|? ? Hs Hrest]; subst.
    cbn [derive_template resources_of elements_of template_of_stages fold_right] in *.
    fold (resources_of rest) in *. fold (elements_of rest) in *.
    assert (Hr : 0 <= resources_of rest).
    { clear. induction rest as [|e r IHr]; cbn; [lia|].
      fold (resources_of r). unfold total_resources.
      pose proof (size_nonneg (const_buffers e)). pose proof (size_nonneg (global_buffers e)).
      pose proof (size_nonneg (texel_buffers e)). pose proof (size_nonneg (samplers e)).
      pose proof (size_nonneg (images e)). lia. }
    assert (He : 0 <= elements_of rest).
    { clear - Hrest. induction Hrest as [|e r Hs' _ IHr]; cbn; [lia|].
      fold (elements_of r). unfold total_elements.
      pose proof (size_nonneg (const_buffers e)). pose proof (size_nonneg (global_buffers e)).
      pose proof (size_nonneg (texel_buffers e)). pose proof (size_nonneg (images e)).
      pose proof (sampler_elements_nonneg _ Hs'). lia. }
    assert (Hr1 : 0 <= total_resources entries).
    { unfold total_resources.
      pose proof (size_nonneg (const_buffers entries)).
      pose proof (size_nonneg (global_buffers entries)).
      pose proof (size_nonneg (texel_buffers entries)).
      pose proof (size_nonneg (samplers entries)).
      pose proof (size_nonneg (images entries)). lia. }
    assert (He1 : 0 <= total_elements entries).
    { unfold total_elements.
      pose proof (size_nonneg (const_buffers entries)).
      pose proof (size_nonneg (global_buffers entries)).
      pose proof (size_nonneg (texel_buffers entries)).
      pose proof (size_nonneg (images entries)).
      pose proof (sampler_elements_nonneg _ Hs). lia. }
    rewrite Z.mul_add_distr_r in Hfb.
    assert (0 <= total_elements entries * entry_size) by (apply Z.mul_nonneg_nonneg; lia).
    assert (0 <= elements_of rest * entry_size) by (apply Z.mul_nonneg_nonneg; lia).
    rewrite FillDescriptorUpdateTemplateEntries_spec by (try assumption; lia).
    rewrite IH by (try assumption; lia).
    rewrite <- app_assoc, Z.mul_add_distr_r.
    apply f_equal2; [apply f_equal2; lia|reflexivity].
Qed.

Lemma slots_from_S (b : Z) (dt : DescriptorType) (n : nat) :
  slots_from b dt (S n) = (b, dt, 1) :: slots_from (b + 1) dt n.
Proof.
  unfold slots_from. cbn [seq map]. rewrite <- seq_shift, map_map.
  f_equal; [rewrite Z.add_0_r; reflexivity|].
  apply map_ext. intro i. do 2 f_equal. lia.
Qed.

Lemma slots_of_plain (flags : Z) (dt : DescriptorType) {A : Type} (l : list A) :
  forall b,
    map slot_of (number_bindings flags b (map (fun _ => (dt, 1)) l)) =
    slots_from b dt (length l).
Proof.
  induction l as [|x l IH]; intro b; [reflexivity|].
  cbn [map number_bindings length]. rewrite slots_from_S, IH. reflexivity.
Qed.

Lemma slots_written_group (dt : DescriptorType) (entry_size count b o : Z) :
  DescriptorType_eqb dt eCombinedImageSampler = false ->
  0 <= count ->
  flat_map slots_written (template_group dt entry_size count b o) =
  slots_from b dt (Z.to_nat count).
Proof.
  intros Hdt Hc. unfold template_group.
  destruct (Z.ltb_spec 0 count) as [Hpos|Hzero].
  - cbn [flat_map]. unfold slots_written.
    cbn [tmplDescriptorType dstBinding tmplDescriptorCount]. rewrite Hdt.
    apply app_nil_r.
  - assert (count = 0) as -> by lia. reflexivity.
Qed.

Lemma slots_written_texels (entry_size b o : Z) (l : list nat) :
  flat_map slots_written
    (map (fun i =>
            {| dstBinding := b + Z.of_nat i; dstArrayElement := 0;
               tmplDescriptorCount := 1; tmplDescriptorType := eUniformTexelBuffer;
               offset := o + Z.of_nat i * entry_size; stride := entry_size |}) l) =
  map (fun i => (b + Z.of_nat i, eUniformTexelBuffer, 1)) l.
Proof.
  induction l as [|i l IH]; [reflexivity|].
  cbn [map flat_map]. rewrite IH. unfold slots_written at 1.
  cbn [tmplDescriptorType dstBinding tmplDescriptorCount DescriptorType_eqb].
  change (Z.to_nat 1) with 1%nat. cbn [seq map app].
  rewrite Z.add_0_r. reflexivity.
Qed.

Lemma slots_written_samplers (flags entry_size : Z) (items : list Sampler) :
  forall b o,
    flat_map slots_written (template_samplers entry_size items b o) =
    map slot_of (number_bindings flags b
                   (map (fun s => (eCombinedImageSampler, Size s)) items)).
Proof.
  induction items as [|s items IH]; intros b o; [reflexivity|].
  cbn [template_samplers flat_map map number_bindings]. rewrite IH. reflexivity.
Qed.

(** The template of a manifest, read slot by slot, is the layout of the
    manifest: the same slots in the same order, with the same binding
    indices, kinds and element counts. *)
Lemma template_of_slots (flags entry_size : Z) (entries : ShaderEntries) (b o : Z) :
  flat_map slots_written (template_of entry_size entries b o) =
  map slot_of (number_bindings flags b (declared_resources entries)).
Proof.
  unfold template_of, declared_resources. cbv zeta.
  rewrite !flat_map_app, !number_bindings_app, !map_app, !size_map.
  rewrite !slots_written_group by (try reflexivity; apply size_nonneg).
  unfold template_texels. rewrite slots_written_texels.
  rewrite (slots_written_samplers flags).
  rewrite !(slots_of_plain flags).
  unfold size. rewrite !Nat2Z.id.
  reflexivity.
Qed.

Lemma total_resources_nonneg (entries : ShaderEntries) : 0 <= total_resources entries.
Proof.
  unfold total_resources.
  pose proof (size_nonneg (const_buffers entries)).
  pose proof (size_nonneg (global_buffers entries)).
  pose proof (size_nonneg (texel_buffers entries)).
  pose proof (size_nonneg (samplers entries)).
  pose proof (size_nonneg (images entries)). lia.
Qed.

Lemma resources_of_nonneg (stages : list ShaderEntries) : 0 <= resources_of stages.
Proof.
  induction stages as [|entries rest IH]; cbn; [lia|].
  fold (resources_of rest). pose proof (total_resources_nonneg entries). lia.
Qed.

(** The layout of several stages, slot by slot, is the template of the same
    stages read slot by slot, whatever the entry size and the byte offset of
    the template. *)
Lemma derive_layout_slots (ShaderStage : Z -> Z) (entry_size : Z) :
  forall stages bindings base_binding byte_offset,
    0 <= base_binding ->
    base_binding + resources_of (map snd stages) < 2 ^ 32 ->
    map slot_of (fst (derive_layout ShaderStage stages bindings base_binding)) =
    map slot_of bindings ++
    flat_map slots_written
      (template_of_stages entry_size (map snd stages) base_binding byte_offset).
Proof.
  induction stages as [|[program_type entries] rest IH];
    intros bindings base_binding byte_offset Hb Hfit.
  - cbn. rewrite app_nil_r. reflexivity.
  - cbn [derive_layout map snd resources_of fold_right template_of_stages] in *.
    fold (resources_of (map snd rest)) in *.
    pose proof (total_resources_nonneg entries).
    pose proof (resources_of_nonneg (map snd rest)).
    rewrite FillDescriptorLayout_layout by lia.
    rewrite (IH _ _ (byte_offset + total_elements entries * entry_size)) by lia.
    rewrite map_app, flat_map_app, <- app_assoc.
    rewrite (template_of_slots (ShaderStage (GetStageFromProgram program_type))).
    reflexivity.
Qed.

(** C2.  The derivation of the update template over the manifests of a
    pipeline's stages, both counters starting at 0, produces for each stage
    in turn the entries the claim describes, [template_of]: one entry per
    texel buffer covering one element, one entry per combined image sampler
    with the array size as count, and one entry for all the resources of any
    other kind, present when there is one at least; the first field is the
    running binding index and the offset field the running byte offset, both
    carried from stage to stage.  Read slot by slot, the template is the
    binding layout of the same stages: the same slots in the same order, with
    the same binding indices, kinds and element counts. *)
Theorem C2_template_mirrors_layout (ShaderStage : Z -> Z) (entry_size : Z)
        (stages : list (Z * ShaderEntries)) :
  0 <= entry_size ->
  Forall (fun entries => sizes_nonneg (samplers entries)) (map snd stages) ->
  resources_of (map snd stages) < 2 ^ 32 ->
  elements_of (map snd stages) * entry_size < 2 ^ 32 ->
  let template := snd (derive_template entry_size (map snd stages) 0 0 []) in
  let layout := fst (derive_layout ShaderStage stages [] 0) in
  template = template_of_stages entry_size (map snd stages) 0 0 /\
  flat_map slots_written template = map slot_of layout.
Proof.
  intros Hes Hsz Hres Hel template layout. subst template layout.
  rewrite derive_template_spec by (try assumption; lia).
  cbn [snd app]. split; [reflexivity|].
  rewrite (derive_layout_slots ShaderStage entry_size stages [] 0 0) by lia.
  reflexivity.
Qed.

Lemma C2_witness :
  snd (derive_template 24 (map snd Scenario.two_stages) 0 0 []) =
  template_of_stages 24 (map snd Scenario.two_stages) 0 0 /\
  flat_map slots_written (snd (derive_template 24 (map snd Scenario.two_stages) 0 0 [])) =
  map slot_of (fst (derive_layout (fun stage => 2 ^ stage) Scenario.two_stages [] 0)).
Proof.
  apply (C2_template_mirrors_layout (fun stage => 2 ^ stage) 24 Scenario.two_stages).
  - lia.
  - simpl. unfold sizes_nonneg. repeat constructor; simpl; lia.
  - vm_compute. reflexivity.
  - vm_compute. reflexivity.
Defined.

(** The two references are crossed at the five AddEntry calls: the one named
    [offset] counts the bindings and the one named [binding] the bytes.  A
    derivation that starts both at 0 does not see it; a call handed 1 and 0
    puts the 0 into the first field and the 1 into the offset field. *)
Remark FillDescriptorUpdateTemplateEntries_crossed :
  FillDescriptorUpdateTemplateEntries 24
    {| const_buffers := [{| cbuf_index := 0 |}]; global_buffers := [];
       texel_buffers := []; samplers := []; images := [] |}
    1 0 [] =
  (25, 1,
   [{| dstBinding := 0; dstArrayElement := 0; tmplDescriptorCount := 1;
       tmplDescriptorType := eUniformBuffer; offset := 1; stride := 24 |}]).
Proof. vm_compute. reflexivity. Qed.

(* ---------------- The shader code fetch ---------------- *)

Lemma map_zero_repeat (n : nat) : map (fun _ : Z => 0) (repeat 0 n) = repeat 0 n.
Proof. induction n as [|n IH]; simpl; [reflexivity|]. rewrite IH. reflexivity. Qed.

(** C8 (as amended).  With a null backing pointer GetShaderCode returns the
    zero-filled buffer of MAX_PROGRAM_LENGTH words as it is: the length
    estimator is not applied.  With a backing pointer it returns the words
    read from memory, cut to the length CalculateProgramSize gives. *)
Theorem C8_null_pointer_untrimmed (MAX_PROGRAM_LENGTH : nat)
        (memory_manager : MemoryManager) (gpu_addr : Z) (is_compute : bool) :
  GetShaderCode MAX_PROGRAM_LENGTH memory_manager gpu_addr nullptr is_compute
  = repeat 0 MAX_PROGRAM_LENGTH /\
  forall host_ptr, host_ptr <> nullptr ->
    let read := ReadBlockUnsafe memory_manager gpu_addr MAX_PROGRAM_LENGTH in
    GetShaderCode MAX_PROGRAM_LENGTH memory_manager gpu_addr host_ptr is_compute
    = resize read (CalculateProgramSize read is_compute).
Proof.
  split.
  - unfold GetShaderCode. rewrite Z.eqb_refl. simpl. apply map_zero_repeat.
  - intros host_ptr Hnull read. unfold GetShaderCode.
    apply Z.eqb_neq in Hnull. rewrite Hnull. simpl.
    rewrite repeat_length. reflexivity.
Qed.

(* ---------------- VertexA in DecompileShaders ---------------- *)

(** Every iteration advances [index], so the loop has left by its own
    condition once the fuel covers the slots that remain: more fuel changes
    nothing, and six iterations are enough from index 0. *)
Lemma DecompileShaders_loop_fuel_enough (system : System) :
  forall fuel fuel' index st s,
    MaxShaderProgram - index <= Z.of_nat fuel ->
    MaxShaderProgram - index <= Z.of_nat fuel' ->
    DecompileShaders_loop fuel system index st s =
    DecompileShaders_loop fuel' system index st s.
Proof.
  induction fuel as [|fuel IH]; intros fuel' index st s Hf Hf'.
  - destruct fuel' as [|fuel']; [reflexivity|].
    cbn [DecompileShaders_loop].
    destruct (index <? MaxShaderProgram) eqn:Hlt; [|reflexivity].
    apply Z.ltb_lt in Hlt. lia.
  - destruct fuel' as [|fuel'].
    + cbn [DecompileShaders_loop].
      destruct (index <? MaxShaderProgram) eqn:Hlt; [|reflexivity].
      apply Z.ltb_lt in Hlt. lia.
    + cbn [DecompileShaders_loop].
      destruct (index <? MaxShaderProgram) eqn:Hlt; [|reflexivity].
      destruct (negb (IsShaderConfigEnabled system index)); [apply IH; lia|].
      unfold bind at 1 3, TryGet.
      destruct (find_key Z.eqb _ (map_cache s)) as [u|]; [|reflexivity].
      destruct (FillDescriptorLayout _ _ _ _ _) as [bindings new_binding].
      unfold bind, ASSERT.
      destruct (_ =? _); [|reflexivity].
      unfold ret. apply IH; destruct (index =? ShaderProgram.VertexA); lia.
Qed.

(** With VertexA enabled and its unit [a] registered, the iteration for
    index 0 stores the program of [a] alone in stage slot 0, appends the
    bindings of the manifest of [a], and continues at index 2: the VertexB
    slot is not visited. *)
Lemma DecompileShaders_loop_VertexA (system : System) (fuel : nat)
      (st : DecompileState) (s : VKPipelineCache) (a : CachedShader) :
  IsShaderConfigEnabled system ShaderProgram.VertexA = true ->
  registered (host_of system ShaderProgram.VertexA) a s ->
  0 <= base_binding (ds_specialization st) < 2 ^ 32 ->
  DecompileShaders_loop (S fuel) system ShaderProgram.VertexA st s =
  DecompileShaders_loop fuel system ShaderProgram.TesselationControl
    {| ds_program :=
         array_set (ds_program st) 0
           (Some {| code := Decompile system (shader_ir a) ShaderType.Vertex
                                      (ds_specialization st);
                    spirv_entries := entries a |});
       ds_bindings :=
         fst (FillDescriptorLayout (ShaderStage system) (entries a) (ds_bindings st)
                ShaderProgram.VertexA (base_binding (ds_specialization st)));
       ds_specialization :=
         with_base_binding (ds_specialization st)
           (snd (FillDescriptorLayout (ShaderStage system) (entries a) (ds_bindings st)
                   ShaderProgram.VertexA (base_binding (ds_specialization st)))) |} s.
Proof.
  intros Hen Hreg Hb. cbn [DecompileShaders_loop].
  change (ShaderProgram.VertexA <? MaxShaderProgram) with true. cbv iota.
  rewrite Hen. cbn [negb].
  unfold bind at 1, TryGet. fold (host_of system ShaderProgram.VertexA).
  unfold registered in Hreg. rewrite Hreg.
  pose proof (FillDescriptorLayout_next (ShaderStage system) (entries a) (ds_bindings st)
                ShaderProgram.VertexA _ Hb) as Hnext.
  destruct (FillDescriptorLayout (ShaderStage system) (entries a) (ds_bindings st)
              ShaderProgram.VertexA (base_binding (ds_specialization st)))
    as [bindings new_binding].
  cbn [fst snd] in *. unfold bind, ASSERT. cbn [with_base_binding base_binding].
  assert (Hassert : (wrap32 (base_binding (ds_specialization st) + NumBindings (entries a))
                     =? new_binding) = true).
  { apply Z.eqb_eq. rewrite Hnext. unfold NumBindings. rewrite wrap32_add_r.
    reflexivity. }
  rewrite Hassert. reflexivity.
Qed.

(** C10.  With VertexA and VertexB both enabled, each with its own unit,
    DecompileShaders fills one stage slot, slot 0, and takes the bindings of
    one manifest; the program in slot 0 is the VertexA unit's own program
    and the manifest is the VertexA unit's: nothing of the VertexB unit
    enters the result. *)
Theorem C10_vertex_a_alone_in_slot_0 :
  let system := Sample.system [0; 1] in
  let specialization :=
    {| base_binding := 0; spec_workgroup_size := (0, 0, 0);
       spec_shared_memory_size := 0; spec_point_size := None;
       spec_attribute_types := attribute_types Sample.state;
       spec_ndc_minus_one_to_one := ndc_minus_one_to_one Sample.state |} in
  exists a b s1,
    GetShaders system new_cache = Some ([Some a; Some b; None; None; None; None], s1) /\
    shader_ir a <> shader_ir b /\ entries a <> entries b /\
    DecompileShaders system (Sample.key [0; 1]) s1 =
    Some (([Some {| code := Decompile system (shader_ir a) ShaderType.Vertex specialization;
                    spirv_entries := entries a |};
            None; None; None; None],
           number_bindings (ShaderStage system ShaderType.Vertex) 0
                           (declared_resources (entries a))),
          s1).
Proof.
  intros system specialization. do 3 eexists.
  split; [vm_compute; reflexivity|].
  split; [intro H; vm_compute in H; discriminate H|].
  split; [intro H; vm_compute in H; discriminate H|].
  vm_compute. reflexivity.
Qed.

(* ---------------- Concrete instances ---------------- *)

(** Invalidating a shader used by three graphics pipelines and one compute
    pipeline removes these four entries after a single Finish and keeps the
    two entries that belong to other shaders. *)
Example Unregister_three_graphics_one_compute :
  exists s',
    Unregister (Sample.unit_of 1) Sample.crowded = Some (tt, s') /\
    graphics_cache s' = [Sample.graphics_entry [0; 0x10200; 0; 0; 0; 0x10500] 11] /\
    compute_cache s' = [Sample.compute_entry_at 0x10700 20] /\
    trace s' =
      [EvFinish;
       EvEraseGraphics (Sample.key_with [0; 0x10100; 0; 0; 0; 0x10500]) 10;
       EvEraseGraphics (Sample.key_with [0; 0x10100; 0; 0; 0; 0x10600]) 12;
       EvEraseGraphics (Sample.key_with [0x10100; 0x10300; 0; 0; 0; 0x10500]) 13;
       EvEraseCompute (fst (Sample.compute_entry_at 0x10100 21)) 21;
       EvUnregister (host_ptr (Sample.unit_of 1)) (shader_id (Sample.unit_of 1))].
Proof.
  eexists. split; [vm_compute; reflexivity|].
  split; [vm_compute; reflexivity|].
  split; vm_compute; reflexivity.
Qed.

(** The claim as stated fails here: the sentinel sits at index 0 + 4, the
    checked words before it do not terminate, and the size is 8, not 5. *)
Lemma C4_counterexample :
  word_at Sample.sentinel_in_sched_slot (0 + 4) = self_jumping_branch /\
  (forall i, 0 <= i < 0 + 4 ->
             is_terminator (word_at Sample.sentinel_in_sched_slot i) = false) /\
  CalculateProgramSize Sample.sentinel_in_sched_slot true = 8 /\
  CalculateProgramSize Sample.sentinel_in_sched_slot true <> 0 + 5.
Proof.
  split; [reflexivity|]. split.
  - intros i Hi.
    assert (Hcases : i = 0 \/ i = 1 \/ i = 2 \/ i = 3) by lia.
    destruct Hcases as [->|[->|[->| ->]]]; reflexivity.
  - split; [vm_compute; reflexivity|]. vm_compute. discriminate.
Qed.

Lemma C4_witness :
  CalculateProgramSize Sample.sentinel_at_5 true = 0 + 5 + 1.
Proof.
  apply (C4_sentinel_at_checked_index Sample.sentinel_at_5 true 5).
  - vm_compute. reflexivity.
  - lia.
  - vm_compute. discriminate.
  - vm_compute. reflexivity.
  - reflexivity.
  - intros i Hi Hc.
    assert (Hcases : i = 0 \/ i = 1 \/ i = 2 \/ i = 3 \/ i = 4) by lia.
    destruct Hcases as [->|[->|[->|[->| ->]]]]; try reflexivity;
      exfalso; apply Hc; reflexivity.
Defined.

Lemma C5_witness :
  CalculateProgramSize Sample.sentinel_at_5 true = 5 + 1 /\
  CalculateProgramSize [1; 2; 3] false = 3.
Proof.
  split.
  - apply (proj1 (proj2 (C5_program_size_scan Sample.sentinel_at_5 true
                           ltac:(vm_compute; reflexivity)))).
    split; [unfold size; simpl; lia|]. split; [vm_compute; discriminate|].
    split; [reflexivity|].
    intros i Hi Hc.
    assert (Hcases : i = 0 \/ i = 1 \/ i = 2 \/ i = 3 \/ i = 4) by lia.
    destruct Hcases as [->|[->|[->|[->| ->]]]]; try reflexivity;
      exfalso; apply Hc; reflexivity.
  - apply (proj2 (proj2 (C5_program_size_scan [1; 2; 3] false
                           ltac:(vm_compute; reflexivity)))).
    intros p Hp _. unfold size in Hp. simpl in Hp. lia.
Defined.

(** The manifest with 2 constant buffers, 1 texel buffer, 3 samplers of array
    sizes 1, 1, 2 and 1 storage image takes 7 binding slots. *)
Lemma C6_witness :
  snd (FillDescriptorLayout (fun stage => 2 ^ stage) Sample.stage_manifest [] 1 3) - 3 = 7 /\
  wrap32 (3 + NumBindings Sample.stage_manifest) =
  snd (FillDescriptorLayout (fun stage => 2 ^ stage) Sample.stage_manifest [] 1 3).
Proof.
  destruct (C6_descriptor_layout (fun stage => 2 ^ stage) Sample.stage_manifest [] 1 3
              ltac:(lia)) as [Hassert Hlayout].
  split; [|exact Hassert].
  destruct (Hlayout ltac:(vm_compute; reflexivity)) as (_ & _ & Hnext & _).
  exact Hnext.
Defined.

Lemma C8_witness :
  GetShaderCode 16 Sample.memory 0x10100 nullptr false = repeat 0 16 /\
  GetShaderCode 16 Sample.memory 0x10100 0x110100 false =
  resize (ReadBlockUnsafe Sample.memory 0x10100 16)
         (CalculateProgramSize (ReadBlockUnsafe Sample.memory 0x10100 16) false).
Proof.
  destruct (C8_null_pointer_untrimmed 16 Sample.memory 0x10100 false) as [Hnull Hread].
  split; [exact Hnull|].
  apply (Hread 0x110100). vm_compute. discriminate.
Defined.

(** The claim as stated fails here: the buffer returned for a null backing
    pointer has MAX_PROGRAM_LENGTH = 0x1000 words, the trimmed buffer 12. *)
Lemma C8_counterexample :
  GetShaderCode 0x1000 Sample.memory 0x10100 nullptr false <>
  resize (repeat 0 0x1000) (CalculateProgramSize (repeat 0 0x1000) false).
Proof.
  intro H. apply (f_equal (@length Z)) in H. vm_compute in H. discriminate H.
Qed.

Lemma C9_witness :
  registered (host_of (Sample.system [1; 5]) 5) (Sample.unit_of 5) Scenario.settled /\
  GetComputePipeline (Sample.system [1; 5]) (Sample.compute_key 32) Scenario.settled =
  Some (next_object Scenario.settled,
        compute_state Scenario.settled (Sample.compute_key 32)
          (compute_entry (Sample.system [1; 5]) (Sample.compute_key 32)
                         (Sample.unit_of 5) (next_object Scenario.settled))).
Proof.
  destruct (C9_shader_unit_reused
              (host_of (Sample.system [1; 5]) 5) (Sample.unit_of 5) Sample.ready
              Scenario.settled Sample.later_requests)
    as (Hreg & _ & _ & _ & Hret & Htie).
  - apply (via_GetShaders _ _ _ (Sample.system [1; 5]) new_cache
                          (last_shaders Sample.ready) 5).
    + vm_compute. reflexivity.
    + unfold MaxShaderProgram. lia.
    + reflexivity.
    + reflexivity.
    + vm_compute. reflexivity.
  - vm_compute. reflexivity.
  - split; [exact Hreg|].
    destruct (Hret (Sample.system [1; 5]) (Sample.compute_key 32) eq_refl)
      as (p & s3 & evs & Hcall & _).
    destruct (Htie (Sample.system [1; 5]) (Sample.compute_key 32) p s3 eq_refl
                   ltac:(vm_compute; reflexivity) Hcall) as [-> ->].
    exact Hcall.
Defined.

(* ========================================================================== *)
(*  Further properties of the program-length estimator                         *)
(* ========================================================================== *)

Lemma start_of_range (is_compute : bool) : 0 <= start_of is_compute <= 10.
Proof. destruct is_compute; simpl; lia. Qed.

(** The loop from the scan origin, summarised: either it stopped on the first
    checked terminator, or no checked word of the buffer terminates. *)
Lemma scan_outcome (program : ProgramCode) (is_compute : bool) :
  size program < 2 ^ 64 - 1 ->
  (exists p, first_terminator program (start_of is_compute) p) \/
  (forall p, start_of is_compute <= p < size program ->
             checked (start_of is_compute) p ->
             is_terminator (word_at program p) = false).
Proof.
  intro Hsz. pose proof (start_of_range is_compute) as Hs.
  destruct (loop_result (length program) program (start_of is_compute)
                        (start_of is_compute))
    as (Hle & Hbefore & Hstop); try (unfold size in *; lia).
  set (r := CalculateProgramSize_loop (length program) program
              (start_of is_compute) (start_of is_compute)) in *.
  destruct Hstop as [(Hr & Hc & Ht)|Hr].
  - left. exists r. unfold first_terminator.
    split; [lia|]. split; [exact Hc|]. split; [exact Ht|exact Hbefore].
  - right. intros p Hp Hc. apply Hbefore; [lia|exact Hc].
Qed.

Lemma CalculateProgramSize_bounds (program : ProgramCode) (is_compute : bool) :
  size program < 2 ^ 64 - 1 ->
  Z.min (start_of is_compute + 1) (size program)
  <= CalculateProgramSize program is_compute <= size program.
Proof.
  intro Hsz. pose proof (start_of_range is_compute) as Hs.
  destruct (scan_outcome program is_compute Hsz) as [[p Hp]|Hnone].
  - rewrite (CalculateProgramSize_first_terminator program is_compute p Hsz Hp).
    destruct Hp as (Hrange & _). lia.
  - rewrite (CalculateProgramSize_no_terminator program is_compute Hsz Hnone). lia.
Qed.

(** X1.  The estimated size never exceeds the size of the buffer, and it is
    at least the scan origin plus one (11 words for graphics, 1 for compute)
    unless the buffer itself is shorter. *)
Theorem X1_program_size_bounds (program : ProgramCode) (is_compute : bool) :
  size program < 2 ^ 64 - 1 ->
  let start_offset := if is_compute then 0 else 10 in
  Z.min (start_offset + 1) (size program) <= CalculateProgramSize program is_compute
  /\ CalculateProgramSize program is_compute <= size program.
Proof.
  intros Hsz start_offset. change start_offset with (start_of is_compute).
  pose proof (CalculateProgramSize_bounds program is_compute Hsz). lia.
Qed.

Lemma X1_witness :
  Z.min (0 + 1) (size Sample.sentinel_at_5)
  <= CalculateProgramSize Sample.sentinel_at_5 true /\
  CalculateProgramSize Sample.sentinel_at_5 true <= size Sample.sentinel_at_5.
Proof.
  apply (X1_program_size_bounds Sample.sentinel_at_5 true).
  vm_compute. reflexivity.
Defined.

Lemma word_at_zeros (n : nat) (i : Z) : word_at (repeat 0 n) i = 0.
Proof. unfold word_at. apply nth_repeat. Qed.

Lemma size_repeat {A : Type} (a : A) (n : nat) : size (repeat a n) = Z.of_nat n.
Proof. unfold size. rewrite repeat_length. reflexivity. Qed.

(** X2.  On a buffer of zeros the scan stops at the first word after the
    scheduler slot of the scan origin: the size is 12 for graphics and 2 for
    compute, or the whole buffer when it is shorter than that. *)
Theorem X2_program_size_of_zeros (n : nat) (is_compute : bool) :
  Z.of_nat n < 2 ^ 64 - 1 ->
  CalculateProgramSize (repeat 0 n) is_compute =
  Z.min ((if is_compute then 0 else 10) + 2) (Z.of_nat n).
Proof.
  intro Hsz. change (if is_compute then 0 else 10) with (start_of is_compute).
  pose proof (start_of_range is_compute) as Hs.
  destruct (Z_lt_le_dec (start_of is_compute + 1) (Z.of_nat n)) as [Hlong|Hshort].
  - rewrite (CalculateProgramSize_first_terminator _ _ (start_of is_compute + 1)).
    + lia.
    + rewrite size_repeat. exact Hsz.
    + unfold first_terminator. rewrite size_repeat. split; [lia|]. split.
      * unfold checked.
        replace (start_of is_compute + 1 - start_of is_compute) with 1 by lia.
        discriminate.
      * split; [rewrite word_at_zeros; reflexivity|].
        intros i Hi Hc. exfalso. apply Hc.
        replace i with (start_of is_compute) by lia.
        rewrite Z.sub_diag. reflexivity.
  - rewrite CalculateProgramSize_no_terminator.
    + rewrite size_repeat. lia.
    + rewrite size_repeat. exact Hsz.
    + rewrite size_repeat. intros p Hp Hc. exfalso. apply Hc.
      replace p with (start_of is_compute) by lia.
      rewrite Z.sub_diag. reflexivity.
Qed.

Lemma X2_witness :
  CalculateProgramSize (repeat 0 16) false = Z.min (10 + 2) (Z.of_nat 16).
Proof.
  apply (X2_program_size_of_zeros 16 false). vm_compute. reflexivity.
Defined.

(** Two buffers of one size that agree on the checked words have the same
    first terminator. *)
Lemma first_terminator_agree (p q : ProgramCode) (start_offset t : Z) :
  size p = size q ->
  (forall i, start_offset <= i < size p -> checked start_offset i ->
             word_at p i = word_at q i) ->
  first_terminator p start_offset t -> first_terminator q start_offset t.
Proof.
  intros Hsize Hagree (Hrange & Hc & Ht & Hmin).
  repeat split; try lia; auto.
  - rewrite <- Hagree; [exact Ht|lia|exact Hc].
  - intros i Hi Hci. rewrite <- Hagree; [apply Hmin; assumption|lia|exact Hci].
Qed.

(** X3.  The estimate depends on the size of the buffer and on the checked
    words at or after the scan origin only: the header words before the
    origin and the scheduler words are never examined. *)
Theorem X3_program_size_ignores_unchecked (p q : ProgramCode) (is_compute : bool) :
  size p < 2 ^ 64 - 1 ->
  size p = size q ->
  let start_offset := if is_compute then 0 else 10 in
  (forall i, start_offset <= i < size p -> (i - start_offset) mod 4 <> 0 ->
             word_at p i = word_at q i) ->
  CalculateProgramSize p is_compute = CalculateProgramSize q is_compute.
Proof.
  intros Hsz Hsize start_offset Hagree.
  change start_offset with (start_of is_compute) in Hagree.
  destruct (scan_outcome p is_compute Hsz) as [[t Ht]|Hnone].
  - rewrite (CalculateProgramSize_first_terminator p is_compute t Hsz Ht).
    symmetry. apply CalculateProgramSize_first_terminator; [lia|].
    eapply first_terminator_agree; eassumption.
  - rewrite (CalculateProgramSize_no_terminator p is_compute Hsz Hnone).
    rewrite Hsize. symmetry. apply CalculateProgramSize_no_terminator; [lia|].
    intros i Hi Hc. rewrite <- Hagree; [apply Hnone; [lia|exact Hc]|lia|exact Hc].
Qed.

Lemma X3_witness :
  CalculateProgramSize Sample.sentinel_in_sched_slot true =
  CalculateProgramSize Scenario.other_sched_word true.
Proof.
  apply (X3_program_size_ignores_unchecked Sample.sentinel_in_sched_slot
           Scenario.other_sched_word true).
  - vm_compute. reflexivity.
  - reflexivity.
  - intros i Hi Hc. unfold size in Hi. simpl in Hi.
    assert (Hcases : i = 0 \/ i = 1 \/ i = 2 \/ i = 3 \/ i = 4 \/ i = 5 \/
                     i = 6 \/ i = 7) by lia.
    destruct Hcases as [->|[->|[->|[->|[->|[->|[->| ->]]]]]]]; try reflexivity;
      exfalso; apply Hc; reflexivity.
Defined.

Lemma resize_shrinks (v : ProgramCode) (n : Z) :
  n <= size v -> resize v n = firstn (Z.to_nat n) v.
Proof.
  intro Hn. unfold resize.
  replace (Z.to_nat n - length v)%nat with 0%nat by (unfold size in Hn; lia).
  apply app_nil_r.
Qed.

Lemma size_firstn (v : ProgramCode) (n : Z) :
  0 <= n <= size v -> size (firstn (Z.to_nat n) v) = n.
Proof.
  intro Hn. unfold size in *. rewrite length_firstn. lia.
Qed.

Lemma word_at_firstn (v : ProgramCode) (n i : Z) :
  0 <= i < n -> word_at (firstn (Z.to_nat n) v) i = word_at v i.
Proof.
  intro Hi. unfold word_at. rewrite nth_firstn.
  destruct (Z.to_nat i <? Z.to_nat n)%nat eqn:E; [reflexivity|].
  apply Nat.ltb_ge in E. lia.
Qed.

(** Cutting a buffer to its estimated size leaves a buffer whose estimated
    size is its own size. *)
Lemma CalculateProgramSize_trimmed (program : ProgramCode) (is_compute : bool) :
  size program < 2 ^ 64 - 1 ->
  let trimmed := firstn (Z.to_nat (CalculateProgramSize program is_compute)) program in
  CalculateProgramSize trimmed is_compute = size trimmed /\
  size trimmed = CalculateProgramSize program is_compute.
Proof.
  intros Hsz trimmed. pose proof (start_of_range is_compute) as Hs.
  destruct (scan_outcome program is_compute Hsz) as [[t Ht]|Hnone].
  - unfold trimmed.
    rewrite (CalculateProgramSize_first_terminator program is_compute t Hsz Ht).
    destruct Ht as (Hrange & Hc & Hterm & Hmin).
    assert (Hsize : size (firstn (Z.to_nat (t + 1)) program) = t + 1)
      by (apply size_firstn; lia).
    split; [|exact Hsize]. rewrite Hsize.
    apply CalculateProgramSize_first_terminator; [lia|].
    unfold first_terminator. rewrite Hsize. split; [lia|]. split; [exact Hc|].
    split.
    + rewrite word_at_firstn by lia. exact Hterm.
    + intros i Hi Hci. rewrite word_at_firstn by lia. apply Hmin; assumption.
  - unfold trimmed.
    rewrite (CalculateProgramSize_no_terminator program is_compute Hsz Hnone).
    assert (Hall : firstn (Z.to_nat (size program)) program = program)
      by (unfold size; rewrite Nat2Z.id; apply firstn_all).
    rewrite Hall. split; [|reflexivity].
    apply CalculateProgramSize_no_terminator; assumption.
Qed.

(** X4.  Trimming is idempotent: resizing a buffer to its estimated size
    only cuts it (no word is appended), and the estimated size of the result
    is its own size, so a second trim changes nothing. *)
Theorem X4_trim_idempotent (program : ProgramCode) (is_compute : bool) :
  size program < 2 ^ 64 - 1 ->
  let trimmed := resize program (CalculateProgramSize program is_compute) in
  trimmed = firstn (Z.to_nat (CalculateProgramSize program is_compute)) program /\
  CalculateProgramSize trimmed is_compute = size trimmed /\
  resize trimmed (CalculateProgramSize trimmed is_compute) = trimmed.
Proof.
  intros Hsz trimmed.
  destruct (CalculateProgramSize_bounds program is_compute Hsz) as [_ Hle].
  assert (Heq : trimmed
                = firstn (Z.to_nat (CalculateProgramSize program is_compute)) program)
    by (apply resize_shrinks; exact Hle).
  destruct (CalculateProgramSize_trimmed program is_compute Hsz) as [Hidem Hsize].
  split; [exact Heq|]. rewrite Heq. split; [exact Hidem|].
  rewrite Hidem, resize_shrinks by lia.
  unfold size. rewrite Nat2Z.id. apply firstn_all.
Qed.

Lemma X4_witness :
  resize Sample.sentinel_at_5 (CalculateProgramSize Sample.sentinel_at_5 true) =
  firstn (Z.to_nat (CalculateProgramSize Sample.sentinel_at_5 true))
         Sample.sentinel_at_5 /\
  CalculateProgramSize
    (resize Sample.sentinel_at_5 (CalculateProgramSize Sample.sentinel_at_5 true)) true
  = size (resize Sample.sentinel_at_5 (CalculateProgramSize Sample.sentinel_at_5 true)) /\
  resize (resize Sample.sentinel_at_5 (CalculateProgramSize Sample.sentinel_at_5 true))
         (CalculateProgramSize
            (resize Sample.sentinel_at_5
                    (CalculateProgramSize Sample.sentinel_at_5 true)) true)
  = resize Sample.sentinel_at_5 (CalculateProgramSize Sample.sentinel_at_5 true).
Proof.
  apply (X4_trim_idempotent Sample.sentinel_at_5 true). vm_compute. reflexivity.
Defined.

Lemma land_bit23 (w : Z) : Z.land w (2 ^ 23) = 0 \/ Z.land w (2 ^ 23) = 2 ^ 23.
Proof.
  destruct (Z.testbit w 23) eqn:Hbit.
  - right. apply Z.bits_inj'. intros i Hi.
    rewrite Z.land_spec, Z.pow2_bits_eqb by lia.
    destruct (23 =? i) eqn:E; [|apply andb_false_r].
    apply Z.eqb_eq in E. subst i. rewrite Hbit. reflexivity.
  - left. apply Z.bits_inj'. intros i Hi.
    rewrite Z.land_spec, Z.pow2_bits_eqb, Z.bits_0 by lia.
    destruct (23 =? i) eqn:E; [|apply andb_false_r].
    apply Z.eqb_eq in E. subst i. rewrite Hbit. reflexivity.
Qed.

(** A 64-bit word is its masked part plus its bit 23. *)
Lemma mask_split (w : Z) :
  0 <= w < 2 ^ 64 -> w = Z.land w mask + Z.land w (2 ^ 23).
Proof.
  intro Hw.
  assert (Hones : Z.lor mask (2 ^ 23) = Z.ones 64) by reflexivity.
  assert (Hdisj : Z.land (Z.land w mask) (Z.land w (2 ^ 23)) = 0).
  { rewrite Z.land_assoc, (Z.land_comm (Z.land w mask) w), Z.land_assoc,
      Z.land_diag, <- Z.land_assoc.
    change (Z.land mask (2 ^ 23)) with 0. apply Z.land_0_r. }
  rewrite <- (Z.add_lor_land (Z.land w mask) (Z.land w (2 ^ 23))), Hdisj, Z.add_0_r.
  rewrite <- Z.land_lor_distr_r, Hones, Z.land_ones by lia.
  symmetry. apply Z.mod_small. exact Hw.
Qed.

(** Exactly three 64-bit words are terminators. *)
Lemma is_terminator_words (w : Z) :
  0 <= w < 2 ^ 64 ->
  is_terminator w = true <->
  w = 0 \/ w = self_jumping_branch \/ w = self_jumping_branch_bit23.
Proof.
  intro Hw. unfold is_terminator. rewrite orb_true_iff, !Z.eqb_eq. split.
  - intros [Hmask|Hzero]; [|left; exact Hzero]. right.
    pose proof (mask_split w Hw) as Hsplit. rewrite Hmask in Hsplit.
    destruct (land_bit23 w) as [Hb|Hb]; rewrite Hb in Hsplit.
    + left. lia.
    + right. exact Hsplit.
  - intros [->|[->| ->]]; [right|left|left]; reflexivity.
Qed.

(** X5.  Three 64-bit words end a program and no other: zero, the
    self-jumping branch 0xE2400FFFFF07000F, and the same word with bit 23
    set.  At a checked index inside the buffer, reached without an earlier
    terminator and not the last word, the estimate ends the program there
    exactly when the word is one of the three. *)
Theorem X5_terminator_words (program : ProgramCode) (is_compute : bool) (p : Z) :
  size program < 2 ^ 64 - 1 ->
  let start_offset := if is_compute then 0 else 10 in
  start_offset <= p -> p + 1 < size program ->
  (p - start_offset) mod 4 <> 0 ->
  0 <= word_at program p < 2 ^ 64 ->
  (forall i, start_offset <= i < p -> (i - start_offset) mod 4 <> 0 ->
             is_terminator (word_at program i) = false) ->
  (CalculateProgramSize program is_compute = p + 1 <->
   word_at program p = 0 \/
   word_at program p = 0xE2400FFFFF07000F \/
   word_at program p = 0xE2400FFFFF87000F).
Proof.
  intros Hsz start_offset Hstart Hin Hc Hword Hbefore.
  change start_offset with (start_of is_compute) in *.
  change 0xE2400FFFFF07000F with self_jumping_branch.
  change 0xE2400FFFFF87000F with self_jumping_branch_bit23.
  rewrite <- (is_terminator_words _ Hword). split.
  - intro Hsize.
    destruct (is_terminator (word_at program p)) eqn:Ht; [reflexivity|].
    exfalso.
    destruct (scan_outcome program is_compute Hsz) as [[t Ht']|Hnone].
    + rewrite (CalculateProgramSize_first_terminator program is_compute t Hsz Ht')
        in Hsize.
      destruct Ht' as (_ & _ & Hterm & _).
      replace t with p in Hterm by lia. congruence.
    + rewrite (CalculateProgramSize_no_terminator program is_compute Hsz Hnone)
        in Hsize. lia.
  - intro Ht. apply CalculateProgramSize_first_terminator; [exact Hsz|].
    unfold first_terminator. split; [lia|]. split; [exact Hc|].
    split; [exact Ht|exact Hbefore].
Qed.

Lemma X5_witness :
  CalculateProgramSize Sample.sentinel_at_5 true = 5 + 1 <->
  word_at Sample.sentinel_at_5 5 = 0 \/
  word_at Sample.sentinel_at_5 5 = 0xE2400FFFFF07000F \/
  word_at Sample.sentinel_at_5 5 = 0xE2400FFFFF87000F.
Proof.
  apply (X5_terminator_words Sample.sentinel_at_5 true 5).
  - vm_compute. reflexivity.
  - lia.
  - vm_compute. reflexivity.
  - vm_compute. discriminate.
  - vm_compute. split; [discriminate|reflexivity].
  - intros i Hi Hc.
    assert (Hcases : i = 0 \/ i = 1 \/ i = 2 \/ i = 3 \/ i = 4) by lia.
    destruct Hcases as [->|[->|[->|[->| ->]]]]; try reflexivity;
      exfalso; apply Hc; reflexivity.
Defined.

(** X6.  IsSchedInstruction holds exactly for the offsets at a multiple of 4
    from the main offset, in either direction: the wrap-around of the
    unsigned subtraction for an offset below the main offset changes
    nothing, 4 being a divisor of 2^64. *)
Theorem X6_sched_slots (offset main_offset : Z) :
  IsSchedInstruction offset main_offset = true <->
  exists k, offset = main_offset + 4 * k.
Proof.
  rewrite IsSchedInstruction_mod4, Z.eqb_eq, Z.mod_divide by lia. split.
  - intros [k Hk]. exists k. lia.
  - intros [k Hk]. exists k. lia.
Qed.

(* ========================================================================== *)
(*  Further properties of the shader code fetch                                *)
(* ========================================================================== *)

Lemma ReadBlockUnsafe_length (memory_manager : MemoryManager) (gpu_addr : Z) (n : nat) :
  length (ReadBlockUnsafe memory_manager gpu_addr n) = n.
Proof. unfold ReadBlockUnsafe. rewrite length_map, length_seq. reflexivity. Qed.

Lemma GetShaderCode_null (MAX_PROGRAM_LENGTH : nat) (memory_manager : MemoryManager)
      (gpu_addr : Z) (is_compute : bool) :
  GetShaderCode MAX_PROGRAM_LENGTH memory_manager gpu_addr nullptr is_compute
  = repeat 0 MAX_PROGRAM_LENGTH.
Proof. unfold GetShaderCode. rewrite Z.eqb_refl. simpl. apply map_zero_repeat. Qed.

(** X7.  GetShaderCode never returns more than MAX_PROGRAM_LENGTH words.
    With a backing pointer the result is a prefix of the block read from
    memory, cut where CalculateProgramSize says, and its estimated size is
    its own size. *)
Theorem X7_shader_code_is_trimmed_prefix (MAX_PROGRAM_LENGTH : nat)
        (memory_manager : MemoryManager) (gpu_addr host_ptr : Z) (is_compute : bool) :
  Z.of_nat MAX_PROGRAM_LENGTH < 2 ^ 64 - 1 ->
  let code := GetShaderCode MAX_PROGRAM_LENGTH memory_manager gpu_addr host_ptr
                            is_compute in
  let read := ReadBlockUnsafe memory_manager gpu_addr MAX_PROGRAM_LENGTH in
  size code <= Z.of_nat MAX_PROGRAM_LENGTH /\
  (host_ptr <> nullptr ->
   code = firstn (Z.to_nat (CalculateProgramSize read is_compute)) read /\
   CalculateProgramSize code is_compute = size code).
Proof.
  intros Hmax code read.
  assert (Hread : size read = Z.of_nat MAX_PROGRAM_LENGTH)
    by (unfold size, read; rewrite ReadBlockUnsafe_length; reflexivity).
  assert (Hsz : size read < 2 ^ 64 - 1) by lia.
  destruct (Z.eq_dec host_ptr nullptr) as [->|Hnull].
  - split; [|intro H; contradiction].
    unfold code. rewrite GetShaderCode_null, size_repeat. lia.
  - assert (Hcode : code = resize read (CalculateProgramSize read is_compute)).
    { unfold code, GetShaderCode. apply Z.eqb_neq in Hnull. rewrite Hnull. simpl.
      rewrite repeat_length. reflexivity. }
    pose proof (CalculateProgramSize_bounds read is_compute Hsz) as [_ Hle].
    rewrite resize_shrinks in Hcode by exact Hle.
    destruct (CalculateProgramSize_trimmed read is_compute Hsz) as [Hidem Hsize].
    rewrite Hcode. split; [lia|]. intros _. split; [reflexivity|exact Hidem].
Qed.

Lemma X7_witness :
  size (GetShaderCode 16 Sample.memory 0x10100 0x110100 false) <= Z.of_nat 16 /\
  (0x110100 <> nullptr ->
   GetShaderCode 16 Sample.memory 0x10100 0x110100 false =
   firstn (Z.to_nat (CalculateProgramSize (ReadBlockUnsafe Sample.memory 0x10100 16)
                                          false))
          (ReadBlockUnsafe Sample.memory 0x10100 16) /\
   CalculateProgramSize (GetShaderCode 16 Sample.memory 0x10100 0x110100 false) false
   = size (GetShaderCode 16 Sample.memory 0x10100 0x110100 false)).
Proof.
  apply (X7_shader_code_is_trimmed_prefix 16 Sample.memory 0x10100 0x110100 false).
  vm_compute. reflexivity.
Defined.

(* ========================================================================== *)
(*  Further properties of the stage mapping and the descriptor builders        *)
(* ========================================================================== *)

(** X8.  For each of the six program slots the three ways the source names
    the stage agree: GetStageFromProgram (stage flags of the bindings), the
    index computed in GetShaders and DecompileShaders (slot of the program
    array) and GetShaderType (type given to the decompiler).  The stage is
    one of the five graphics stages, and two different programs share a
    stage only when they are VertexA and VertexB. *)
Theorem X8_stage_of_program (program : Z) :
  0 <= program < MaxShaderProgram ->
  GetShaderType program = GetStageFromProgram program /\
  (if program =? 0 then 0 else program - 1) = GetStageFromProgram program /\
  0 <= GetStageFromProgram program < MaxShaderStage /\
  forall other, 0 <= other < MaxShaderProgram -> other <> program ->
    GetStageFromProgram other = GetStageFromProgram program ->
    (program = ShaderProgram.VertexA /\ other = ShaderProgram.VertexB) \/
    (program = ShaderProgram.VertexB /\ other = ShaderProgram.VertexA).
Proof.
  unfold MaxShaderProgram, MaxShaderStage. intro Hp.
  assert (Hcases : program = 0 \/ program = 1 \/ program = 2 \/ program = 3 \/
                   program = 4 \/ program = 5) by lia.
  destruct Hcases as [->|[->|[->|[->|[->| ->]]]]];
    (split; [reflexivity|]); (split; [reflexivity|]);
    (split; [vm_compute; split; [discriminate|reflexivity]|]);
    intros other Ho Hne;
    assert (Hother : other = 0 \/ other = 1 \/ other = 2 \/ other = 3 \/
                     other = 4 \/ other = 5) by lia;
    destruct Hother as [->|[->|[->|[->|[->| ->]]]]];
    try congruence; vm_compute; intro H; try discriminate H;
    unfold ShaderProgram.VertexA, ShaderProgram.VertexB; auto.
Qed.

Lemma X8_witness :
  GetShaderType ShaderProgram.Fragment = GetStageFromProgram ShaderProgram.Fragment /\
  (if ShaderProgram.Fragment =? 0 then 0 else ShaderProgram.Fragment - 1)
  = GetStageFromProgram ShaderProgram.Fragment /\
  0 <= GetStageFromProgram ShaderProgram.Fragment < MaxShaderStage /\
  forall other, 0 <= other < MaxShaderProgram -> other <> ShaderProgram.Fragment ->
    GetStageFromProgram other = GetStageFromProgram ShaderProgram.Fragment ->
    (ShaderProgram.Fragment = ShaderProgram.VertexA /\ other = ShaderProgram.VertexB) \/
    (ShaderProgram.Fragment = ShaderProgram.VertexB /\ other = ShaderProgram.VertexA).
Proof.
  apply (X8_stage_of_program ShaderProgram.Fragment). vm_compute.
  split; [discriminate|reflexivity].
Defined.

Lemma layout_descriptors_app (a b : list DescriptorSetLayoutBinding) :
  layout_descriptors (a ++ b) = layout_descriptors a + layout_descriptors b.
Proof.
  unfold layout_descriptors. induction a as [|x a IH]; simpl; [reflexivity|].
  rewrite IH. lia.
Qed.

Lemma template_descriptors_app (a b : list DescriptorUpdateTemplateEntry) :
  template_descriptors (a ++ b) = template_descriptors a + template_descriptors b.
Proof.
  unfold template_descriptors. induction a as [|x a IH]; simpl; [reflexivity|].
  rewrite IH. lia.
Qed.

Lemma layout_descriptors_numbered (flags : Z) (rs : list (DescriptorType * Z)) :
  forall base,
    layout_descriptors (number_bindings flags base rs)
    = fold_right (fun r acc => snd r + acc) 0 rs.
Proof.
  induction rs as [|[t c] rs IH]; intro base; simpl; [reflexivity|].
  unfold layout_descriptors in *. simpl. rewrite IH. reflexivity.
Qed.

Lemma sum_snd_app (a b : list (DescriptorType * Z)) :
  fold_right (fun r acc => snd r + acc) 0 (a ++ b)
  = fold_right (fun r acc => snd r + acc) 0 a
    + fold_right (fun r acc => snd r + acc) 0 b.
Proof. induction a as [|x a IH]; simpl; [reflexivity|]. rewrite IH. lia. Qed.

Lemma sum_snd_ones {A : Type} (t : DescriptorType) (l : list A) :
  fold_right (fun r acc => snd r + acc) 0 (map (fun _ => (t, 1)) l) = size l.
Proof.
  induction l as [|x l IH]; [reflexivity|].
  rewrite size_cons. cbn [map fold_right snd]. rewrite IH. lia.
Qed.

Lemma sum_snd_samplers (l : list Sampler) :
  fold_right (fun r acc => snd r + acc) 0
             (map (fun s => (eCombinedImageSampler, Size s)) l)
  = sampler_elements l.
Proof.
  induction l as [|x l IH]; [reflexivity|].
  simpl. rewrite IH. reflexivity.
Qed.

Lemma template_descriptors_group (dt : DescriptorType) (es n b o : Z) :
  0 <= n -> template_descriptors (template_group dt es n b o) = n.
Proof.
  intro Hn. unfold template_group.
  destruct (0 <? n) eqn:E; simpl.
  - lia.
  - apply Z.ltb_ge in E. lia.
Qed.

Lemma template_descriptors_texels (es : Z) (n : nat) (b o : Z) :
  template_descriptors (template_texels es n b o) = Z.of_nat n.
Proof.
  unfold template_texels. generalize 0%nat.
  induction n as [|n IH]; intro k; [reflexivity|].
  cbn [seq map]. unfold template_descriptors in *. cbn [fold_right tmplDescriptorCount].
  rewrite IH. lia.
Qed.

Lemma template_descriptors_samplers (es : Z) (l : list Sampler) :
  forall b o, template_descriptors (template_samplers es l b o) = sampler_elements l.
Proof.
  induction l as [|s l IH]; intros b o; [reflexivity|].
  unfold template_descriptors in *. simpl. rewrite IH. reflexivity.
Qed.

(** X9.  The update template of a manifest writes exactly as many descriptors
    as the layout of the same manifest declares: one per constant buffer,
    storage buffer, texel buffer and storage image, and the array size per
    combined image sampler. *)
Theorem X9_template_matches_layout (ShaderStage : Z -> Z) (entry_size : Z)
        (entries : ShaderEntries) (program_type base_binding binding offset : Z) :
  0 <= entry_size -> sizes_nonneg (samplers entries) ->
  0 <= base_binding -> base_binding + total_resources entries < 2 ^ 32 ->
  0 <= binding -> 0 <= offset ->
  offset + total_resources entries < 2 ^ 32 ->
  binding + total_elements entries * entry_size < 2 ^ 32 ->
  layout_descriptors
    (fst (FillDescriptorLayout ShaderStage entries [] program_type base_binding))
  = total_elements entries /\
  template_descriptors
    (snd (FillDescriptorUpdateTemplateEntries entry_size entries binding offset []))
  = total_elements entries.
Proof.
  intros Hes Hsz Hbase Hfit Hb Ho Hfo Hfb. split.
  - rewrite FillDescriptorLayout_layout by assumption. cbn [fst app].
    rewrite layout_descriptors_numbered. unfold declared_resources, total_elements.
    rewrite !sum_snd_app, !sum_snd_ones, sum_snd_samplers. lia.
  - rewrite FillDescriptorUpdateTemplateEntries_spec by assumption. cbn [snd app].
    unfold template_of, total_elements.
    rewrite !template_descriptors_app, !template_descriptors_group,
      template_descriptors_texels, template_descriptors_samplers
      by apply size_nonneg.
    unfold size. lia.
Qed.

Lemma X9_witness :
  layout_descriptors
    (fst (FillDescriptorLayout (fun stage => 2 ^ stage) Sample.stage_manifest [] 1 3))
  = total_elements Sample.stage_manifest /\
  template_descriptors
    (snd (FillDescriptorUpdateTemplateEntries 16 Sample.stage_manifest 0 0 []))
  = total_elements Sample.stage_manifest.
Proof.
  apply (X9_template_matches_layout (fun stage => 2 ^ stage) 16 Sample.stage_manifest
           1 3 0 0).
  - lia.
  - unfold sizes_nonneg. simpl. repeat constructor; simpl; lia.
  - lia.
  - vm_compute. reflexivity.
  - lia.
  - lia.
  - vm_compute. reflexivity.
  - vm_compute. reflexivity.
Defined.

Lemma container_descriptors_plain {A : Type} (dt : DescriptorType) (SizeOf : A -> Z)
      (container : list A) :
  dt <> eCombinedImageSampler ->
  container_descriptors dt SizeOf container = size container.
Proof.
  intro Hdt. induction container as [|x l IH]; [reflexivity|].
  rewrite size_cons. unfold container_descriptors in *. cbn [fold_right].
  rewrite IH. unfold slot_count.
  destruct dt; try congruence; cbn [DescriptorType_eqb]; lia.
Qed.

Lemma container_descriptors_nonneg {A : Type} (dt : DescriptorType) (SizeOf : A -> Z)
      (container : list A) :
  (forall item, In item container -> 0 <= SizeOf item) ->
  0 <= container_descriptors dt SizeOf container.
Proof.
  intro Hpos. induction container as [|x l IH]; [simpl; lia|].
  unfold container_descriptors in *. cbn [fold_right].
  assert (0 <= slot_count dt SizeOf x).
  { unfold slot_count. destruct (DescriptorType_eqb dt eCombinedImageSampler);
      [apply Hpos; left; reflexivity|lia]. }
  assert (0 <= fold_right (fun item acc => slot_count dt SizeOf item + acc) 0 l)
    by (apply IH; intros item Hi; apply Hpos; right; exact Hi).
  lia.
Qed.

(** The loop over the samplers appends entries that lie back to back, one
    binding each. *)
Lemma AddEntry_samplers_tiled {A : Type} (SizeOf : A -> Z) (entry_size : Z)
      (items : list A) :
  forall te b o,
    0 <= entry_size -> (forall item, In item items -> 0 <= SizeOf item) ->
    0 <= b -> 0 <= o ->
    b + size items < 2 ^ 32 ->
    o + container_descriptors eCombinedImageSampler SizeOf items * entry_size < 2 ^ 32 ->
    exists l,
      AddEntry_samplers eCombinedImageSampler SizeOf entry_size items te b o =
      (te ++ l, b + size items,
       o + container_descriptors eCombinedImageSampler SizeOf items * entry_size) /\
      byte_tiled entry_size o l
        (o + container_descriptors eCombinedImageSampler SizeOf items * entry_size) /\
      binding_tiled b l (b + size items) /\
      template_descriptors l = container_descriptors eCombinedImageSampler SizeOf items /\
      Forall (fun e => tmplDescriptorType e = eCombinedImageSampler /\
                       dstArrayElement e = 0) l.
Proof.
  induction items as [|item rest IH]; intros te b o Hes Hpos Hb Ho Hfb Hfo.
  - exists []. simpl. rewrite app_nil_r. unfold size. simpl.
    rewrite !Z.add_0_r. repeat split; constructor.
  - assert (Hitem : 0 <= SizeOf item) by (apply Hpos; left; reflexivity).
    assert (Hrest : forall it, In it rest -> 0 <= SizeOf it)
      by (intros it Hi; apply Hpos; right; exact Hi).
    pose proof (container_descriptors_nonneg eCombinedImageSampler SizeOf rest Hrest)
      as Hsum.
    pose proof (size_nonneg rest) as Hn.
    rewrite size_cons in *.
    change (container_descriptors eCombinedImageSampler SizeOf (item :: rest))
      with (SizeOf item + container_descriptors eCombinedImageSampler SizeOf rest) in *.
    set (sum := container_descriptors eCombinedImageSampler SizeOf rest) in *.
    rewrite Z.mul_add_distr_r in *.
    assert (0 <= SizeOf item * entry_size) by (apply Z.mul_nonneg_nonneg; lia).
    assert (0 <= sum * entry_size) by (apply Z.mul_nonneg_nonneg; lia).
    cbn [AddEntry_samplers].
    rewrite (wrap32_small (b + 1)) by lia.
    rewrite (wrap32_small (SizeOf item * entry_size)) by lia.
    rewrite (wrap32_small (o + _)) by lia.
    destruct (IH (te ++ [{| dstBinding := b; dstArrayElement := 0;
                            tmplDescriptorCount := SizeOf item;
                            tmplDescriptorType := eCombinedImageSampler;
                            offset := o; stride := entry_size |}])
                 (b + 1) (o + SizeOf item * entry_size))
      as (l & Heq & Hbytes & Hbind & Hcount & Hall); try assumption; try lia.
    eexists (_ :: l). rewrite Heq, <- app_assoc. cbn [app].
    split; [apply f_equal2; [apply f_equal2; [reflexivity|lia]|lia]|].
    split; [cbn [byte_tiled offset stride tmplDescriptorCount];
            split; [reflexivity|]; split; [reflexivity|];
            replace (o + (SizeOf item * entry_size + sum * entry_size))
              with (o + SizeOf item * entry_size + sum * entry_size) by lia;
            exact Hbytes|].
    split; [cbn [binding_tiled dstBinding]; split; [reflexivity|];
            unfold bindings_spanned; cbn [tmplDescriptorType DescriptorType_eqb];
            replace (b + (size rest + 1)) with (b + 1 + size rest) by lia;
            exact Hbind|].
    split; [unfold template_descriptors in *; cbn [fold_right tmplDescriptorCount];
            rewrite Hcount; reflexivity|].
    constructor; [split; reflexivity|exact Hall].
Qed.

(** The loop over the texel buffers appends one entry per element, back to
    back, one binding each. *)
Lemma AddEntry_texels_tiled (entry_size b o : Z) :
  forall todo i te,
    0 <= entry_size -> 0 <= b -> 0 <= o -> 0 <= i ->
    b + i + Z.of_nat todo < 2 ^ 32 ->
    o + (i + Z.of_nat todo) * entry_size < 2 ^ 32 ->
    exists l,
      AddEntry_texels eUniformTexelBuffer entry_size todo i te b o = te ++ l /\
      byte_tiled entry_size (o + i * entry_size) l
                 (o + (i + Z.of_nat todo) * entry_size) /\
      binding_tiled (b + i) l (b + i + Z.of_nat todo) /\
      template_descriptors l = Z.of_nat todo /\
      Forall (fun e => tmplDescriptorType e = eUniformTexelBuffer /\
                       dstArrayElement e = 0) l.
Proof.
  induction todo as [|todo IH]; intros i te Hes Hb Ho Hi Hfb Hfo.
  - exists []. simpl. rewrite app_nil_r, !Z.add_0_r. repeat split; constructor.
  - assert (0 <= i * entry_size) by (apply Z.mul_nonneg_nonneg; lia).
    assert (i * entry_size <= (i + Z.of_nat (S todo)) * entry_size)
      by (apply Z.mul_le_mono_nonneg_r; lia).
    assert (Hnext : (i + 1 + Z.of_nat todo) = (i + Z.of_nat (S todo))) by lia.
    cbn [AddEntry_texels].
    rewrite (wrap32_small (i + 1)) by lia.
    rewrite (wrap32_small (b + i)) by lia.
    rewrite (wrap32_small (i * entry_size)) by lia.
    rewrite (wrap32_small (o + _)) by lia.
    destruct (IH (i + 1)
                 (te ++ [{| dstBinding := b + i; dstArrayElement := 0;
                            tmplDescriptorCount := 1;
                            tmplDescriptorType := eUniformTexelBuffer;
                            offset := o + i * entry_size; stride := entry_size |}]))
      as (l & Heq & Hbytes & Hbind & Hcount & Hall); try assumption; try lia.
    eexists (_ :: l). rewrite Heq, <- app_assoc. cbn [app].
    split; [reflexivity|].
    split; [cbn [byte_tiled offset stride tmplDescriptorCount];
            split; [reflexivity|]; split; [reflexivity|];
            rewrite Hnext in Hbytes;
            replace (o + i * entry_size + 1 * entry_size)
              with (o + (i + 1) * entry_size) by lia;
            exact Hbytes|].
    split; [cbn [binding_tiled dstBinding]; split; [reflexivity|];
            unfold bindings_spanned;
            cbn [tmplDescriptorType tmplDescriptorCount DescriptorType_eqb];
            replace (b + i + Z.of_nat (S todo)) with (b + (i + 1) + Z.of_nat todo) by lia;
            replace (b + i + 1) with (b + (i + 1)) by lia;
            exact Hbind|].
    split; [unfold template_descriptors in *; cbn [fold_right tmplDescriptorCount];
            rewrite Hcount; lia|].
    constructor; [split; reflexivity|exact Hall].
Qed.

(** X10.  For every kind of container, the entries AddEntry appends lie back
    to back: in the update buffer, from the byte offset passed in to the one
    returned, with no gap and no overlap, and over the bindings, from the
    binding passed in to the one returned.  The binding counter advances by
    the number of resources and the offset by the number of descriptors times
    the entry size; every entry has the requested type and array element 0. *)
Theorem X10_AddEntry_contiguous {A : Type} (descriptor_type : DescriptorType)
        (SizeOf : A -> Z) (entry_size first_binding byte_offset : Z) (container : list A) :
  0 <= entry_size -> (forall item, In item container -> 0 <= SizeOf item) ->
  0 <= first_binding -> 0 <= byte_offset ->
  first_binding + size container < 2 ^ 32 ->
  byte_offset + container_descriptors descriptor_type SizeOf container * entry_size < 2 ^ 32 ->
  let bytes := container_descriptors descriptor_type SizeOf container * entry_size in
  exists l,
    AddEntry descriptor_type SizeOf entry_size [] first_binding byte_offset container =
    (l, first_binding + size container, byte_offset + bytes) /\
    byte_tiled entry_size byte_offset l (byte_offset + bytes) /\
    binding_tiled first_binding l (first_binding + size container) /\
    template_descriptors l = container_descriptors descriptor_type SizeOf container /\
    Forall (fun e => tmplDescriptorType e = descriptor_type /\ dstArrayElement e = 0) l.
Proof.
  intros Hes Hpos Hb Ho Hfb Hfo bytes. subst bytes.
  pose proof (size_nonneg container) as Hn.
  destruct (DescriptorType_eqb descriptor_type eCombinedImageSampler) eqn:Hsam.
  - assert (descriptor_type = eCombinedImageSampler)
      by (destruct descriptor_type; try discriminate Hsam; reflexivity).
    subst descriptor_type. unfold AddEntry. cbn [DescriptorType_eqb].
    rewrite firstn_wrap32_all by lia.
    destruct (AddEntry_samplers_tiled SizeOf entry_size container [] first_binding byte_offset)
      as (l & Heq & Hrest); try assumption.
    exists l. rewrite Heq. split; [reflexivity|exact Hrest].
  - assert (Hdt : descriptor_type <> eCombinedImageSampler)
      by (intros ->; discriminate Hsam).
    rewrite (container_descriptors_plain descriptor_type SizeOf container Hdt) in *.
    assert (0 <= size container * entry_size) by (apply Z.mul_nonneg_nonneg; lia).
    unfold AddEntry. rewrite Hsam.
    rewrite (wrap32_small (size container)) by lia.
    rewrite (wrap32_small (size container * entry_size)) by lia.
    rewrite (wrap32_small (byte_offset + _)) by lia.
    rewrite (wrap32_small (first_binding + _)) by lia.
    destruct (DescriptorType_eqb descriptor_type eUniformTexelBuffer) eqn:Htex.
    + assert (descriptor_type = eUniformTexelBuffer)
        by (destruct descriptor_type; try discriminate Htex; reflexivity).
      subst descriptor_type.
      destruct (AddEntry_texels_tiled entry_size first_binding byte_offset
                  (Z.to_nat (size container)) 0 [])
        as (l & Heq & Hbytes & Hbind & Hcount & Hall); try assumption; try lia.
      exists l. rewrite Heq. cbn [app].
      rewrite Z2Nat.id, Z.mul_0_l, !Z.add_0_r, Z.add_0_l in * by lia.
      repeat split; assumption.
    + destruct (0 <? size container) eqn:Hpos0.
      * eexists. cbn [app]. split; [reflexivity|].
        cbn [byte_tiled binding_tiled offset stride tmplDescriptorCount dstBinding].
        unfold bindings_spanned, template_descriptors.
        cbn [tmplDescriptorType tmplDescriptorCount fold_right]. rewrite Hsam.
        repeat split; try reflexivity; try lia.
        constructor; [split; reflexivity|constructor].
      * apply Z.ltb_ge in Hpos0. assert (Hzero : size container = 0) by lia.
        exists []. rewrite Hzero. cbn. rewrite !Z.add_0_r.
        repeat split; constructor.
Qed.

Lemma X10_witness :
  exists l,
    AddEntry eCombinedImageSampler Size 16 [] 2 32 (samplers Sample.stage_manifest) =
    (l, 2 + size (samplers Sample.stage_manifest),
     32 + container_descriptors eCombinedImageSampler Size
            (samplers Sample.stage_manifest) * 16) /\
    byte_tiled 16 32 l
      (32 + container_descriptors eCombinedImageSampler Size
              (samplers Sample.stage_manifest) * 16) /\
    binding_tiled 2 l (2 + size (samplers Sample.stage_manifest)) /\
    template_descriptors l =
    container_descriptors eCombinedImageSampler Size (samplers Sample.stage_manifest) /\
    Forall (fun e => tmplDescriptorType e = eCombinedImageSampler /\
                     dstArrayElement e = 0) l.
Proof.
  apply (X10_AddEntry_contiguous eCombinedImageSampler Size 16 2 32
           (samplers Sample.stage_manifest)).
  - lia.
  - simpl. intros item Hin.
    destruct Hin as [<-|[<-|[<-|[]]]]; simpl; lia.
  - lia.
  - lia.
  - vm_compute. reflexivity.
  - vm_compute. reflexivity.
Defined.

(* ========================================================================== *)
(*  Further properties of DecompileShaders                                     *)
(* ========================================================================== *)

(** One iteration on an enabled slot whose unit is registered: the assertion
    on the number of bindings holds and the loop goes on. *)
Lemma DecompileShaders_loop_step (system : System) (fuel : nat) (index : Z)
      (st : DecompileState) (s : VKPipelineCache) (u : CachedShader) :
  index < MaxShaderProgram ->
  IsShaderConfigEnabled system index = true ->
  registered (host_of system index) u s ->
  0 <= base_binding (ds_specialization st) < 2 ^ 32 ->
  DecompileShaders_loop (S fuel) system index st s =
  DecompileShaders_loop fuel system
    ((if index =? ShaderProgram.VertexA then index + 1 else index) + 1)
    {| ds_program :=
         array_set (ds_program st) (Z.to_nat (if index =? 0 then 0 else index - 1))
           (Some {| code := Decompile system (shader_ir u) (GetShaderType index)
                                      (ds_specialization st);
                    spirv_entries := entries u |});
       ds_bindings :=
         fst (FillDescriptorLayout (ShaderStage system) (entries u) (ds_bindings st)
                index (base_binding (ds_specialization st)));
       ds_specialization :=
         with_base_binding (ds_specialization st)
           (snd (FillDescriptorLayout (ShaderStage system) (entries u) (ds_bindings st)
                   index (base_binding (ds_specialization st)))) |} s.
Proof.
  intros Hlt Hen Hreg Hb. cbn [DecompileShaders_loop].
  apply Z.ltb_lt in Hlt. rewrite Hlt, Hen. cbn [negb].
  unfold bind at 1, TryGet. fold (host_of system index).
  unfold registered in Hreg. rewrite Hreg.
  pose proof (FillDescriptorLayout_next (ShaderStage system) (entries u) (ds_bindings st)
                index _ Hb) as Hnext.
  destruct (FillDescriptorLayout (ShaderStage system) (entries u) (ds_bindings st)
              index (base_binding (ds_specialization st)))
    as [bindings new_binding].
  cbn [fst snd] in *. unfold bind, ASSERT. cbn [with_base_binding base_binding].
  assert (Hassert : (wrap32 (base_binding (ds_specialization st) + NumBindings (entries u))
                     =? new_binding) = true).
  { apply Z.eqb_eq. rewrite Hnext. unfold NumBindings. rewrite wrap32_add_r.
    reflexivity. }
  rewrite Hassert. reflexivity.
Qed.

Lemma DecompileShaders_loop_skip (system : System) (fuel : nat) (index : Z)
      (st : DecompileState) (s : VKPipelineCache) :
  index < MaxShaderProgram ->
  IsShaderConfigEnabled system index = false ->
  DecompileShaders_loop (S fuel) system index st s =
  DecompileShaders_loop fuel system (index + 1) st s.
Proof.
  intros Hlt Hen. cbn [DecompileShaders_loop].
  apply Z.ltb_lt in Hlt. rewrite Hlt, Hen. reflexivity.
Qed.

Lemma DecompileShaders_loop_missing (system : System) (fuel : nat) (index : Z)
      (st : DecompileState) (s : VKPipelineCache) :
  index < MaxShaderProgram ->
  IsShaderConfigEnabled system index = true ->
  find_key Z.eqb (host_of system index) (map_cache s) = None ->
  DecompileShaders_loop (S fuel) system index st s = None.
Proof.
  intros Hlt Hen Hfind. cbn [DecompileShaders_loop].
  apply Z.ltb_lt in Hlt. rewrite Hlt, Hen. cbn [negb].
  unfold bind, TryGet. fold (host_of system index). rewrite Hfind. reflexivity.
Qed.

Lemma FillDescriptorLayout_next_range (SS : Z -> Z) (entries : ShaderEntries)
      (bindings : list DescriptorSetLayoutBinding) (program_type base : Z) :
  0 <= base < 2 ^ 32 ->
  0 <= snd (FillDescriptorLayout SS entries bindings program_type base) < 2 ^ 32.
Proof.
  intro Hb. rewrite FillDescriptorLayout_next by exact Hb. apply wrap32_range.
Qed.

Lemma DecompileShaders_unfold (system : System) (key : GraphicsPipelineCacheKey)
      (s : VKPipelineCache) :
  DecompileShaders system key s =
  if point_size_missing key then None
  else
    match DecompileShaders_loop (Z.to_nat MaxShaderProgram) system 0
            {| ds_program := repeat None (Z.to_nat MaxShaderStage);
               ds_bindings := [];
               ds_specialization :=
                 {| base_binding := 0;
                    spec_workgroup_size := (0, 0, 0);
                    spec_shared_memory_size := 0;
                    spec_point_size :=
                      if topology (fixed_state key) =? PrimitiveTopology_Points
                      then Some (point_size (fixed_state key)) else None;
                    spec_attribute_types :=
                      firstn NumVertexAttributes (attribute_types (fixed_state key));
                    spec_ndc_minus_one_to_one :=
                      ndc_minus_one_to_one (fixed_state key) |} |} s with
    | Some (st, s') => Some ((ds_program st, ds_bindings st), s')
    | None => None
    end.
Proof.
  unfold DecompileShaders, point_size_missing.
  destruct (topology (fixed_state key) =? PrimitiveTopology_Points); cbn [andb].
  - unfold bind at 1. unfold bind at 2. unfold ASSERT.
    destruct (float_nonzero (point_size (fixed_state key))); cbn [negb].
    + unfold ret at 1 2. cbn. unfold bind.
      destruct (DecompileShaders_loop _ _ _ _ s) as [[st s']|]; reflexivity.
    + reflexivity.
  - unfold bind at 1. unfold ret at 1. cbn. unfold bind.
    destruct (DecompileShaders_loop _ _ _ _ s) as [[st s']|]; reflexivity.
Qed.

Lemma find_key_filter {K V : Type} (eqb : K -> K -> bool) (f : K * V -> bool)
      (k : K) (m : list (K * V)) :
  (forall k' v, eqb k' k = true -> In (k', v) m -> f (k', v) = true) ->
  find_key eqb k (filter f m) = find_key eqb k m.
Proof.
  induction m as [|[k' v] m IH]; intro Hf; [reflexivity|].
  cbn [filter find_key].
  destruct (eqb k' k) eqn:Hk.
  - rewrite (Hf k' v Hk (or_introl eq_refl)). cbn [find_key]. rewrite Hk. reflexivity.
  - destruct (f (k', v)); cbn [find_key]; rewrite ?Hk;
      apply IH; intros k2 v2 H2 Hin; apply Hf; [exact H2|right; exact Hin| exact H2|right; exact Hin].
Qed.

Lemma find_key_In {K V : Type} (eqb : K -> K -> bool) (k : K) (v : V)
      (m : list (K * V)) :
  find_key eqb k m = Some v -> exists k', In (k', v) m /\ eqb k' k = true.
Proof.
  induction m as [|[k' v'] m IH]; intro H; [discriminate H|].
  cbn [find_key] in H. destruct (eqb k' k) eqn:Hk.
  - inversion H; subst. exists k'. split; [left; reflexivity|exact Hk].
  - destruct (IH H) as (k2 & Hin & H2). exists k2. split; [right; exact Hin|exact H2].
Qed.

Lemma manifests_small_check (s : VKPipelineCache) :
  forallb (fun kv => total_resources (entries (snd kv)) <? 2 ^ 28) (map_cache s) = true ->
  manifests_small s.
Proof.
  intros Hall h u Hreg. unfold registered in Hreg.
  apply find_key_In in Hreg. destruct Hreg as (k' & Hin & _).
  rewrite forallb_forall in Hall. specialize (Hall _ Hin). cbn [snd] in Hall.
  apply Z.ltb_lt. exact Hall.
Qed.

Lemma numbered_app (bindings : list DescriptorSetLayoutBinding) (flags : Z)
      (rs : list (DescriptorType * Z)) :
  numbered bindings ->
  numbered (bindings ++ number_bindings flags (size bindings) rs).
Proof.
  intros Hnum i d Hi. rewrite length_app, number_bindings_length in Hi.
  destruct (Nat.lt_ge_cases i (length bindings)) as [Hlt|Hge].
  - rewrite app_nth1 by exact Hlt. apply Hnum. exact Hlt.
  - rewrite app_nth2 by exact Hge.
    rewrite number_bindings_nth by lia. unfold size. lia.
Qed.

(** The bindings stay numbered by position through the loop, the base
    binding being the number of bindings so far. *)
Lemma DecompileShaders_loop_numbered (system : System) (s : VKPipelineCache) :
  manifests_small s ->
  forall fuel index st st' s',
    numbered (ds_bindings st) ->
    base_binding (ds_specialization st) = size (ds_bindings st) ->
    size (ds_bindings st) + Z.of_nat fuel * 2 ^ 28 < 2 ^ 32 ->
    DecompileShaders_loop fuel system index st s = Some (st', s') ->
    numbered (ds_bindings st') /\
    base_binding (ds_specialization st') = size (ds_bindings st').
Proof.
  intro Hsmall.
  induction fuel as [|fuel IH]; intros index st st' s' Hnum Hbase Hfit H.
  - inversion H; subst. auto.
  - pose proof (size_nonneg (ds_bindings st)) as Hn.
    destruct (Z_lt_le_dec index MaxShaderProgram) as [Hlt|Hge].
    2: { cbn [DecompileShaders_loop] in H. apply Z.ltb_ge in Hge. rewrite Hge in H.
         inversion H; subst. auto. }
    destruct (IsShaderConfigEnabled system index) eqn:Hen.
    + destruct (find_key Z.eqb (host_of system index) (map_cache s)) as [u|] eqn:Hfind.
      2: { rewrite DecompileShaders_loop_missing in H by assumption. discriminate H. }
      pose proof (Hsmall _ _ Hfind) as Hu.
      pose proof (size_declared_resources (entries u)) as Hres.
      assert (0 <= total_resources (entries u))
        by (rewrite <- Hres; apply size_nonneg).
      rewrite (DecompileShaders_loop_step system fuel index st s u) in H;
        try assumption; try lia.
      rewrite Hbase in H.
      rewrite FillDescriptorLayout_layout in H by lia. cbn [fst snd] in H.
      eapply IH; [| | |exact H]; cbn [ds_bindings ds_specialization with_base_binding
                                        base_binding].
      * apply numbered_app. exact Hnum.
      * rewrite size_app. unfold size at 3. rewrite number_bindings_length.
        fold (size (declared_resources (entries u))). lia.
      * rewrite size_app. unfold size at 2. rewrite number_bindings_length.
        fold (size (declared_resources (entries u))). lia.
    + rewrite DecompileShaders_loop_skip in H by assumption.
      eapply IH; [exact Hnum|exact Hbase| |exact H]. lia.
Qed.

(** X12.  The bindings DecompileShaders returns are numbered 0, 1, 2, ... in
    the order they were appended, across all stages: the base binding carried
    from stage to stage keeps two stages from sharing a binding index.
    (Manifests of fewer than 2^28 resources each keep the u32 counter from
    wrapping.) *)
Theorem X12_DecompileShaders_bindings_numbered (system : System)
        (key : GraphicsPipelineCacheKey) (s s' : VKPipelineCache)
        (program : SPIRVProgram) (bindings : list DescriptorSetLayoutBinding) :
  manifests_small s ->
  DecompileShaders system key s = Some ((program, bindings), s') ->
  forall i d, (i < length bindings)%nat -> binding (nth i bindings d) = Z.of_nat i.
Proof.
  intros Hsmall H. rewrite DecompileShaders_unfold in H.
  destruct (point_size_missing key); [discriminate H|].
  destruct (DecompileShaders_loop _ _ _ _ s) as [[st s1]|] eqn:Hloop; [|discriminate H].
  inversion H; subst.
  apply (DecompileShaders_loop_numbered system s Hsmall) in Hloop.
  - apply Hloop.
  - intros i d Hi. simpl in Hi. lia.
  - reflexivity.
  - vm_compute. reflexivity.
Qed.

Lemma X12_witness :
  binding (nth 2 (snd Scenario.decompiled) Scenario.no_binding) = Z.of_nat 2.
Proof.
  apply (X12_DecompileShaders_bindings_numbered (Sample.system [1; 5])
           (Sample.key [1; 5]) Sample.ready Sample.ready
           (fst Scenario.decompiled) (snd Scenario.decompiled)).
  - apply manifests_small_check. vm_compute. reflexivity.
  - vm_compute. reflexivity.
  - vm_compute. lia.
Defined.

Lemma visited_enabled (system : System) (index : Z) :
  (index = ShaderProgram.VertexB ->
   IsShaderConfigEnabled system ShaderProgram.VertexA = false) ->
  visited system index = IsShaderConfigEnabled system index.
Proof.
  intro Hstart. unfold visited.
  destruct (Z.eqb_spec index ShaderProgram.VertexB) as [He|Hne].
  - rewrite (Hstart He). cbn [andb negb]. apply andb_true_r.
  - cbn [andb negb]. apply andb_true_r.
Qed.

Lemma visited_after_VertexA (system : System) :
  IsShaderConfigEnabled system ShaderProgram.VertexA = true ->
  visited system ShaderProgram.VertexB = false.
Proof.
  intro Hen. unfold visited. rewrite Hen, Z.eqb_refl. cbn [andb negb].
  apply andb_false_r.
Qed.

Lemma GetStageFromProgram_inline (program : Z) :
  0 <= program < MaxShaderProgram ->
  GetStageFromProgram program = if program =? 0 then 0 else program - 1.
Proof.
  intro Hp. unfold GetStageFromProgram, MaxShaderProgram in *.
  destruct (Z.eqb_spec program 0); [reflexivity|].
  apply wrap64_small. lia.
Qed.

(** What the loop leaves in the program array: the slot of every program it
    visits holds a program built from the unit registered for it, and the
    other slots are as before. *)
Lemma DecompileShaders_loop_slots (system : System) (s : VKPipelineCache) :
  forall fuel index st st' s',
    0 <= index ->
    MaxShaderProgram - index <= Z.of_nat fuel ->
    (index = ShaderProgram.VertexB ->
     IsShaderConfigEnabled system ShaderProgram.VertexA = false) ->
    0 <= base_binding (ds_specialization st) < 2 ^ 32 ->
    length (ds_program st) = Z.to_nat MaxShaderStage ->
    DecompileShaders_loop fuel system index st s = Some (st', s') ->
    length (ds_program st') = Z.to_nat MaxShaderStage /\
    (forall j, index <= j < MaxShaderProgram -> visited system j = true ->
       exists u sh, registered (host_of system j) u s /\
                    nth (Z.to_nat (if j =? 0 then 0 else j - 1)) (ds_program st') None
                    = Some sh /\
                    spirv_entries sh = entries u) /\
    (forall k, (forall j, index <= j < MaxShaderProgram -> visited system j = true ->
                          Z.to_nat (if j =? 0 then 0 else j - 1) <> k) ->
               nth k (ds_program st') None = nth k (ds_program st) None).
Proof.
  induction fuel as [|fuel IH]; intros index st st' s' Hpos Hfuel Hstart Hb Hlen H.
  - inversion H; subst. split; [exact Hlen|]. split; [|reflexivity].
    intros j Hj. unfold MaxShaderProgram in *. lia.
  - destruct (Z_lt_le_dec index MaxShaderProgram) as [Hlt|Hge].
    2: { cbn [DecompileShaders_loop] in H. pose proof Hge as Hge'.
         apply Z.ltb_ge in Hge'. rewrite Hge' in H.
         inversion H; subst. split; [exact Hlen|]. split; [|reflexivity].
         intros j Hj. lia. }
    pose proof (visited_enabled system index Hstart) as Hvis.
    destruct (IsShaderConfigEnabled system index) eqn:Hen.
    + destruct (find_key Z.eqb (host_of system index) (map_cache s)) as [u|] eqn:Hfind.
      2: { rewrite DecompileShaders_loop_missing in H by assumption. discriminate H. }
      rewrite (DecompileShaders_loop_step system fuel index st s u) in H by assumption.
      apply IH in H; cbn [ds_program ds_bindings ds_specialization with_base_binding
                            base_binding] in *.
      * destruct H as (Hlen' & Hslots & Hframe).
        assert (Hmine : nth (Z.to_nat (if index =? 0 then 0 else index - 1))
                            (ds_program st') None
                        = Some {| code := Decompile system (shader_ir u)
                                            (GetShaderType index) (ds_specialization st);
                                  spirv_entries := entries u |}).
        { rewrite Hframe.
          - apply array_set_same. rewrite Hlen. unfold MaxShaderStage.
            unfold MaxShaderProgram in Hlt.
            destruct (Z.eqb_spec index 0); lia.
          - intros j Hj _. unfold ShaderProgram.VertexA in Hj.
            destruct (Z.eqb_spec index 0); destruct (Z.eqb_spec j 0); lia. }
        split; [exact Hlen'|]. split.
        -- intros j Hj Hvj.
           destruct (Z.eq_dec j index) as [->|Hne].
           ++ exists u, {| code := Decompile system (shader_ir u)
                                     (GetShaderType index) (ds_specialization st);
                           spirv_entries := entries u |}.
              split; [exact Hfind|]. split; [exact Hmine|reflexivity].
           ++ apply Hslots; [|exact Hvj]. unfold ShaderProgram.VertexA.
              destruct (Z.eqb_spec index 0) as [H0|H0]; [|lia].
              subst index.
              destruct (Z.eq_dec j 1) as [->|H1]; [|lia].
              pose proof (visited_after_VertexA system Hen) as Hv.
              unfold ShaderProgram.VertexB in Hv. congruence.
        -- intros k Hk. rewrite Hframe.
           ++ apply array_set_other. apply Hk; [lia|exact Hvis].
           ++ intros j Hj. apply Hk. unfold ShaderProgram.VertexA in Hj.
              destruct (Z.eqb_spec index 0); lia.
      * unfold ShaderProgram.VertexA. destruct (Z.eqb_spec index 0); lia.
      * unfold ShaderProgram.VertexA. destruct (Z.eqb_spec index 0); lia.
      * unfold ShaderProgram.VertexA, ShaderProgram.VertexB.
        destruct (Z.eqb_spec index 0); lia.
      * apply FillDescriptorLayout_next_range. exact Hb.
      * rewrite array_set_length. exact Hlen.
    + rewrite DecompileShaders_loop_skip in H by assumption.
      apply IH in H.
      * destruct H as (Hlen' & Hslots & Hframe).
        split; [exact Hlen'|]. split.
        -- intros j Hj Hvj. apply Hslots; [|exact Hvj].
           destruct (Z.eq_dec j index) as [->|Hne]; [|lia].
           rewrite Hvis in Hvj. discriminate Hvj.
        -- intros k Hk. apply Hframe. intros j Hj. apply Hk. lia.
      * lia.
      * lia.
      * intro H1. unfold ShaderProgram.VertexB in H1.
        assert (index = ShaderProgram.VertexA) as -> by (unfold ShaderProgram.VertexA; lia).
        exact Hen.
      * exact Hb.
      * exact Hlen.
Qed.

(** X13.  The program array DecompileShaders returns has one slot per
    pipeline stage.  The slot of every enabled program (VertexB apart when
    VertexA is enabled too) holds a program whose resource manifest is that of
    the unit registered for the program's code, and a slot that is the stage
    of no such program is left empty: no iteration overwrites the slot of
    another. *)
Theorem X13_DecompileShaders_program_slots (system : System)
        (key : GraphicsPipelineCacheKey) (s s' : VKPipelineCache)
        (program : SPIRVProgram) (bindings : list DescriptorSetLayoutBinding) :
  DecompileShaders system key s = Some ((program, bindings), s') ->
  length program = Z.to_nat MaxShaderStage /\
  (forall j, 0 <= j < MaxShaderProgram -> visited system j = true ->
     exists u sh, registered (host_of system j) u s /\
                  nth (Z.to_nat (GetStageFromProgram j)) program None = Some sh /\
                  spirv_entries sh = entries u) /\
  (forall k, (forall j, 0 <= j < MaxShaderProgram -> visited system j = true ->
                        GetStageFromProgram j <> Z.of_nat k) ->
             nth k program None = None).
Proof.
  intro H. rewrite DecompileShaders_unfold in H.
  destruct (point_size_missing key); [discriminate H|].
  destruct (DecompileShaders_loop _ _ _ _ s) as [[st s1]|] eqn:Hloop; [|discriminate H].
  inversion H; subst. clear H.
  apply DecompileShaders_loop_slots in Hloop;
    cbn [ds_program ds_bindings ds_specialization base_binding] in *.
  - destruct Hloop as (Hlen & Hslots & Hframe).
    split; [exact Hlen|]. split.
    + intros j Hj Hvj. rewrite GetStageFromProgram_inline by exact Hj.
      apply Hslots; assumption.
    + intros k Hk. rewrite Hframe.
      * apply nth_repeat.
      * intros j Hj Hvj Heq. apply (Hk j Hj Hvj).
        rewrite GetStageFromProgram_inline by exact Hj.
        unfold MaxShaderProgram in Hj. rewrite <- Heq.
        destruct (Z.eqb_spec j 0); lia.
  - lia.
  - vm_compute. discriminate.
  - unfold ShaderProgram.VertexB. discriminate.
  - lia.
  - apply repeat_length.
Qed.

Lemma X13_witness :
  length (fst Scenario.decompiled) = Z.to_nat MaxShaderStage /\
  (forall j, 0 <= j < MaxShaderProgram -> visited (Sample.system [1; 5]) j = true ->
     exists u sh, registered (host_of (Sample.system [1; 5]) j) u Sample.ready /\
                  nth (Z.to_nat (GetStageFromProgram j)) (fst Scenario.decompiled) None
                  = Some sh /\
                  spirv_entries sh = entries u) /\
  (forall k, (forall j, 0 <= j < MaxShaderProgram ->
                        visited (Sample.system [1; 5]) j = true ->
                        GetStageFromProgram j <> Z.of_nat k) ->
             nth k (fst Scenario.decompiled) None = None).
Proof.
  apply (X13_DecompileShaders_program_slots (Sample.system [1; 5])
           (Sample.key [1; 5]) Sample.ready Sample.ready
           (fst Scenario.decompiled) (snd Scenario.decompiled)).
  vm_compute. reflexivity.
Defined.

(* ---------------- Unregister ---------------- *)

Lemma is_nil_filter {A : Type} (f : A -> bool) (l : list A) :
  is_nil (filter f l) = negb (existsb f l).
Proof.
  induction l as [|x l IH]; simpl; [reflexivity|].
  destruct (f x); simpl; [reflexivity|exact IH].
Qed.

Lemma filter_none {A : Type} (f : A -> bool) (l : list A) :
  existsb f l = false ->
  filter f l = [] /\ filter (fun x => negb (f x)) l = l.
Proof.
  induction l as [|x l IH]; simpl; intro H; [split; reflexivity|].
  apply orb_false_iff in H. destruct H as [Hx Hl]. rewrite Hx. cbn [negb].
  destruct (IH Hl) as [-> ->]. split; reflexivity.
Qed.

Lemma existsb_filter_negb {A : Type} (f : A -> bool) (l : list A) :
  existsb f (filter (fun x => negb (f x)) l) = false.
Proof.
  induction l as [|x l IH]; simpl; [reflexivity|].
  destruct (f x) eqn:Hx; simpl; [exact IH|]. rewrite Hx. exact IH.
Qed.

Lemma count_finish_Unregister_events (object : CachedShader) (s : VKPipelineCache) :
  count_finish (Unregister_events object s) =
  if stale (gpu_addr object) s then 1%nat else 0%nat.
Proof.
  unfold count_finish, Unregister_events, stale, removed_graphics, removed_compute.
  cbv zeta.
  rewrite !filter_app, filter_is_finish_graphics, filter_is_finish_compute.
  rewrite !is_nil_filter, <- negb_orb.
  destruct (existsb _ (graphics_cache s) || existsb _ (compute_cache s));
    reflexivity.
Qed.

Lemma Unregister_not_stale (object : CachedShader) (s : VKPipelineCache) :
  stale (gpu_addr object) s = false ->
  Unregister_events object s = [EvUnregister (host_ptr object) (shader_id object)] /\
  kept_graphics (gpu_addr object) (graphics_cache s) = graphics_cache s /\
  kept_compute (gpu_addr object) (compute_cache s) = compute_cache s.
Proof.
  unfold stale. intro H. apply orb_false_iff in H. destruct H as [Hg Hc].
  apply filter_none in Hg. apply filter_none in Hc.
  destruct Hg as [Hg Hg']. destruct Hc as [Hc Hc'].
  unfold Unregister_events, removed_graphics, removed_compute, kept_graphics,
    kept_compute. cbv zeta.
  rewrite Hg, Hc, Hg', Hc'. split; [reflexivity|split; reflexivity].
Qed.

(** X14.  Unregister waits for the GPU (scheduler.Finish()) exactly when it
    has a pipeline to remove: once if some graphics or compute pipeline was
    built from the shader, and not at all otherwise, in which case both
    pipeline maps are left as they are and the removal from the registry is
    all that happens. *)
Theorem X14_Unregister_finish_exactly_when_stale (object : CachedShader)
        (s : VKPipelineCache) :
  exists s' evs,
    Unregister object s = Some (tt, s') /\
    trace s' = trace s ++ evs /\
    count_finish evs = (if stale (gpu_addr object) s then 1%nat else 0%nat) /\
    (stale (gpu_addr object) s = false ->
     graphics_cache s' = graphics_cache s /\
     compute_cache s' = compute_cache s /\
     evs = [EvUnregister (host_ptr object) (shader_id object)]).
Proof.
  exists (Unregister_result object s), (Unregister_events object s).
  split; [apply Unregister_spec|]. split; [reflexivity|].
  split; [apply count_finish_Unregister_events|].
  intro H. apply Unregister_not_stale in H. destruct H as (He & Hg & Hc).
  cbn [Unregister_result graphics_cache compute_cache]. auto.
Qed.

Lemma Unregister_result_not_stale (object : CachedShader) (s : VKPipelineCache) :
  stale (gpu_addr object) (Unregister_result object s) = false.
Proof.
  unfold stale, Unregister_result, kept_graphics, kept_compute.
  cbn [graphics_cache compute_cache].
  rewrite (existsb_filter_negb (fun kv => references (gpu_addr object) (fst kv))).
  rewrite (existsb_filter_negb (fun kv => shader (fst kv) =? gpu_addr object)).
  reflexivity.
Qed.

(** X15.  The purge is complete and idempotent: after Unregister no pipeline
    built from the shader's address is left in either map, so unregistering a
    shader of the same address once more removes no pipeline and does not
    wait for the GPU. *)
Theorem X15_Unregister_idempotent (object again : CachedShader)
        (s s' : VKPipelineCache) :
  Unregister object s = Some (tt, s') ->
  gpu_addr again = gpu_addr object ->
  stale (gpu_addr object) s' = false /\
  exists s'',
    Unregister again s' = Some (tt, s'') /\
    graphics_cache s'' = graphics_cache s' /\
    compute_cache s'' = compute_cache s' /\
    trace s'' = trace s' ++ [EvUnregister (host_ptr again) (shader_id again)].
Proof.
  intros H Haddr. rewrite Unregister_spec in H. inversion H; subst s'. clear H.
  pose proof (Unregister_result_not_stale object s) as Hclean.
  split; [exact Hclean|].
  exists (Unregister_result again (Unregister_result object s)).
  split; [apply Unregister_spec|].
  rewrite <- Haddr in Hclean. apply Unregister_not_stale in Hclean.
  destruct Hclean as (He & Hg & Hc).
  split; [exact Hg|]. split; [exact Hc|].
  change (trace (Unregister_result again (Unregister_result object s)))
    with (trace (Unregister_result object s)
          ++ Unregister_events again (Unregister_result object s)).
  rewrite He. reflexivity.
Qed.

Lemma X15_witness :
  stale (gpu_addr (Sample.unit_of 1)) Scenario.purged = false /\
  exists s'',
    Unregister (Sample.unit_of 1) Scenario.purged = Some (tt, s'') /\
    graphics_cache s'' = graphics_cache Scenario.purged /\
    compute_cache s'' = compute_cache Scenario.purged /\
    trace s'' = trace Scenario.purged ++
                [EvUnregister (host_ptr (Sample.unit_of 1))
                              (shader_id (Sample.unit_of 1))].
Proof.
  apply (X15_Unregister_idempotent (Sample.unit_of 1) (Sample.unit_of 1)
           Sample.crowded Scenario.purged).
  - vm_compute. reflexivity.
  - reflexivity.
Defined.

(** X16.  When a pipeline is memoized and the memo is valid, the memo is still
    valid after Unregister exactly when the memoized key does not reference
    the unregistered shader's address: Unregister never resets the memo. *)
Theorem X16_memo_valid_after_Unregister (object : CachedShader)
        (s s' : VKPipelineCache) (p : nat) :
  memo_valid s ->
  last_graphics_pipeline s = Some p ->
  Unregister object s = Some (tt, s') ->
  (memo_valid s' <-> references (gpu_addr object) (last_graphics_key s) = false).
Proof.
  intros Hvalid Hp H. rewrite Unregister_spec in H. inversion H; subst s'. clear H.
  destruct (Hvalid p Hp) as (e & Hfind & He).
  unfold memo_valid, Unregister_result, kept_graphics.
  cbn [last_graphics_pipeline last_graphics_key graphics_cache].
  split.
  - intro Hv. destruct (Hv p Hp) as (e' & Hfind' & _).
    apply find_key_In in Hfind'. destruct Hfind' as (k' & Hin & Hk).
    apply GraphicsKey_eqb_true in Hk. subst k'.
    apply filter_In in Hin. destruct Hin as [_ Hin]. cbn [fst] in Hin.
    apply negb_true_iff in Hin. exact Hin.
  - intros Href q Hq. rewrite Hp in Hq. inversion Hq; subst q.
    exists e. split; [|exact He].
    rewrite find_key_filter; [exact Hfind|].
    intros k' v Hk _. apply GraphicsKey_eqb_true in Hk. subst k'.
    cbn [fst]. rewrite Href. reflexivity.
Qed.

Lemma X16_witness :
  memo_valid Scenario.invalidated <->
  references (gpu_addr (Sample.unit_of 1)) (last_graphics_key (snd Sample.drawn)) = false.
Proof.
  apply (X16_memo_valid_after_Unregister (Sample.unit_of 1) (snd Sample.drawn)
           Scenario.invalidated (fst Sample.drawn)).
  - intros p Hp. vm_compute in Hp. inversion Hp; subst p.
    eexists. split; reflexivity.
  - vm_compute. reflexivity.
  - vm_compute. reflexivity.
Defined.

(* ---------------- A draw that compiles ---------------- *)

(** The slots of the program array of a call of DecompileShaders that
    returns. *)
Lemma DecompileShaders_slots (system : System) (key : GraphicsPipelineCacheKey)
      (s s' : VKPipelineCache) (program : SPIRVProgram)
      (bindings : list DescriptorSetLayoutBinding) :
  DecompileShaders system key s = Some ((program, bindings), s') ->
  length program = Z.to_nat MaxShaderStage /\
  forall j, 0 <= j < MaxShaderProgram -> visited system j = true ->
    exists u sh, registered (host_of system j) u s /\
                 nth (Z.to_nat (GetStageFromProgram j)) program None = Some sh /\
                 spirv_entries sh = entries u.
Proof.
  intro H. rewrite DecompileShaders_unfold in H.
  destruct (point_size_missing key); [discriminate H|].
  destruct (DecompileShaders_loop _ _ _ _ s) as [[st s1]|] eqn:Hloop; [|discriminate H].
  inversion H; subst. clear H.
  apply DecompileShaders_loop_slots in Hloop;
    cbn [ds_program ds_bindings ds_specialization base_binding] in *.
  - destruct Hloop as (Hlen & Hslots & _). split; [exact Hlen|].
    intros j Hj Hvj. rewrite GetStageFromProgram_inline by exact Hj.
    apply Hslots; assumption.
  - lia.
  - vm_compute. discriminate.
  - unfold ShaderProgram.VertexB. discriminate.
  - lia.
  - apply repeat_length.
Qed.

(** A call of GetGraphicsPipeline that misses the memo and the map and
    returns: the pipeline it stores under the key is built from what
    DecompileShaders returns, run on the cache with the key memoized. *)
Lemma GetGraphicsPipeline_miss (system : System) (key : GraphicsPipelineCacheKey)
      (s s2 : VKPipelineCache) (p : nat) :
  last_graphics_pipeline s = None \/ last_graphics_key s <> key ->
  find_key GraphicsKey_eqb key (graphics_cache s) = None ->
  GetGraphicsPipeline system key s = Some (p, s2) ->
  exists program bindings s0,
    map_cache s0 = map_cache s /\
    DecompileShaders system key s0 = Some ((program, bindings), s0) /\
    p = next_object s /\
    s2 = compiled_state s key {| gp_id := next_object s; gp_key := key;
                                 gp_bindings := bindings; gp_program := program |}.
Proof.
  intros Hmemo Hmiss H.
  set (s0 := {| map_cache := map_cache s; graphics_cache := graphics_cache s;
                compute_cache := compute_cache s;
                last_graphics_pipeline := last_graphics_pipeline s;
                last_graphics_key := key;
                last_shaders := last_shaders s;
                next_object := next_object s;
                trace := trace s |}).
  assert (Hrun : GetGraphicsPipeline system key s =
                 (set_last_graphics_key key ;;;
                  cache <- read graphics_cache ;;
                  match find_key GraphicsKey_eqb key cache with
                  | Some entry =>
                      set_last_graphics_pipeline (Some (gp_id entry)) ;;;
                      ret (gp_id entry)
                  | None =>
                      ' (program, bindings) <- DecompileShaders system key ;;
                      id <- allocate ;;
                      emit (EvCompileGraphics key id) ;;;
                      let entry := {| gp_id := id; gp_key := key;
                                      gp_bindings := bindings;
                                      gp_program := program |} in
                      set_graphics_cache ((key, entry) :: cache) ;;;
                      set_last_graphics_pipeline (Some (gp_id entry)) ;;;
                      ret (gp_id entry)
                  end) s).
  { unfold GetGraphicsPipeline. unfold bind at 1 2, read.
    destruct Hmemo as [Hl|Hk].
    - rewrite Hl. reflexivity.
    - destruct (GraphicsKey_eqb (last_graphics_key s) key) eqn:He.
      + apply GraphicsKey_eqb_true in He. contradiction.
      + destruct (last_graphics_pipeline s); reflexivity. }
  rewrite Hrun in H. unfold bind at 1 in H. unfold set_last_graphics_key at 1 in H.
  fold s0 in H. unfold bind at 1 in H. unfold read at 1 in H.
  change (graphics_cache s0) with (graphics_cache s) in H.
  rewrite Hmiss in H. unfold bind at 1 in H.
  destruct (DecompileShaders system key s0) as [[[program bindings] s1]|] eqn:Hdec;
    [|discriminate H].
  pose proof (DecompileShaders_pure _ _ _ _ _ Hdec) as ->.
  exists program, bindings, s0. split; [reflexivity|]. split; [exact Hdec|].
  unfold bind, allocate, emit, set_graphics_cache, set_last_graphics_pipeline, ret in H.
  subst s0. cbn in H. inversion H; subst. split; reflexivity.
Qed.

(** X19.  A draw that compiles: when GetShaders has returned and the call of
    GetGraphicsPipeline that follows misses the memo and the map and returns,
    the pipeline it inserts under the key is the one it returns and
    memoizes, the registry is as GetShaders left it, and the program array
    of the pipeline has, in the stage slot of every enabled program (VertexB
    apart when VertexA is enabled too), a program with the resource manifest
    of the unit GetShaders returned for that program. *)
Theorem X19_draw_compiles_fetched_units (system : System)
        (key : GraphicsPipelineCacheKey) (s s1 s2 : VKPipelineCache)
        (shaders : list (option CachedShader)) (p : nat) :
  GetShaders system s = Some (shaders, s1) ->
  last_graphics_pipeline s1 = None \/ last_graphics_key s1 <> key ->
  find_key GraphicsKey_eqb key (graphics_cache s1) = None ->
  GetGraphicsPipeline system key s1 = Some (p, s2) ->
  exists entry,
    graphics_cache s2 = (key, entry) :: graphics_cache s1 /\
    gp_id entry = p /\ gp_key entry = key /\
    last_graphics_pipeline s2 = Some p /\ last_graphics_key s2 = key /\
    map_cache s2 = map_cache s1 /\
    length (gp_program entry) = Z.to_nat MaxShaderStage /\
    forall j, 0 <= j < MaxShaderProgram -> visited system j = true ->
      exists u sh,
        nth (Z.to_nat j) shaders None = Some u /\
        nth (Z.to_nat (GetStageFromProgram j)) (gp_program entry) None = Some sh /\
        spirv_entries sh = entries u.
Proof.
  intros Hget Hmemo Hmiss Hpipe.
  apply GetShaders_spec in Hget. destruct Hget as (_ & _ & Hfetched).
  destruct (GetGraphicsPipeline_miss system key s1 s2 p Hmemo Hmiss Hpipe)
    as (program & bindings & s0 & Hmap & Hdec & -> & ->).
  apply DecompileShaders_slots in Hdec. destruct Hdec as (Hlen & Hslots).
  eexists. split; [reflexivity|]. cbn [compiled_state gp_id gp_key gp_program
    last_graphics_pipeline last_graphics_key map_cache].
  repeat (split; [reflexivity|]). split; [exact Hlen|].
  intros j Hj Hvis.
  destruct (Hslots j Hj Hvis) as (u & sh & Hreg & Hnth & Hman).
  specialize (Hfetched j Hj).
  assert (Hen : IsShaderConfigEnabled system j = true).
  { unfold visited in Hvis. apply andb_prop in Hvis. apply Hvis. }
  rewrite Hen in Hfetched. destruct Hfetched as (u' & Hu' & Hreg').
  unfold registered in Hreg, Hreg'. rewrite Hmap in Hreg.
  assert (u' = u) as -> by congruence.
  exists u, sh. auto.
Qed.

Lemma X19_witness :
  exists entry,
    graphics_cache (snd Sample.drawn) = (Sample.key [1; 5], entry) :: graphics_cache Sample.ready /\
    gp_id entry = fst Sample.drawn /\ gp_key entry = Sample.key [1; 5] /\
    last_graphics_pipeline (snd Sample.drawn) = Some (fst Sample.drawn) /\
    last_graphics_key (snd Sample.drawn) = Sample.key [1; 5] /\
    map_cache (snd Sample.drawn) = map_cache Sample.ready /\
    length (gp_program entry) = Z.to_nat MaxShaderStage /\
    forall j, 0 <= j < MaxShaderProgram -> visited (Sample.system [1; 5]) j = true ->
      exists u sh,
        nth (Z.to_nat j) (last_shaders Sample.ready) None = Some u /\
        nth (Z.to_nat (GetStageFromProgram j)) (gp_program entry) None = Some sh /\
        spirv_entries sh = entries u.
Proof.
  apply (X19_draw_compiles_fetched_units (Sample.system [1; 5]) (Sample.key [1; 5])
           new_cache Sample.ready (snd Sample.drawn) (last_shaders Sample.ready)
           (fst Sample.drawn)).
  - vm_compute. reflexivity.
  - left. reflexivity.
  - reflexivity.
  - vm_compute. reflexivity.
Defined.

(* ---------------- GetComputePipeline ---------------- *)

Lemma GetComputePipeline_cached (system : System) (key : ComputePipelineCacheKey)
      (s s1 : VKPipelineCache) (p : nat) :
  GetComputePipeline system key s = Some (p, s1) ->
  exists e, find_key ComputeKey_eqb key (compute_cache s1) = Some e /\ cp_id e = p.
Proof.
  intro H. apply GetComputePipeline_outcome in H.
  destruct H as [e He -> ->|u _ _ -> ->|u _ _ _ -> ->].
  - exists e. auto.
  - cbn [compute_state compute_cache find_key]. rewrite ComputeKey_eqb_refl.
    eexists. split; reflexivity.
  - cbn [compute_state compute_cache find_key]. rewrite ComputeKey_eqb_refl.
    eexists. split; reflexivity.
Qed.

Lemma GetComputePipeline_hit (system : System) (key : ComputePipelineCacheKey)
      (s : VKPipelineCache) (e : VKComputePipeline) :
  find_key ComputeKey_eqb key (compute_cache s) = Some e ->
  GetComputePipeline system key s = Some (cp_id e, s).
Proof.
  intro H. unfold GetComputePipeline. unfold bind at 1, read. rewrite H. reflexivity.
Qed.

(** X21.  A compute pipeline is built once per key: after a call of
    GetComputePipeline for a key, and any draws and dispatches that follow
    (none of them an invalidation), a call with the same key returns the same
    pipeline object and leaves the cache as it is, whatever the state of the
    GPU memory then is. *)
Theorem X21_compute_key_reused (system system' : System)
        (key : ComputePipelineCacheKey) (s s1 s2 : VKPipelineCache) (p : nat)
        (rs : list Request) :
  GetComputePipeline system key s = Some (p, s1) ->
  perform_all rs s1 = Some (tt, s2) ->
  GetComputePipeline system' key s2 = Some (p, s2).
Proof.
  intros H Hrs. apply GetComputePipeline_cached in H. destruct H as (e & He & <-).
  apply perform_all_extends in Hrs.
  apply GetComputePipeline_hit. apply (ext_compute _ _ Hrs). exact He.
Qed.

Lemma X21_witness :
  GetComputePipeline (Sample.system []) (Sample.compute_key 8)
    (Sample.after (perform_all Sample.later_requests) (snd Scenario.dispatched))
  = Some (fst Scenario.dispatched,
          Sample.after (perform_all Sample.later_requests) (snd Scenario.dispatched)).
Proof.
  apply (X21_compute_key_reused (Sample.system [1; 5]) (Sample.system [])
           (Sample.compute_key 8) Sample.ready (snd Scenario.dispatched)
           (Sample.after (perform_all Sample.later_requests) (snd Scenario.dispatched))
           (fst Scenario.dispatched) Sample.later_requests).
  - vm_compute. reflexivity.
  - vm_compute. reflexivity.
Defined.

(* ---------------- Nothing is built twice ---------------- *)

Lemma builds_app {K : Type} (sel : Event -> option K) (eqb : K -> K -> bool)
      (k : K) (a b : list Event) :
  builds sel eqb k (a ++ b) = (builds sel eqb k a + builds sel eqb k b)%nat.
Proof. unfold builds. rewrite filter_app, length_app. reflexivity. Qed.

Lemma built_once_insert {K V : Type} (sel : Event -> option K) (eqb : K -> K -> bool)
      (m : list (K * V)) (evs new : list Event) (k0 : K) (v : V) :
  (forall a b, eqb a b = true -> a = b) ->
  built_once sel eqb m evs ->
  find_key eqb k0 m = None ->
  (forall k, (builds sel eqb k new <= if eqb k0 k then 1 else 0)%nat) ->
  built_once sel eqb ((k0, v) :: m) (evs ++ new).
Proof.
  intros eqb_true Hm Hfind Hnew k. rewrite builds_app. cbn [find_key].
  specialize (Hnew k). specialize (Hm k).
  destruct (eqb k0 k) eqn:Hk.
  - apply eqb_true in Hk. subst k0. rewrite Hfind in Hm. lia.
  - lia.
Qed.

Lemma built_once_quiet {K V : Type} (sel : Event -> option K) (eqb : K -> K -> bool)
      (m : list (K * V)) (evs new : list Event) :
  built_once sel eqb m evs ->
  (forall k, builds sel eqb k new = 0%nat) ->
  built_once sel eqb m (evs ++ new).
Proof.
  intros Hm Hnew k. rewrite builds_app, Hnew. specialize (Hm k). lia.
Qed.

Lemma builds_once_registered (s : VKPipelineCache) (u : CachedShader) :
  find_key Z.eqb (host_ptr u) (map_cache s) = None ->
  builds_once s -> builds_once (registered_state s u).
Proof.
  intros Hfind (Hg & Hc & Hu). unfold builds_once, registered_state.
  cbn [graphics_cache compute_cache map_cache trace].
  split; [|split].
  - apply built_once_quiet; [exact Hg|reflexivity].
  - apply built_once_quiet; [exact Hc|reflexivity].
  - apply built_once_insert; [apply Z_eqb_true|exact Hu|exact Hfind|].
    intro k. unfold builds. cbn [filter unit_built].
    destruct (host_ptr u =? k); cbn [length]; lia.
Qed.

Lemma builds_once_compiled (s : VKPipelineCache) (key : GraphicsPipelineCacheKey)
      (entry : VKGraphicsPipeline) :
  find_key GraphicsKey_eqb key (graphics_cache s) = None ->
  builds_once s -> builds_once (compiled_state s key entry).
Proof.
  intros Hfind (Hg & Hc & Hu). unfold builds_once, compiled_state.
  cbn [graphics_cache compute_cache map_cache trace].
  split; [|split].
  - apply built_once_insert; [apply GraphicsKey_eqb_true|exact Hg|exact Hfind|].
    intro k. unfold builds. cbn [filter graphics_built].
    destruct (GraphicsKey_eqb key k); cbn [length]; lia.
  - apply built_once_quiet; [exact Hc|reflexivity].
  - apply built_once_quiet; [exact Hu|reflexivity].
Qed.

Lemma builds_once_compute (s : VKPipelineCache) (key : ComputePipelineCacheKey)
      (entry : VKComputePipeline) :
  find_key ComputeKey_eqb key (compute_cache s) = None ->
  builds_once s -> builds_once (compute_state s key entry).
Proof.
  intros Hfind (Hg & Hc & Hu). unfold builds_once, compute_state.
  cbn [graphics_cache compute_cache map_cache trace].
  split; [|split].
  - apply built_once_quiet; [exact Hg|reflexivity].
  - apply built_once_insert; [apply ComputeKey_eqb_true|exact Hc|exact Hfind|].
    intro k. unfold builds. cbn [filter compute_built].
    destruct (ComputeKey_eqb key k); cbn [length]; lia.
  - apply built_once_quiet; [exact Hu|reflexivity].
Qed.

Lemma GetShaders_loop_builds_once (system : System) :
  forall indices arr s arr' s',
    GetShaders_loop system indices arr s = Some (arr', s') ->
    builds_once s -> builds_once s'.
Proof.
  induction indices as [|index rest IH]; intros arr s arr' s' H Hinv.
  - inversion H; subst. exact Hinv.
  - cbn [GetShaders_loop] in H. unfold bind in H.
    destruct (GetShaders_body system index arr s) as [[arr1 s1]|] eqn:Hbody;
      [|discriminate H].
    apply (IH _ _ _ _ H).
    apply GetShaders_body_outcome in Hbody.
    destruct Hbody as [_ _ ->|u _ _ _ ->|u _ Hfind Hu _ ->]; try exact Hinv.
    apply builds_once_registered; [rewrite Hu; exact Hfind|exact Hinv].
Qed.

Lemma perform_builds_once (r : Request) (s s' : VKPipelineCache) :
  perform r s = Some (tt, s') -> builds_once s -> builds_once s'.
Proof.
  destruct r as [system|system key|system key]; unfold perform, bind; intros H Hinv.
  - destruct (GetShaders system s) as [[arr s1]|] eqn:E; [|discriminate H].
    inversion H; subst. apply GetShaders_inv in E. destruct E as (s2 & Hloop & ->).
    apply GetShaders_loop_builds_once in Hloop; [|exact Hinv]. exact Hloop.
  - destruct (GetGraphicsPipeline system key s) as [[p s1]|] eqn:E; [|discriminate H].
    inversion H; subst. apply GetGraphicsPipeline_outcome in E.
    destruct E as [_ _ ->| e _ _ ->| program bindings Hfind _ ->].
    + exact Hinv.
    + exact Hinv.
    + apply builds_once_compiled; assumption.
  - destruct (GetComputePipeline system key s) as [[p s1]|] eqn:E; [|discriminate H].
    inversion H; subst. apply GetComputePipeline_outcome in E.
    destruct E as [e _ _ ->|u Hfind _ _ ->|u Hfind Hreg Hu _ ->].
    + exact Hinv.
    + apply builds_once_compute; assumption.
    + apply builds_once_compute; [exact Hfind|].
      apply builds_once_registered; [rewrite Hu; exact Hreg|exact Hinv].
Qed.

Lemma perform_all_builds_once (rs : list Request) :
  forall s s', perform_all rs s = Some (tt, s') -> builds_once s -> builds_once s'.
Proof.
  induction rs as [|r rest IH]; intros s s' H Hinv.
  - inversion H; subst. exact Hinv.
  - cbn [perform_all] in H. unfold bind in H.
    destruct (perform r s) as [[[] s1]|] eqn:E; [|discriminate H].
    apply (IH _ _ H). apply (perform_builds_once _ _ _ E). exact Hinv.
Qed.

Lemma built_once_le {K V : Type} (sel : Event -> option K) (eqb : K -> K -> bool)
      (m : list (K * V)) (evs : list Event) (k : K) :
  built_once sel eqb m evs -> (builds sel eqb k evs <= 1)%nat.
Proof.
  intro H. specialize (H k). destruct (find_key eqb k m); lia.
Qed.

Lemma compiles_of_builds (key : GraphicsPipelineCacheKey) (evs : list Event) :
  compiles_of key evs = builds graphics_built GraphicsKey_eqb key evs.
Proof.
  unfold compiles_of, builds. f_equal. apply filter_ext.
  intros [ | | | | | | | ]; reflexivity.
Qed.

Lemma builds_once_new_cache : builds_once new_cache.
Proof.
  unfold builds_once, built_once, builds, new_cache.
  cbn [graphics_cache compute_cache map_cache trace filter length find_key].
  repeat split; intro k; lia.
Qed.

(** X22.  Over draws and dispatches without an invalidation nothing is built
    twice: if the trace so far holds at most one build for every key its map
    holds and none for the others (as the empty cache does), then so it does
    after any sequence of GetShaders, GetGraphicsPipeline and
    GetComputePipeline requests.  So every graphics key and every compute key
    is compiled at most once, and the program behind every backing pointer is
    translated at most once. *)
Theorem X22_nothing_built_twice (rs : list Request) (s s' : VKPipelineCache) :
  builds_once s ->
  perform_all rs s = Some (tt, s') ->
  builds_once s' /\
  (forall key, (compiles_of key (trace s') <= 1)%nat) /\
  (forall key, (builds compute_built ComputeKey_eqb key (trace s') <= 1)%nat) /\
  (forall h, (builds unit_built Z.eqb h (trace s') <= 1)%nat).
Proof.
  intros Hinv H. apply perform_all_builds_once in H; [|exact Hinv].
  split; [exact H|]. destruct H as (Hg & Hc & Hu).
  split; [|split].
  - intro key. rewrite compiles_of_builds. eapply built_once_le. exact Hg.
  - intro key. eapply built_once_le. exact Hc.
  - intro h. eapply built_once_le. exact Hu.
Qed.

Lemma X22_witness :
  builds_once (Sample.after (perform_all Scenario.frame) new_cache) /\
  (forall key,
      (compiles_of key (trace (Sample.after (perform_all Scenario.frame) new_cache))
       <= 1)%nat) /\
  (forall key,
      (builds compute_built ComputeKey_eqb key
              (trace (Sample.after (perform_all Scenario.frame) new_cache)) <= 1)%nat) /\
  (forall h,
      (builds unit_built Z.eqb h
              (trace (Sample.after (perform_all Scenario.frame) new_cache)) <= 1)%nat).
Proof.
  apply (X22_nothing_built_twice Scenario.frame new_cache
           (Sample.after (perform_all Scenario.frame) new_cache)).
  - apply builds_once_new_cache.
  - vm_compute. reflexivity.
Defined.
